(** * Memory orchestration layer: classifier, content processor, strategy
      planner, index optimizer, table provisioning and event stream.

    A shallow embedding of the Python sources under
    [src/server/mcp-memory/src] and of the properties the specification
    states about them.

    Conventions of the embedding.
    - A Python [str] is a list of Unicode code points ([list N]), so that
      [len] counts characters as Python does (a Hangul syllable is one
      character, not three bytes).  String constants of the source are
      written as UTF-8 literals and decoded by [u].
    - A Python [float] is an exact rational ([Q]).  All constants of the
      source (0.1 steps, 1.5, 1.2, 3.0, ...) are decimal rationals; rounding
      of IEEE doubles is not modelled.
    - A Python [dict] whose iteration order is observed is an association
      list in insertion order; maps that are only looked up are [gmap]s.
    - Library functions whose tables are not part of the repository
      (Unicode case mapping, character classes, [json.dumps], the cosine
      distance of the vector store) are section variables. *)

From Stdlib Require Import ZArith NArith QArith Qminmax List String Ascii Bool Lia Lqa.
From stdpp Require Import gmap.
Import ListNotations.

Set Default Proof Using "Type".

(** ** Python strings *)

Module PyStr.

Definition cp := N.
Definition str := list N.

(** UTF-8 decoding of the bytes of a source literal. *)
Fixpoint utf8_decode (bs : list N) : str :=
  match bs with
  | [] => []
  | b0 :: rest =>
      if (b0 <? 128)%N then b0 :: utf8_decode rest
      else if (b0 <? 224)%N then
        match rest with
        | b1 :: rest1 =>
            ((b0 - 192) * 64 + (b1 - 128))%N :: utf8_decode rest1
        | [] => [b0]
        end
      else if (b0 <? 240)%N then
        match rest with
        | b1 :: b2 :: rest2 =>
            ((b0 - 224) * 4096 + (b1 - 128) * 64 + (b2 - 128))%N
              :: utf8_decode rest2
        | _ => [b0]
        end
      else
        match rest with
        | b1 :: b2 :: b3 :: rest3 =>
            ((b0 - 240) * 262144 + (b1 - 128) * 4096
             + (b2 - 128) * 64 + (b3 - 128))%N :: utf8_decode rest3
        | _ => [b0]
        end
  end.

Definition u (s : string) : str :=
  utf8_decode (map N_of_ascii (list_ascii_of_string s)).

(** [a == b] on strings. *)
Fixpoint str_eqb (a b : str) : bool :=
  match a, b with
  | [], [] => true
  | c :: a', d :: b' => (c =? d)%N && str_eqb a' b'
  | _, _ => false
  end.

(** [s.startswith(p)] *)
Fixpoint startswith (s p : str) : bool :=
  match p, s with
  | [], _ => true
  | _ :: _, [] => false
  | c :: p', d :: s' => (c =? d)%N && startswith s' p'
  end.

(** [p in s] for strings: [p] occurs as a contiguous substring of [s]. *)
Fixpoint contains (p s : str) : bool :=
  startswith s p ||
  match s with
  | [] => false
  | _ :: s' => contains p s'
  end.

(** The characters [str.split()] and [str.strip()] treat as whitespace
    (CPython's [_PyUnicode_IsWhitespace]). *)
Definition is_space (c : cp) : bool :=
  ((9 <=? c) && (c <=? 13) || (28 <=? c) && (c <=? 32)
   || (c =? 133) || (c =? 160) || (c =? 5760)
   || (8192 <=? c) && (c <=? 8202)
   || (c =? 8232) || (c =? 8233) || (c =? 8239) || (c =? 8287)
   || (c =? 12288))%N.

(** [s.split()]: maximal runs of non-whitespace characters.  [cur] is the
    word being read, in reverse. *)
Fixpoint split_ws_aux (s : str) (cur : str) : list str :=
  match s with
  | [] => match cur with [] => [] | _ => [rev cur] end
  | c :: s' =>
      if is_space c then
        match cur with
        | [] => split_ws_aux s' []
        | _ => rev cur :: split_ws_aux s' []
        end
      else split_ws_aux s' (c :: cur)
  end.

Definition split_ws (s : str) : list str := split_ws_aux s [].

Fixpoint lstrip (s : str) : str :=
  match s with
  | c :: s' => if is_space c then lstrip s' else s
  | [] => []
  end.

Definition rstrip (s : str) : str := rev (lstrip (rev s)).

(** [s.strip()] *)
Definition strip (s : str) : str := rstrip (lstrip s).

(** [s.split(sep)] for a one-character separator: always at least one
    field, empty fields are kept. *)
Fixpoint split_on_aux (sep : cp) (s : str) (cur : str) : list str :=
  match s with
  | [] => [rev cur]
  | c :: s' =>
      if (c =? sep)%N then rev cur :: split_on_aux sep s' []
      else split_on_aux sep s' (c :: cur)
  end.

Definition split_on (sep : cp) (s : str) : list str := split_on_aux sep s [].

(** [s.replace(old, new)] for a non-empty [old]: leftmost non-overlapping
    occurrences.  The fuel is the length of [s]. *)
Fixpoint replace_aux (fuel : nat) (old new s : str) : str :=
  match fuel with
  | O => s
  | S fuel' =>
      match s with
      | [] => []
      | c :: s' =>
          if startswith s old
          then new ++ replace_aux fuel' old new (skipn (length old) s)
          else c :: replace_aux fuel' old new s'
      end
  end.

Definition replace (old new s : str) : str :=
  match old with
  | [] => s
  | _ => replace_aux (S (length s)) old new s
  end.

(** [sep.join(parts)] *)
Fixpoint join (sep : str) (parts : list str) : str :=
  match parts with
  | [] => []
  | [p] => p
  | p :: rest => p ++ sep ++ join sep rest
  end.

(** ASCII case mapping, the instance of [str.lower] used for the worked
    examples (it agrees with Python on ASCII and Hangul text). *)
Definition lower_ascii_cp (c : cp) : cp :=
  if ((65 <=? c) && (c <=? 90))%N then (c + 32)%N else c.

Definition lower_ascii (s : str) : str := map lower_ascii_cp s.

End PyStr.

(** ** Python values shared by the modules *)

Module Py.
Import PyStr.

(** Exceptions the modelled code can raise. *)
Inductive exn := ValueError | TypeError | KeyError.

Inductive result (A : Type) :=
| Ok (a : A)
| Raise (e : exn).
Arguments Ok {A} a.
Arguments Raise {A} e.

(** Insertion-ordered dictionaries with string keys. *)
Section Dict.
Context {V : Type}.

Fixpoint dict_get (d : list (str * V)) (k : str) : option V :=
  match d with
  | [] => None
  | (k', v) :: d' => if str_eqb k' k then Some v else dict_get d' k
  end.

(** [k in d] *)
Definition dict_mem (d : list (str * V)) (k : str) : bool :=
  match dict_get d k with Some _ => true | None => false end.

(** [d[k] = v]: an existing key keeps its position, a new key goes last. *)
Fixpoint dict_set (d : list (str * V)) (k : str) (v : V) : list (str * V) :=
  match d with
  | [] => [(k, v)]
  | (k', v') :: d' =>
      if str_eqb k' k then (k', v) :: d' else (k', v') :: dict_set d' k v
  end.
End Dict.

(** Python's [min(a, b)] and [max(a, b)] on numbers: the first argument
    wins ties. *)
Definition py_min (a b : Q) : Q := if Qlt_le_dec b a then b else a.
Definition py_max (a b : Q) : Q := if Qlt_le_dec a b then b else a.

(** [a >= b], [a > b], [a < b] on numbers, as booleans. *)
Definition Qgeb (a b : Q) : bool := Qle_bool b a.
Definition Qgtb (a b : Q) : bool := negb (Qle_bool a b).
Definition Qltb (a b : Q) : bool := negb (Qle_bool b a).

End Py.

(** ** [memory_agent/hierarchical_memory_types.py] *)

Module HierarchicalMemoryTypes.
Import PyStr Py.

Record MemoryClassification := {
  major : str;
  minor : str;
  detail : str;
  confidence : Q
}.

(** [MemoryClassification.to_path] *)
Definition to_path (c : MemoryClassification) : str :=
  major c ++ u "/" ++ minor c ++ u "/" ++ detail c.

(** [self.type_tree], in the order the source writes it. *)
Definition type_tree : list (str * list (str * list (str * list str))) :=
  [ (u "personal",
      [ (u "identity",
          [ (u "name", [u "이름"; u "성함"; u "호칭"; u "name"; u "called"]);
            (u "age", [u "나이"; u "살"; u "세"; u "출생"; u "age"; u "born"]);
            (u "location", [u "살고"; u "거주"; u "위치"; u "주소"; u "사는"; u "live"; u "location"]);
            (u "gender", [u "성별"; u "남자"; u "여자"; u "gender"]);
            (u "family", [u "가족"; u "부모"; u "형제"; u "자녀"; u "family"]) ]);
        (u "preference",
          [ (u "food", [u "먹는"; u "음식"; u "좋아하는"; u "싫어하는"; u "food"; u "eat"; u "taste"]);
            (u "music", [u "음악"; u "노래"; u "듣는"; u "music"; u "song"]);
            (u "activity", [u "운동"; u "취미"; u "활동"; u "즐기는"; u "hobby"; u "activity"]);
            (u "style", [u "스타일"; u "패션"; u "옷"; u "style"; u "fashion"]);
            (u "general", [u "좋아"; u "싫어"; u "선호"; u "like"; u "dislike"; u "prefer"]) ]);
        (u "profession",
          [ (u "job", [u "직업"; u "일"; u "업무"; u "job"; u "work"; u "occupation"]);
            (u "company", [u "회사"; u "직장"; u "근무"; u "company"; u "office"]);
            (u "role", [u "역할"; u "직책"; u "담당"; u "role"; u "position"; u "title"]);
            (u "career", [u "경력"; u "경험"; u "career"; u "experience"]);
            (u "education", [u "학교"; u "전공"; u "졸업"; u "education"; u "study"]) ]) ]);
    (u "knowledge",
      [ (u "fact",
          [ (u "general", [u "사실"; u "정보"; u "알고"; u "fact"; u "information"]);
            (u "specific", [u "구체적"; u "정확한"; u "specific"; u "exact"]);
            (u "historical", [u "과거"; u "역사"; u "예전"; u "history"; u "past"]);
            (u "current", [u "현재"; u "지금"; u "최근"; u "current"; u "now"]) ]);
        (u "skill",
          [ (u "technical", [u "기술"; u "프로그래밍"; u "개발"; u "코딩"; u "tech"; u "programming"]);
            (u "language", [u "언어"; u "영어"; u "한국어"; u "language"; u "speak"]);
            (u "soft", [u "소통"; u "리더십"; u "협업"; u "communication"; u "leadership"]);
            (u "tool", [u "도구"; u "사용"; u "프로그램"; u "tool"; u "software"]) ]);
        (u "experience",
          [ (u "work", [u "프로젝트"; u "업무"; u "일했"; u "project"; u "worked"]);
            (u "personal", [u "경험"; u "했던"; u "기억"; u "experience"; u "memory"]);
            (u "achievement", [u "성과"; u "달성"; u "이뤘"; u "achievement"; u "accomplished"]);
            (u "learning", [u "배운"; u "학습"; u "공부"; u "learned"; u "studied"]) ]) ]);
    (u "temporal",
      [ (u "conversation",
          [ (u "question", [u "?"; u "뭐"; u "어떻게"; u "왜"; u "언제"; u "what"; u "how"; u "why"]);
            (u "statement", [u "입니다"; u "해요"; u "했어요"; u "is"; u "are"; u "was"]);
            (u "greeting", [u "안녕"; u "반가"; u "hello"; u "hi"]);
            (u "response", [u "네"; u "아니"; u "응답"; u "yes"; u "no"; u "response"]) ]);
        (u "context",
          [ (u "current", [u "지금"; u "오늘"; u "현재"; u "now"; u "today"; u "current"]);
            (u "past", [u "어제"; u "예전"; u "과거"; u "yesterday"; u "before"; u "past"]);
            (u "future", [u "내일"; u "나중"; u "계획"; u "tomorrow"; u "later"; u "plan"]);
            (u "session", [u "방금"; u "아까"; u "just"; u "recently"]) ]) ]) ].

(** The leaves of a tree as [(path, keywords)], in traversal order; [path]
    is the f-string [f"{major}/{minor}/{detail}"] of [_build_keyword_map]. *)
Definition leaves (tree : list (str * list (str * list (str * list str))))
  : list (str * list str) :=
  flat_map (fun '(major, minors) =>
    flat_map (fun '(minor, details) =>
      map (fun '(detail, keywords) =>
             (major ++ u "/" ++ minor ++ u "/" ++ detail, keywords))
          details) minors) tree.

(** One iteration of the innermost loop of [_build_keyword_map]:
    [if keyword not in keyword_map: keyword_map[keyword] = []] and then
    [keyword_map[keyword].append(path)]. *)
Definition keyword_map_add (keyword_map : list (str * list str))
    (path keyword : str) : list (str * list str) :=
  match dict_get keyword_map keyword with
  | None => dict_set keyword_map keyword ([] ++ [path])
  | Some paths => dict_set keyword_map keyword (paths ++ [path])
  end.

(** [_build_keyword_map] *)
Definition build_keyword_map
    (tree : list (str * list (str * list (str * list str))))
  : list (str * list str) :=
  fold_left (fun km '(path, keywords) =>
               fold_left (fun km' keyword => keyword_map_add km' path keyword)
                         keywords km)
            (leaves tree) [].

(** [self.keyword_map] after [__init__]. *)
Definition keyword_map : list (str * list str) := build_keyword_map type_tree.

(** The [context] argument of [classify]: the two keys the classifier
    reads, each present or absent.  [previous_type] holds a path,
    [session_types] a list of paths. *)
Record Context := {
  previous_type : option str;
  session_types : option (list str)
}.

(** [if context:] -- a dictionary is true when it has a key. *)
Definition context_truthy (c : Context) : bool :=
  match previous_type c, session_types c with
  | None, None => false
  | _, _ => true
  end.

(** The body of the loop over [paths] in [classify]. *)
Definition add_score (content_lower keyword : str)
    (path_scores : list (str * Q)) (path : str) : list (str * Q) :=
  let path_scores :=
    if dict_mem path_scores path then path_scores
    else dict_set path_scores path 0%Q in
  let weight := (inject_Z (Z.of_nat (length keyword)) / 10)%Q in
  let weight :=
    if startswith content_lower keyword then (weight * 2)%Q else weight in
  match dict_get path_scores path with
  | Some s => dict_set path_scores path (s + weight)%Q
  | None => path_scores
  end.

(** [path_scores[k] *= f] guarded by [if k in path_scores]. *)
Definition boost (path_scores : list (str * Q)) (k : str) (f : Q)
  : list (str * Q) :=
  match dict_get path_scores k with
  | Some s => dict_set path_scores k (s * f)%Q
  | None => path_scores
  end.

(** [_apply_context_boosts]; the dictionary is updated in place, here the
    updated dictionary is returned. *)
Definition _apply_context_boosts (path_scores : list (str * Q))
    (context : Context) : list (str * Q) :=
  let path_scores :=
    match previous_type context with
    | Some prev_path => boost path_scores prev_path 1.5%Q
    | None => path_scores
    end in
  match session_types context with
  | Some types =>
      fold_left (fun ps session_type => boost ps session_type 1.2%Q)
                types path_scores
  | None => path_scores
  end.

(** [max(items, key=lambda x: x[1])]: the first item with the largest
    score. *)
Fixpoint max_item (best : str * Q) (items : list (str * Q)) : str * Q :=
  match items with
  | [] => best
  | x :: rest =>
      max_item (if Qlt_le_dec (snd best) (snd x) then x else best) rest
  end.

(** [major, minor, detail = path.split('/')] *)
Definition split_path (path : str) : result (str * str * str) :=
  match split_on 47%N path with
  | [a; b; c] => Ok (a, b, c)
  | _ => Raise ValueError
  end.

Section Classifier.
(** [str.lower] *)
Variable lower : str -> str.

(** The keyword loop of [classify] over a keyword map. *)
Definition score_paths (km : list (str * list str)) (content_lower : str)
  : list (str * Q) :=
  fold_left (fun path_scores '(keyword, paths) =>
               if contains keyword content_lower
               then fold_left (add_score content_lower keyword)
                              paths path_scores
               else path_scores)
            km [].

(** [HierarchicalMemoryType.classify] *)
Definition classify (content : str) (context : option Context)
  : result MemoryClassification :=
  let content_lower := lower content in
  let path_scores := score_paths keyword_map content_lower in
  let path_scores :=
    match context with
    | Some c =>
        if context_truthy c then _apply_context_boosts path_scores c
        else path_scores
    | None => path_scores
    end in
  match path_scores with
  | first :: rest =>
      let best_path := max_item first rest in
      match split_path (fst best_path) with
      | Ok (major, minor, detail) =>
          let confidence := py_min (snd best_path / 3.0)%Q 1.0%Q in
          Ok {| major := major; minor := minor; detail := detail;
                confidence := confidence |}
      | Raise e => Raise e
      end
  | [] =>
      if contains (u "?") content then
        Ok {| major := u "temporal"; minor := u "conversation";
              detail := u "question"; confidence := 0.8%Q |}
      else if (length (split_ws content) <? 10)%nat then
        Ok {| major := u "temporal"; minor := u "conversation";
              detail := u "statement"; confidence := 0.5%Q |}
      else
        Ok {| major := u "knowledge"; minor := u "fact";
              detail := u "general"; confidence := 0.3%Q |}
  end.
End Classifier.

(** [HierarchicalMemoryType.get_importance] *)
Definition importance_map : list (str * Q) :=
  [ (u "personal/identity", 9.0%Q);
    (u "personal/profession", 8.5%Q);
    (u "knowledge/skill/technical", 8.0%Q);
    (u "personal/preference", 7.0%Q);
    (u "knowledge/experience", 7.0%Q);
    (u "knowledge/fact", 6.0%Q);
    (u "temporal/context", 4.0%Q);
    (u "temporal/conversation", 3.0%Q) ].

Definition major_importance : list (str * Q) :=
  [ (u "personal", 7.0%Q); (u "knowledge", 6.0%Q); (u "temporal", 4.0%Q) ].

Definition get_importance (classification : MemoryClassification) : Q :=
  let path := major classification ++ u "/" ++ minor classification in
  match dict_get importance_map path with
  | Some v => v
  | None =>
      let base :=
        match dict_get major_importance (major classification) with
        | Some b => b
        | None => 5.0%Q
        end in
      (base + confidence classification * 2.0)%Q
  end.

End HierarchicalMemoryTypes.

(** ** The classifier as the specification words it

    Section 4.1 of the specification: every keyword matched in the
    utterance adds [len(keyword)/10] to every path it belongs to, doubled
    when the utterance starts with the keyword; context boosts multiply
    the score; the winner is the argmax and the confidence is
    [min(score/3.0, 1.0)]. *)

Module ClassifierSpec.
Import PyStr Py HierarchicalMemoryTypes.

Definition Qsum (l : list Q) : Q := fold_right Qplus 0%Q l.

(** The enumerated hierarchical paths: the leaves of the type tree. *)
Definition enumerated_paths : list str := map fst (leaves type_tree).

(** The trigger keywords a path owns, for a list of leaves. *)
Definition keywords_in (ls : list (str * list str)) (path : str) : list str :=
  flat_map (fun '(p, keywords) => if str_eqb p path then keywords else [])
           ls.

Definition keywords_of (path : str) : list str :=
  keywords_in (leaves type_tree) path.

(** Every trigger keyword of the tree. *)
Definition all_keywords : list str := flat_map snd (leaves type_tree).

(** The weight of a keyword: a tenth of its length, doubled when the
    utterance starts with it. *)
Definition keyword_weight (content_lower keyword : str) : Q :=
  (inject_Z (Z.of_nat (length keyword)) / 10
   * (if startswith content_lower keyword then 2 else 1))%Q.

(** What one keyword adds to the paths that own it: its weight when it
    occurs in the utterance. *)
Definition keyword_contribution (content_lower keyword : str) : Q :=
  if contains keyword content_lower
  then keyword_weight content_lower keyword else 0%Q.

Definition base_score (content_lower path : str) : Q :=
  Qsum (map (keyword_contribution content_lower) (keywords_of path)).

(** Some keyword of the path occurs in the utterance. *)
Definition has_match (content_lower path : str) : bool :=
  existsb (fun keyword => contains keyword content_lower) (keywords_of path).

(** Some keyword of the tree occurs in the utterance. *)
Definition any_keyword_matches (content_lower : str) : bool :=
  existsb (fun keyword => contains keyword content_lower) all_keywords.

(** The product of the boosts a path receives: 1.5 when it is the previous
    classification, 1.2 for each entry of the session's active types that
    names it. *)
Definition session_factor (types : list str) (path : str) : Q :=
  fold_right (fun t acc => ((if str_eqb t path then 1.2 else 1) * acc)%Q)
             1%Q types.

Definition context_factor (context : option Context) (path : str) : Q :=
  match context with
  | None => 1%Q
  | Some c =>
      ((match previous_type c with
        | Some prev => if str_eqb prev path then 1.5 else 1
        | None => 1
        end)
       * (match session_types c with
          | Some types => session_factor types path
          | None => 1
          end))%Q
  end.

Definition spec_score (lower : str -> str) (content : str)
    (context : option Context) (path : str) : Q :=
  (base_score (lower content) path * context_factor context path)%Q.

(** The fallback policy, in the order of the specification. *)
Definition fallback (content : str) : MemoryClassification :=
  if contains (u "?") content then
    {| major := u "temporal"; minor := u "conversation";
       detail := u "question"; confidence := 0.8%Q |}
  else if (length (split_ws content) <? 10)%nat then
    {| major := u "temporal"; minor := u "conversation";
       detail := u "statement"; confidence := 0.5%Q |}
  else
    {| major := u "knowledge"; minor := u "fact";
       detail := u "general"; confidence := 0.3%Q |}.

(** The importance the specification derives: the base importance of the
    [major/minor] prefix in the importance table plus twice the
    confidence, clamped to [0, 10]. *)
Definition clamp_0_10 (x : Q) : Q := Qmax 0 (Qmin x 10).

Definition spec_importance (c : MemoryClassification) : option Q :=
  match dict_get importance_map (major c ++ u "/" ++ minor c) with
  | Some base => Some (clamp_0_10 (base + 2 * confidence c))
  | None => None
  end.

(** Auxiliary sums over a keyword map, used to relate the map to the tree:
    the number of times [p] is listed in [paths], and the total of [f]
    over the (keyword, path) pairs of the map that name [p]. *)
Definition occ (p : str) (paths : list str) : Q :=
  Qsum (map (fun x => if str_eqb x p then 1%Q else 0%Q) paths).

Definition km_total (f : str -> Q) (p : str) (km : list (str * list str)) : Q :=
  Qsum (map (fun '(keyword, paths) => (f keyword * occ p paths)%Q) km).

Definition km_any (g : str -> bool) (p : str) (km : list (str * list str))
  : bool :=
  existsb (fun '(keyword, paths) =>
             g keyword && existsb (fun x => str_eqb x p) paths) km.

(** The score a dictionary holds for a path, 0 when the path is absent. *)
Definition score_of (path_scores : list (str * Q)) (p : str) : Q :=
  match dict_get path_scores p with Some s => s | None => 0%Q end.

(** The keyword loop, started from any dictionary. *)
Definition score_loop (cl : str) (km : list (str * list str))
    (ps : list (str * Q)) : list (str * Q) :=
  fold_left (fun path_scores '(keyword, paths) =>
               if contains keyword cl
               then fold_left (add_score cl keyword) paths path_scores
               else path_scores) km ps.

(** The [if context:] step of [classify] on a dictionary of scores. *)
Definition apply_context (path_scores : list (str * Q))
    (context : option Context) : list (str * Q) :=
  match context with
  | Some c =>
      if context_truthy c then _apply_context_boosts path_scores c
      else path_scores
  | None => path_scores
  end.

(** [path_scores] when [classify] looks for the best match. *)
Definition scores_after_boosts (lower : str -> str) (content : str)
    (context : option Context) : list (str * Q) :=
  apply_context (score_paths keyword_map (lower content)) context.

(** A path splits into its three levels and joins back. *)
Definition leaf_ok (p : str) : bool :=
  match split_path p with
  | Ok (M, m, d) => str_eqb (M ++ u "/" ++ m ++ u "/" ++ d) p
  | Raise _ => false
  end.

(** What [get_importance] finds for the prefix of a path: no table entry
    and the major base 6.0 for [knowledge/skill], a table entry within
    [0, 10] otherwise. *)
Definition importance_shape_ok (p : str) : bool :=
  match split_path p with
  | Ok (M, m, d) =>
      let prefix := M ++ u "/" ++ m in
      if str_eqb prefix (u "knowledge/skill") then
        match dict_get importance_map prefix, dict_get major_importance M with
        | None, Some b => Qeq_bool b 6.0
        | _, _ => false
        end
      else
        match dict_get importance_map prefix with
        | Some v => Qle_bool 3 v && Qle_bool v 9
        | None => false
        end
  | Raise _ => false
  end.

End ClassifierSpec.

(** ** [storage_strategy.py] *)

Module StorageStrategyModel.
Import PyStr Py.

(** [class StorageLocation(Enum)] *)
Inductive StorageLocation := DB | RAG | CACHE | ARCHIVE.

Definition StorageLocation_eqb (a b : StorageLocation) : bool :=
  match a, b with
  | DB, DB | RAG, RAG | CACHE, CACHE | ARCHIVE, ARCHIVE => true
  | _, _ => false
  end.

(** Python objects are referred to by address.  A [StorageStrategy] holds
    the address of its list of secondary locations, so two strategies can
    share one list and a strategy can be shared by several callers. *)
Definition addr := positive.

(** [@dataclass class StorageStrategy] *)
Record StorageStrategy := {
  primary_location : StorageLocation;
  secondary_locations : addr;
  includes_rag : bool;
  includes_embedding : bool;
  ttl_seconds : option Z;
  compression_enabled : bool;
  index_for_search : bool
}.

(** The heap: list objects and strategy objects. *)
Record Heap := {
  lists : gmap addr (list StorageLocation);
  objs : gmap addr StorageStrategy
}.

Definition empty_heap : Heap := {| lists := ∅; objs := ∅ |}.

(** Computations on the heap that may raise. *)
Definition M (A : Type) : Type := Heap -> result (A * Heap).

Definition ret {A} (a : A) : M A := fun h => Ok (a, h).

Definition bind {A B} (m : M A) (f : A -> M B) : M B :=
  fun h => match m h with
           | Ok (a, h') => f a h'
           | Raise e => Raise e
           end.

Definition raise {A} (e : exn) : M A := fun _ => Raise e.

Notation "x <- m ;; k" := (bind m (fun x => k))
  (at level 100, m at next level, right associativity).
Notation "m ;;; k" := (bind m (fun _ => k))
  (at level 100, right associativity).

(** Allocation picks an address the heap does not use. *)
Definition alloc_list (v : list StorageLocation) : M addr :=
  fun h =>
    let a := fresh (dom (lists h)) in
    Ok (a, {| lists := <[a := v]> (lists h); objs := objs h |}).

Definition alloc_obj (o : StorageStrategy) : M addr :=
  fun h =>
    let a := fresh (dom (objs h)) in
    Ok (a, {| lists := lists h; objs := <[a := o]> (objs h) |}).

Definition read_list (a : addr) : M (list StorageLocation) :=
  fun h => match lists h !! a with
           | Some v => Ok (v, h)
           | None => Raise KeyError
           end.

Definition write_list (a : addr) (v : list StorageLocation) : M unit :=
  fun h => Ok (tt, {| lists := <[a := v]> (lists h); objs := objs h |}).

Definition read_obj (a : addr) : M StorageStrategy :=
  fun h => match objs h !! a with
           | Some o => Ok (o, h)
           | None => Raise KeyError
           end.

Definition write_obj (a : addr) (o : StorageStrategy) : M unit :=
  fun h => Ok (tt, {| lists := lists h; objs := <[a := o]> (objs h) |}).

(** [StorageStrategy(primary_location=..., secondary_locations=[...], ...)]
    with a list display: the list is a new object. *)
Definition new_strategy (primary : StorageLocation)
    (secondary : list StorageLocation) (rag embedding : bool)
    (ttl : option Z) (compression index : bool) : M addr :=
  l <- alloc_list secondary ;;
  alloc_obj {| primary_location := primary; secondary_locations := l;
               includes_rag := rag; includes_embedding := embedding;
               ttl_seconds := ttl; compression_enabled := compression;
               index_for_search := index |}.

(** [self.strategies]: the five named strategies, by address. *)
Record StorageStrategyDeterminer := {
  high_value_frequent : addr;
  high_value_infrequent : addr;
  conversational : addr;
  temporary : addr;
  large_content : addr
}.

(** [StorageStrategyDeterminer.__init__] *)
Definition init : M StorageStrategyDeterminer :=
  s1 <- new_strategy DB [RAG; CACHE] true true None false true ;;
  s2 <- new_strategy DB [ARCHIVE] false true None true true ;;
  s3 <- new_strategy DB [] false true None false true ;;
  s4 <- new_strategy CACHE [] false false (Some 86400%Z) false false ;;
  s5 <- new_strategy DB [ARCHIVE] false true None true true ;;
  ret {| high_value_frequent := s1; high_value_infrequent := s2;
         conversational := s3; temporary := s4; large_content := s5 |}.

Section Determiner.
Variable self : StorageStrategyDeterminer.

(** [_get_default_strategy] *)
Definition _get_default_strategy (importance : Q) (content_size : Z)
  : M addr :=
  if Qgeb importance 8 then ret (high_value_frequent self)
  else if Qgeb importance 6 then
    if (content_size >? 1000)%Z then ret (large_content self)
    else ret (high_value_infrequent self)
  else if Qgeb importance 4 then ret (conversational self)
  else ret (temporary self).

(** [_determine_hierarchical_strategy].  A branch of the [if]/[elif]
    chain on [minor] that matches nothing falls out of the chain on
    [major] and reaches the default strategy. *)
Definition _determine_hierarchical_strategy (major minor detail : str)
    (importance : Q) (content_size : Z) : M addr :=
  if str_eqb major (u "personal") then
    if str_eqb minor (u "identity") then ret (high_value_frequent self)
    else if str_eqb minor (u "preference") then
      if Qgeb importance 7 then ret (high_value_frequent self)
      else ret (high_value_infrequent self)
    else if str_eqb minor (u "profession") then
      ret (high_value_frequent self)
    else _get_default_strategy importance content_size
  else if str_eqb major (u "knowledge") then
    if str_eqb minor (u "skill") then ret (high_value_frequent self)
    else if str_eqb minor (u "experience") then
      if (content_size >? 1000)%Z then ret (large_content self)
      else ret (conversational self)
    else if str_eqb minor (u "fact") then
      if Qgeb importance 8 then ret (high_value_infrequent self)
      else new_strategy DB [] false true None false true
    else _get_default_strategy importance content_size
  else if str_eqb major (u "temporal") then
    if str_eqb minor (u "conversation") then ret (conversational self)
    else if str_eqb minor (u "context") then ret (temporary self)
    else _get_default_strategy importance content_size
  else _get_default_strategy importance content_size.

(** [_determine_flat_strategy] *)
Definition _determine_flat_strategy (memory_type : str) (importance : Q)
    (content_size : Z) (access_pattern : option str) : M addr :=
  if str_eqb memory_type (u "conversation") then ret (conversational self)
  else if str_eqb memory_type (u "identity") then
    ret (high_value_frequent self)
  else if str_eqb memory_type (u "preference") then
    ret (high_value_frequent self)
  else if str_eqb memory_type (u "experience") then
    if (content_size >? 1000)%Z then ret (large_content self)
    else ret (conversational self)
  else if str_eqb memory_type (u "context") then ret (temporary self)
  else _get_default_strategy importance content_size.

(** [determine_strategy]; unpacking [memory_type.split("/")] into three
    names raises [ValueError] unless there are exactly three parts. *)
Definition determine_strategy (memory_type : str) (importance : Q)
    (content_size : Z) (access_pattern : option str) : M addr :=
  if contains (u "/") memory_type then
    match split_on 47%N memory_type with
    | [major; minor; detail] =>
        _determine_hierarchical_strategy major minor detail
                                         importance content_size
    | _ => raise ValueError
    end
  else _determine_flat_strategy memory_type importance content_size
                                access_pattern.

End Determiner.

(** [access_stats]: the three keys [optimize_strategy] reads with
    [dict.get] and a default. *)
Record AccessStats := {
  daily_access_count : option Q;
  days_since_last_access : option Q;
  search_hit_rate : option Q
}.

Definition get_default (o : option Q) (d : Q) : Q :=
  match o with Some v => v | None => d end.

(** [x in l] for locations. *)
Definition loc_in (x : StorageLocation) (l : list StorageLocation) : bool :=
  existsb (StorageLocation_eqb x) l.

(** [l.remove(x)]: the first occurrence goes. *)
Fixpoint loc_remove (x : StorageLocation) (l : list StorageLocation)
  : list StorageLocation :=
  match l with
  | [] => []
  | y :: l' => if StorageLocation_eqb y x then l' else y :: loc_remove x l'
  end.

(** [optimized.secondary_locations.append(x)] *)
Definition append_secondary (optimized : addr) (x : StorageLocation)
  : M unit :=
  o <- read_obj optimized ;;
  l <- read_list (secondary_locations o) ;;
  write_list (secondary_locations o) (l ++ [x]).

(** [optimized.secondary_locations.remove(x)] *)
Definition remove_secondary (optimized : addr) (x : StorageLocation)
  : M unit :=
  o <- read_obj optimized ;;
  l <- read_list (secondary_locations o) ;;
  write_list (secondary_locations o) (loc_remove x l).

(** [x in optimized.secondary_locations] *)
Definition secondary_has (optimized : addr) (x : StorageLocation) : M bool :=
  o <- read_obj optimized ;;
  l <- read_list (secondary_locations o) ;;
  ret (loc_in x l).

Definition when (b : bool) (m : M unit) : M unit := if b then m else ret tt.

(** [optimize_strategy] *)
Definition optimize_strategy (current_strategy : addr)
    (access_stats : AccessStats) : M addr :=
  let access_frequency := get_default (daily_access_count access_stats) 0 in
  let last_accessed_days :=
    get_default (days_since_last_access access_stats) 0 in
  let search_hit_rate := get_default (search_hit_rate access_stats) 0.0 in
  (* Clone current strategy *)
  cur <- read_obj current_strategy ;;
  cur_list <- read_list (secondary_locations cur) ;;
  copy <- alloc_list cur_list ;;
  optimized <- alloc_obj
    {| primary_location := primary_location cur;
       secondary_locations := copy;
       includes_rag := includes_rag cur;
       includes_embedding := includes_embedding cur;
       ttl_seconds := ttl_seconds cur;
       compression_enabled := compression_enabled cur;
       index_for_search := index_for_search cur |} ;;
  (* Optimize based on access patterns *)
  (if Qgtb access_frequency 10 then
     has_cache <- secondary_has optimized CACHE ;;
     when (negb has_cache) (append_secondary optimized CACHE)
   else if Qgtb last_accessed_days 30 then
     has_archive <- secondary_has optimized ARCHIVE ;;
     when (negb has_archive) (append_secondary optimized ARCHIVE) ;;;
     has_cache <- secondary_has optimized CACHE ;;
     when has_cache (remove_secondary optimized CACHE) ;;;
     o <- read_obj optimized ;;
     write_obj optimized
       {| primary_location := primary_location o;
          secondary_locations := secondary_locations o;
          includes_rag := includes_rag o;
          includes_embedding := includes_embedding o;
          ttl_seconds := ttl_seconds o;
          compression_enabled := true;
          index_for_search := index_for_search o |}
   else ret tt) ;;;
  (* Optimize search indexing *)
  o <- read_obj optimized ;;
  (if Qltb search_hit_rate 0.1 && includes_rag o then
     write_obj optimized
       {| primary_location := primary_location o;
          secondary_locations := secondary_locations o;
          includes_rag := false;
          includes_embedding := includes_embedding o;
          ttl_seconds := ttl_seconds o;
          compression_enabled := compression_enabled o;
          index_for_search := index_for_search o |} ;;;
     has_rag <- secondary_has optimized RAG ;;
     when has_rag (remove_secondary optimized RAG)
   else ret tt) ;;;
  ret optimized.

(** The policy rows the specification lists by type prefix. *)
Definition listed_policy_row (major minor : str) : bool :=
  str_eqb major (u "personal")
    && (str_eqb minor (u "identity") || str_eqb minor (u "preference"))
  || str_eqb major (u "knowledge")
    && (str_eqb minor (u "skill") || str_eqb minor (u "experience"))
  || str_eqb major (u "temporal")
    && (str_eqb minor (u "conversation") || str_eqb minor (u "context")).

(** The prefixes [_determine_hierarchical_strategy] has a branch for. *)
Definition handled_prefix (major minor : str) : bool :=
  str_eqb major (u "personal")
    && (str_eqb minor (u "identity") || str_eqb minor (u "preference")
        || str_eqb minor (u "profession"))
  || str_eqb major (u "knowledge")
    && (str_eqb minor (u "skill") || str_eqb minor (u "experience")
        || str_eqb minor (u "fact"))
  || str_eqb major (u "temporal")
    && (str_eqb minor (u "conversation") || str_eqb minor (u "context")).

(** Reading a strategy and its list of secondary locations off the heap. *)
Definition view (h : Heap) (a : addr)
  : option (StorageStrategy * list StorageLocation) :=
  match objs h !! a with
  | Some o =>
      match lists h !! secondary_locations o with
      | Some l => Some (o, l)
      | None => None
      end
  | None => None
  end.

(** The strategy table as [__init__] fills it. *)
Definition strategy_is (h : Heap) (a : addr) (primary : StorageLocation)
    (secondary : list StorageLocation) (rag embedding : bool)
    (ttl : option Z) (compression index : bool) : Prop :=
  exists l,
    view h a = Some ({| primary_location := primary;
                        secondary_locations := l;
                        includes_rag := rag;
                        includes_embedding := embedding;
                        ttl_seconds := ttl;
                        compression_enabled := compression;
                        index_for_search := index |}, secondary).

Record table_as_built (self : StorageStrategyDeterminer) (h : Heap)
  : Prop := {
  tb_frequent :
    strategy_is h (high_value_frequent self)
                DB [RAG; CACHE] true true None false true;
  tb_infrequent :
    strategy_is h (high_value_infrequent self)
                DB [ARCHIVE] false true None true true;
  tb_conversational :
    strategy_is h (conversational self) DB [] false true None false true;
  tb_temporary :
    strategy_is h (temporary self)
                CACHE [] false false (Some 86400%Z) false false;
  tb_large :
    strategy_is h (large_content self)
                DB [ARCHIVE] false true None true true
}.

(** The heap [h'] during [optimize_strategy]: everything the caller's heap
    [h] held is as it was, and the clone at [opt] owns the list at [copy]
    and still has the four fields of [cur] that are never assigned. *)
Record frame_inv (h : Heap) (cur : StorageStrategy) (opt copy : addr)
    (h' : Heap) : Prop := {
  fi_lists : forall a, is_Some (lists h !! a) -> lists h' !! a = lists h !! a;
  fi_objs : forall a, is_Some (objs h !! a) -> objs h' !! a = objs h !! a;
  fi_fresh_list : lists h !! copy = None;
  fi_fresh_obj : objs h !! opt = None;
  fi_opt : exists o l,
      objs h' !! opt = Some o
      /\ secondary_locations o = copy
      /\ lists h' !! copy = Some l
      /\ primary_location o = primary_location cur
      /\ includes_embedding o = includes_embedding cur
      /\ ttl_seconds o = ttl_seconds cur
      /\ index_for_search o = index_for_search cur
}.

End StorageStrategyModel.

(** ** The vector store

    Modelled from the spec: the Vector KV service (section 6: tables with
    an embedding column of declared dimension, rows, indexes, and a raw
    [query(sql)] primitive for DDL and catalog queries).  The tools
    [db_execute_query] and [db_query] that the memory service calls are
    not among the sources; [exec] gives the statements the memory service
    sends their PostgreSQL meaning on an abstract database.  Identifiers
    and column definitions are taken to be valid SQL.  Every statement
    received is recorded in [trace]. *)

Module VectorStore.
Import PyStr Py.

Inductive SqlVal := SNull | SInt (z : Z) | SReal (q : Q) | SText (s : str).

Inductive IndexMethod :=
| Gin (column : str)
| Btree (columns : list (str * bool)) (* column, DESC *)
| Ivfflat (lists : Z)                 (* on embedding, vector_cosine_ops *)
| Hnsw (m ef_construction : Z).       (* on embedding, vector_cosine_ops *)

Record Index := {
  index_name : str;
  index_table : str;
  index_method : IndexMethod
}.

Record Row := {
  row_id : str;
  row_content : str;
  row_embedding : list Q;
  row_metadata : list (str * str);
  row_user_id : option str;
  row_memory_type : option str;
  row_importance : option Q
}.

Record Table := {
  embedding_dimension : option Z; (* of the column [embedding vector(d)] *)
  table_columns : list str;
  table_rows : list Row
}.

(** The statements the memory service sends. *)
Inductive Statement :=
| SelectEmbeddingColumn (table_name : str)
    (* SELECT ... FROM information_schema.columns
       WHERE table_name = %s AND column_name = 'embedding' *)
| SelectEmbeddingTypmod (table_name : str)
    (* SELECT pg_attribute.atttypmod FROM pg_attribute JOIN pg_class ...
       WHERE pg_class.relname = %s AND pg_attribute.attname = 'embedding' *)
| DropTableIfExistsCascade (table_name : str)
| CreateTable (table_name : str) (dimension : Z)
              (additional_columns : list (str * str))
| CreateIndex (name table_name : str) (method : IndexMethod)
| DropIndexIfExists (name : str)
| SelectTableStats (table_name : str)
| SelectTypeDistribution (table_name : str)
| SelectUserDistribution (table_name : str)
| SelectEmbeddingIndexes (table_name : str)
    (* SELECT ... FROM pg_indexes WHERE tablename = '...'
       AND indexdef LIKE '%embedding%' *)
| SetParameter (name : str) (value : Z)
| Analyze (table_name : str).

(** The dictionary [call_tool] returns: [success] and [rows], each row a
    list of named values. *)
Record Response := {
  success : bool;
  rows : list (list (str * SqlVal))
}.

Record Database := {
  tables : gmap (list N) Table;
  indexes : list Index;
  trace : list Statement
}.

Definition ok_rows (r : list (list (str * SqlVal))) : Response :=
  {| success := true; rows := r |}.
Definition failed : Response := {| success := false; rows := [] |}.

Definition base_columns : list str :=
  [u "id"; u "content"; u "embedding"; u "metadata"; u "created_at";
   u "updated_at"].

Definition has_column (t : Table) (c : str) : bool :=
  existsb (str_eqb c) (table_columns t).

(** Whether the text of the index definition contains [embedding]: it
    names the index, the table and the indexed columns. *)
Definition mentions_embedding (i : Index) : bool :=
  contains (u "embedding") (index_name i)
  || contains (u "embedding") (index_table i)
  || match index_method i with
     | Gin c => contains (u "embedding") c
     | Btree cols => existsb (fun '(c, _) => contains (u "embedding") c) cols
     | Ivfflat _ | Hnsw _ _ => true
     end.

(** A vector index: an ANN index on the embedding column. *)
Definition is_vector_method (m : IndexMethod) : bool :=
  match m with Ivfflat _ | Hnsw _ _ => true | _ => false end.

Definition method_columns_ok (t : Table) (m : IndexMethod) : bool :=
  match m with
  | Gin c => has_column t c
  | Btree cols => forallb (fun '(c, _) => has_column t c) cols
  | Ivfflat _ | Hnsw _ _ =>
      match embedding_dimension t with Some _ => true | None => false end
  end.

(** Aggregates *)

Definition utf8_len_cp (c : cp) : Z :=
  if (c <? 128)%N then 1 else if (c <? 2048)%N then 2
  else if (c <? 65536)%N then 3 else 4.

(** [octet_length(content::text)] *)
Definition octet_length (s : str) : Z :=
  fold_right (fun c acc => (utf8_len_cp c + acc)%Z) 0%Z s.

Definition opt_str_eqb (a b : option str) : bool :=
  match a, b with
  | Some x, Some y => str_eqb x y
  | None, None => true
  | _, _ => false
  end.

(** The distinct values of a column, in order of first appearance. *)
Fixpoint distinct (l : list (option str)) (seen : list (option str))
  : list (option str) :=
  match l with
  | [] => rev seen
  | x :: l' =>
      if existsb (opt_str_eqb x) seen then distinct l' seen
      else distinct l' (x :: seen)
  end.

Definition is_some {A} (o : option A) : bool :=
  match o with Some _ => true | None => false end.

(** [COUNT(DISTINCT c)]: NULLs are not counted. *)
Definition count_distinct (l : list (option str)) : Z :=
  Z.of_nat (length (filter is_some (distinct l []))).

Definition Qsum (l : list Q) : Q := fold_right Qplus 0%Q l.

(** [AVG], [MAX], [MIN] over the non-NULL values; NULL when there are
    none. *)
Definition somes {A} (l : list (option A)) : list A :=
  flat_map (fun o => match o with Some x => [x] | None => [] end) l.

Definition sql_avg (l : list Q) : SqlVal :=
  match l with
  | [] => SNull
  | _ => SReal (Qsum l / inject_Z (Z.of_nat (length l)))
  end.

Definition sql_max (l : list Q) : SqlVal :=
  match l with
  | [] => SNull
  | x :: l' => SReal (fold_left (fun m y => if Qlt_le_dec m y then y else m) l' x)
  end.

Definition sql_min (l : list Q) : SqlVal :=
  match l with
  | [] => SNull
  | x :: l' => SReal (fold_left (fun m y => if Qlt_le_dec y m then y else m) l' x)
  end.

(** [GROUP BY]: each distinct key with the rows that carry it. *)
Definition group_by (key : Row -> option str) (rs : list Row)
  : list (option str * list Row) :=
  map (fun k => (k, filter (fun r => opt_str_eqb (key r) k) rs))
      (distinct (map key rs) []).

(** [ORDER BY count DESC], by insertion; the order among equal counts is
    the one of first appearance. *)
Fixpoint insert_desc {A} (x : Z * A) (l : list (Z * A)) : list (Z * A) :=
  match l with
  | [] => [x]
  | y :: l' => if (fst y <? fst x)%Z then x :: y :: l'
               else y :: insert_desc x l'
  end.

Definition sort_desc {A} (l : list (Z * A)) : list (Z * A) :=
  fold_left (fun acc x => insert_desc x acc) l [].

Definition sql_opt_text (o : option str) : SqlVal :=
  match o with Some s => SText s | None => SNull end.

(** The rows of the statistics queries of [_get_table_stats]. *)
Definition stats_row (t : Table) : list (str * SqlVal) :=
  let rs := table_rows t in
  let imps := somes (map row_importance rs) in
  [ (u "total_rows", SInt (Z.of_nat (length rs)));
    (u "unique_users", SInt (count_distinct (map row_user_id rs)));
    (u "unique_types", SInt (count_distinct (map row_memory_type rs)));
    (u "avg_content_size",
       sql_avg (map (fun r => inject_Z (octet_length (row_content r))) rs));
    (u "max_importance", sql_max imps);
    (u "min_importance", sql_min imps);
    (u "avg_importance", sql_avg imps) ].

Definition type_distribution_rows (t : Table) : list (list (str * SqlVal)) :=
  map (fun '(n, (k, rs)) =>
         [ (u "memory_type", sql_opt_text k);
           (u "count", SInt n);
           (u "avg_importance", sql_avg (somes (map row_importance rs))) ])
      (sort_desc
         (map (fun '(k, rs) => (Z.of_nat (length rs), (k, rs)))
              (group_by row_memory_type (table_rows t)))).

(** [CASE WHEN memory_count < 10 THEN 'light' ...] *)
Definition user_type (memory_count : Z) : str :=
  if (memory_count <? 10)%Z then u "light"
  else if (memory_count <? 100)%Z then u "medium"
  else if (memory_count <? 1000)%Z then u "heavy"
  else u "power".

Definition user_distribution_rows (t : Table) : list (list (str * SqlVal)) :=
  let per_user :=
    map (fun '(_, rs) => user_type (Z.of_nat (length rs)))
        (group_by row_user_id (table_rows t)) in
  flat_map (fun ty =>
              let n := length (filter (str_eqb ty) per_user) in
              match n with
              | O => []
              | _ => [[ (u "user_count", SInt (Z.of_nat n));
                        (u "user_type", SText ty) ]]
              end)
           [u "light"; u "medium"; u "heavy"; u "power"].

Definition index_row (i : Index) : list (str * SqlVal) :=
  [ (u "indexname", SText (index_name i)) ].

Section Exec.
(** The [atttypmod] the catalog reports for a column [vector(d)]. *)
Variable typmod_of_dimension : Z -> Z.

Definition record (db : Database) (st : Statement) : Database :=
  {| tables := tables db; indexes := indexes db;
     trace := trace db ++ [st] |}.

(** The answer to a statement and its effect on tables and indexes. *)
Definition run (db : Database) (st : Statement) : Response * Database :=
  match st with
  | SelectEmbeddingColumn t =>
      match tables db !! t with
      | Some tb =>
          match embedding_dimension tb with
          | Some _ => (ok_rows [[ (u "column_name", SText (u "embedding")) ]],
                       db)
          | None => (ok_rows [], db)
          end
      | None => (ok_rows [], db)
      end
  | SelectEmbeddingTypmod t =>
      match tables db !! t with
      | Some tb =>
          match embedding_dimension tb with
          | Some d =>
              (ok_rows [[ (u "atttypmod", SInt (typmod_of_dimension d)) ]],
               db)
          | None => (ok_rows [], db)
          end
      | None => (ok_rows [], db)
      end
  | DropTableIfExistsCascade t =>
      (ok_rows [],
       {| tables := delete t (tables db);
          indexes := filter (fun i => negb (str_eqb (index_table i) t))
                            (indexes db);
          trace := trace db |})
  | CreateTable t d cols =>
      match tables db !! t with
      | Some _ => (failed, db)
      | None =>
          if (1 <=? d)%Z then
            (ok_rows [],
             {| tables :=
                  <[t := {| embedding_dimension := Some d;
                            table_columns := base_columns ++ map fst cols;
                            table_rows := [] |}]> (tables db);
                indexes := indexes db;
                trace := trace db |})
          else (failed, db)
      end
  | CreateIndex name t m =>
      match tables db !! t with
      | Some tb =>
          if existsb (fun i => str_eqb (index_name i) name) (indexes db)
          then (failed, db)
          else if method_columns_ok tb m then
            (ok_rows [],
             {| tables := tables db;
                indexes := indexes db
                           ++ [{| index_name := name; index_table := t;
                                  index_method := m |}];
                trace := trace db |})
          else (failed, db)
      | None => (failed, db)
      end
  | DropIndexIfExists name =>
      (ok_rows [],
       {| tables := tables db;
          indexes := filter (fun i => negb (str_eqb (index_name i) name))
                            (indexes db);
          trace := trace db |})
  | SelectTableStats t =>
      match tables db !! t with
      | Some tb =>
          if has_column tb (u "user_id") && has_column tb (u "memory_type")
             && has_column tb (u "importance")
          then (ok_rows [stats_row tb], db)
          else (failed, db)
      | None => (failed, db)
      end
  | SelectTypeDistribution t =>
      match tables db !! t with
      | Some tb =>
          if has_column tb (u "memory_type") && has_column tb (u "importance")
          then (ok_rows (type_distribution_rows tb), db)
          else (failed, db)
      | None => (failed, db)
      end
  | SelectUserDistribution t =>
      match tables db !! t with
      | Some tb =>
          if has_column tb (u "user_id")
          then (ok_rows (user_distribution_rows tb), db)
          else (failed, db)
      | None => (failed, db)
      end
  | SelectEmbeddingIndexes t =>
      (ok_rows (map index_row
                    (filter (fun i => str_eqb (index_table i) t
                                      && mentions_embedding i)
                            (indexes db))),
       db)
  | SetParameter _ _ => (ok_rows [], db)
  | Analyze t =>
      match tables db !! t with
      | Some _ => (ok_rows [], db)
      | None => (failed, db)
      end
  end.

(** [await db_client.call_tool("db_execute_query" | "db_query", ...)].
    [call_tool] catches every exception and returns a dictionary, so the
    callers' own handlers around it never run. *)
Definition call_tool (db : Database) (st : Statement) : Response * Database :=
  run (record db st) st.

End Exec.

End VectorStore.

(** ** [vector_index_optimizer.py] *)

Module VectorIndexOptimizer.
Import PyStr Py VectorStore.

(** The dictionary [_get_table_stats] returns on success.  The key
    [user_distribution] is read with [stats.get(..., {})], so it may be
    absent. *)
Record TableStats := {
  row_count : Z;
  unique_users : Z;
  unique_types : Z;
  avg_content_size : Q;
  importance_stats : Q * Q * Q; (* min, max, avg *)
  type_distribution : list (SqlVal * (SqlVal * SqlVal));
  user_distribution : option (list (str * Z));
  current_indexes : list (list (str * SqlVal))
}.

(** The strategy dictionary, by its [type]; the texts [reason] and
    [details] are left out. *)
Inductive Strategy :=
| StrategyNone
| IvfflatBasic (lists probes : Z)
| IvfflatOptimized (lists probes : Z) (user_optimized : bool)
| PartitionedIvfflat (lists_per_partition probes : Z)
| HnswStrategy (m ef_construction ef_search : Z).

(** The result dictionary of [optimize_memory_index]. *)
Record OptimizeResult := {
  optimized : bool;
  strategy : option Strategy
}.

Definition row_val (row : list (str * SqlVal)) (k : str) : option SqlVal :=
  dict_get row k.

(** [int(row[k])] *)
Definition row_int (row : list (str * SqlVal)) (k : str) : option Z :=
  match row_val row k with
  | Some (SInt z) => Some z
  | _ => None
  end.

(** [float(row[k] or 0)] *)
Definition row_float_or_0 (row : list (str * SqlVal)) (k : str) : option Q :=
  match row_val row k with
  | Some (SReal q) => Some q
  | Some (SInt z) => Some (inject_Z z)
  | Some SNull => Some 0%Q
  | _ => None
  end.

Definition row_text (row : list (str * SqlVal)) (k : str) : option str :=
  match row_val row k with
  | Some (SText s) => Some s
  | _ => None
  end.

(** [x / y] on integers, as a float. *)
Definition true_div (x y : Z) : Q := (inject_Z x / inject_Z y)%Q.

(** [int(x / y)]: truncation toward zero. *)
Definition int_div (x y : Z) : Z := Z.quot x y.

(** [sum(d.values())] *)
Definition sum_values (d : list (str * Z)) : Z :=
  fold_right (fun '(_, v) acc => (v + acc)%Z) 0%Z d.

Definition get_or (d : list (str * Z)) (k : str) (default : Z) : Z :=
  match dict_get d k with Some v => v | None => default end.

(** The [power_user_ratio] of [_determine_index_strategy]. *)
Definition power_user_ratio (stats : TableStats) : Q :=
  let user_dist :=
    match user_distribution stats with Some d => d | None => [] end in
  let power_users :=
    (get_or user_dist (u "power") 0 + get_or user_dist (u "heavy") 0)%Z in
  let total_users :=
    match user_dist with
    | [] => unique_users stats
    | _ => sum_values user_dist
    end in
  if (total_users >? 0)%Z then true_div power_users total_users else 0%Q.

(** [_determine_index_strategy] *)
Definition _determine_index_strategy (stats : TableStats) : Strategy :=
  let row_count := row_count stats in
  let unique_users := unique_users stats in
  let power_user_ratio := power_user_ratio stats in
  if (row_count <? 1000)%Z then StrategyNone
  else if (row_count <? 10000)%Z then
    let lists := Z.max (int_div row_count 100) 10 in
    IvfflatBasic lists 5
  else if (row_count <? 100000)%Z then
    if Qgtb power_user_ratio 0.2 then
      IvfflatOptimized (Z.max (int_div row_count 500) 50) 20
                       (Qgtb power_user_ratio 0.2)
    else
      IvfflatOptimized (Z.max (int_div row_count 1000) 30) 10
                       (Qgtb power_user_ratio 0.2)
  else
    if (unique_users <? 1000)%Z then PartitionedIvfflat 100 15
    else
      let m := if (row_count <? 500000)%Z then 16%Z else 32%Z in
      let ef_construction :=
        if (row_count <? 500000)%Z then 200%Z else 400%Z in
      HnswStrategy m ef_construction 100.

(** The statements [_apply_index_strategy] sends for a strategy, in
    order. *)
Definition index_name_of (table_name : str) : str :=
  u "idx_" ++ table_name ++ u "_embedding_optimized".

Definition strategy_statements (table_name : str) (strategy : Strategy)
  : list Statement :=
  let index_name := index_name_of table_name in
  match strategy with
  | StrategyNone => []
  | IvfflatBasic lists probes =>
      [ CreateIndex index_name table_name (Ivfflat lists);
        SetParameter (u "ivfflat.probes") probes;
        Analyze table_name ]
  | IvfflatOptimized lists probes user_optimized =>
      [ CreateIndex index_name table_name (Ivfflat lists);
        SetParameter (u "ivfflat.probes") probes ]
      ++ (if user_optimized
          then [ CreateIndex (u "idx_" ++ table_name ++ u "_user_importance")
                             table_name
                             (Btree [ (u "user_id", false);
                                      (u "importance", true) ]) ]
          else [])
      ++ [ Analyze table_name ]
  | HnswStrategy m ef_construction ef_search =>
      [ CreateIndex index_name table_name (Hnsw m ef_construction);
        SetParameter (u "hnsw.ef_search") ef_search;
        Analyze table_name ]
  | PartitionedIvfflat lists_per_partition probes =>
      [ CreateIndex index_name table_name
                    (Ivfflat (lists_per_partition * 10));
        CreateIndex (u "idx_" ++ table_name ++ u "_user_embedding")
                    table_name
                    (Btree [ (u "user_id", false); (u "embedding", false) ]);
        Analyze table_name ]
  end.

Definition is_none_strategy (s : Strategy) : bool :=
  match s with StrategyNone => true | _ => false end.

Definition nonempty {A} (l : list A) : bool :=
  match l with [] => false | _ => true end.

Section Optimizer.
Variable typmod_of_dimension : Z -> Z.
Local Abbreviation call_tool := (VectorStore.call_tool typmod_of_dimension).

(** Send statements one after another, ignoring the answers. *)
Definition send_all (db : Database) (sts : list Statement) : Database :=
  fold_left (fun db st => snd (call_tool db st)) sts db.

(** [_get_table_stats]; [None] is the dictionary [{"success": False}]. *)
Definition _get_table_stats (db : Database) (table_name : str)
  : option TableStats * Database :=
  let '(count_result, db) := call_tool db (SelectTableStats table_name) in
  if negb (success count_result) || negb (nonempty (rows count_result))
  then (None, db)
  else
    let stats := match rows count_result with r :: _ => r | [] => [] end in
    let '(type_dist_result, db) :=
      call_tool db (SelectTypeDistribution table_name) in
    let type_distribution :=
      if success type_dist_result then
        flat_map (fun row =>
                    match row_val row (u "memory_type"),
                          row_val row (u "count"),
                          row_val row (u "avg_importance") with
                    | Some t, Some c, Some a => [(t, (c, a))]
                    | _, _, _ => []
                    end)
                 (rows type_dist_result)
      else [] in
    let '(user_dist_result, db) :=
      call_tool db (SelectUserDistribution table_name) in
    let user_distribution :=
      if success user_dist_result then
        fold_left (fun d row =>
                     match row_text row (u "user_type"),
                           row_int row (u "user_count") with
                     | Some t, Some c => dict_set d t c
                     | _, _ => d
                     end)
                  (rows user_dist_result) []
      else [] in
    let '(index_result, db) :=
      call_tool db (SelectEmbeddingIndexes table_name) in
    let current_indexes :=
      if success index_result then rows index_result else [] in
    match row_int stats (u "total_rows"),
          row_int stats (u "unique_users"),
          row_int stats (u "unique_types"),
          row_float_or_0 stats (u "avg_content_size"),
          row_float_or_0 stats (u "min_importance"),
          row_float_or_0 stats (u "max_importance"),
          row_float_or_0 stats (u "avg_importance") with
    | Some n, Some uu, Some ut, Some sz, Some mn, Some mx, Some av =>
        (Some {| row_count := n; unique_users := uu; unique_types := ut;
                 avg_content_size := sz;
                 importance_stats := (mn, mx, av);
                 type_distribution := type_distribution;
                 user_distribution := Some user_distribution;
                 current_indexes := current_indexes |}, db)
    | _, _, _, _, _, _, _ => (None, db)
    end.

(** [_apply_index_strategy].  The handler of the HNSW branch, which would
    fall back to IVFFlat, guards a [call_tool] and so never runs. *)
Definition _apply_index_strategy (db : Database) (table_name : str)
    (strategy : Strategy) (stats : TableStats) : OptimizeResult * Database :=
  let db :=
    if negb (is_none_strategy strategy) || nonempty (current_indexes stats)
    then snd (call_tool db (DropIndexIfExists (index_name_of table_name)))
    else db in
  let db := send_all db (strategy_statements table_name strategy) in
  ({| optimized := true; strategy := Some strategy |}, db).

(** The optimizer object: [self._last_optimization], table name to the
    time of the last optimization in seconds. *)
Record Optimizer := { _last_optimization : list (str * Z) }.

Definition new_optimizer : Optimizer := {| _last_optimization := [] |}.

(** [_should_optimize]; [now] is [datetime.utcnow()] in seconds. *)
Definition _should_optimize (self : Optimizer) (now : Z) (db : Database)
    (table_name : str) : bool * Database :=
  let recently :=
    match dict_get (_last_optimization self) table_name with
    | Some last_opt => Qltb (inject_Z (now - last_opt) / 3600) 24
    | None => false
    end in
  if recently then (false, db)
  else
    let '(stats, db) := _get_table_stats db table_name in
    let n := match stats with Some s => row_count s | None => 0%Z end in
    if (n <? 100)%Z then (false, db) else (true, db).

(** [optimize_memory_index] *)
Definition optimize_memory_index (self : Optimizer) (now : Z)
    (db : Database) (table_name : str) (force : bool)
  : OptimizeResult * Optimizer * Database :=
  let '(skip, db) :=
    if force then (false, db)
    else let '(should, db) := _should_optimize self now db table_name in
         (negb should, db) in
  if skip then ({| optimized := false; strategy := None |}, self, db)
  else
    let '(stats, db) := _get_table_stats db table_name in
    match stats with
    | None => ({| optimized := false; strategy := None |}, self, db)
    | Some stats =>
        let strategy := _determine_index_strategy stats in
        let '(result, db) :=
          _apply_index_strategy db table_name strategy stats in
        (result,
         {| _last_optimization :=
              dict_set (_last_optimization self) table_name now |},
         db)
    end.

End Optimizer.

(** *** The strategy table as the specification words it *)

(** Users in a bucket of the distribution. *)
Definition bucket (stats : TableStats) (name : str) : Z :=
  match user_distribution stats with
  | Some d => get_or d name 0
  | None => 0%Z
  end.

(** The users the distribution counts: the sum of its buckets, or the
    number of unique users when the distribution is empty or absent. *)
Definition counted_users (stats : TableStats) : Z :=
  match user_distribution stats with
  | Some (e :: d) => sum_values (e :: d)
  | _ => unique_users stats
  end.

(** The share of users with at least 1000 memories (bucket [power]). *)
Definition ratio_of_power_users (stats : TableStats) : Q :=
  if (counted_users stats >? 0)%Z
  then (inject_Z (bucket stats (u "power"))
        / inject_Z (counted_users stats))%Q
  else 0%Q.

(** The share of users with at least 100 memories (buckets [heavy] and
    [power]). *)
Definition ratio_of_heavy_and_power_users (stats : TableStats) : Q :=
  if (counted_users stats >? 0)%Z
  then (inject_Z (bucket stats (u "heavy") + bucket stats (u "power"))
        / inject_Z (counted_users stats))%Q
  else 0%Q.

(** The table of section 4.5, for a given ratio. *)
Definition strategy_table (ratio : Q) (N U : Z) : Strategy :=
  if (N <? 1000)%Z then StrategyNone
  else if (N <? 10000)%Z then IvfflatBasic (Z.max (N / 100) 10) 5
  else if (N <? 100000)%Z then
    if Qgtb ratio 0.2 then IvfflatOptimized (Z.max (N / 500) 50) 20 true
    else IvfflatOptimized (Z.max (N / 1000) 30) 10 false
  else if (U <? 1000)%Z then PartitionedIvfflat 100 15
  else if (N <? 500000)%Z then HnswStrategy 16 200 100
  else HnswStrategy 32 400 100.

(** The [lists] of the vector index a list of statements creates. *)
Definition created_vector_lists (sts : list Statement) : list Z :=
  flat_map (fun st => match st with
                      | CreateIndex _ _ (Ivfflat l) => [l]
                      | _ => []
                      end) sts.

(** Whether the statements create the composite index on
    [(user_id, importance DESC)]. *)
Definition creates_user_importance_index (sts : list Statement) : bool :=
  existsb (fun st =>
             match st with
             | CreateIndex _ _ (Btree [(c1, false); (c2, true)]) =>
                 str_eqb c1 (u "user_id") && str_eqb c2 (u "importance")
             | _ => false
             end) sts.

(** Statistics of a table of 50000 rows: 50 users with 999 memories each
    (bucket heavy) and 50 users with one (bucket light). *)
Definition stats_heavy_users : TableStats :=
  {| row_count := 50000; unique_users := 100; unique_types := 3;
     avg_content_size := 40; importance_stats := (3, 9, 5)%Q;
     type_distribution := [];
     user_distribution := Some [ (u "light", 50%Z); (u "heavy", 50%Z) ];
     current_indexes := [] |}.

End VectorIndexOptimizer.

(** ** [embedding_utils.py] and the retrieval tool that calls it *)

Module EmbeddingUtils.
Import PyStr Py VectorStore VectorIndexOptimizer.

(** [_model_dimensions_cache] as the module is loaded. *)
Definition initial_dimensions_cache : list (str * Z) :=
  [ (u "bge-m3", 1024%Z);
    (u "text-embedding-ada-002", 1536%Z);
    (u "text-embedding-3-small", 1536%Z);
    (u "text-embedding-3-large", 3072%Z) ].

(** [current_dim = rows[0][0] - 4 if rows[0][0] else None]: the first
    value of the first row; zero and NULL are false. *)
Definition current_dim_of (rows : list (list (str * SqlVal))) : option Z :=
  match rows with
  | ((_, SInt v) :: _) :: _ => if (v =? 0)%Z then None else Some (v - 4)%Z
  | _ => None
  end.

(** [current_dim != dimension] *)
Definition dim_differs (current_dim : option Z) (dimension : Z) : bool :=
  match current_dim with
  | Some c => negb (c =? dimension)%Z
  | None => true
  end.

(** [basic_indexes] for a dictionary of additional columns. *)
Definition basic_indexes (table_name : str)
    (additional_columns : list (str * str)) : list Statement :=
  [ CreateIndex (u "idx_" ++ table_name ++ u "_metadata") table_name
                (Gin (u "metadata"));
    CreateIndex (u "idx_" ++ table_name ++ u "_created_at") table_name
                (Btree [ (u "created_at", true) ]) ]
  ++ (if dict_mem additional_columns (u "user_id")
      then [ CreateIndex (u "idx_" ++ table_name ++ u "_user_id") table_name
                         (Btree [ (u "user_id", false) ]) ]
      else []).

(** The fallback vector index of [ensure_table_with_dimension]. *)
Definition fallback_vector_index (table_name : str) : Statement :=
  CreateIndex (u "idx_" ++ table_name ++ u "_embedding") table_name
              (Ivfflat 100).

Section Provisioning.
Variable typmod_of_dimension : Z -> Z.
Local Abbreviation call_tool := (VectorStore.call_tool typmod_of_dimension).

(** The check at the head of [ensure_table_with_dimension]: whether the
    table has to be re-created. *)
Definition needs_recreation (db : Database) (table_name : str)
    (dimension : Z) : bool * Database :=
  let '(check_result, db) := call_tool db (SelectEmbeddingColumn table_name) in
  if success check_result && nonempty (rows check_result) then
    let '(dim_check, db) := call_tool db (SelectEmbeddingTypmod table_name) in
    if success dim_check && nonempty (rows dim_check) then
      (dim_differs (current_dim_of (rows dim_check)) dimension, db)
    else (false, db)
  else (true, db).

(** [ensure_table_with_dimension]; [now] is the clock the optimizer
    reads.  With [additional_columns=None] the test
    ["user_id" in additional_columns] raises [TypeError], which the
    function's handler turns into [False]. *)
Definition ensure_table_with_dimension (now : Z) (db : Database)
    (table_name : str) (dimension : Z)
    (additional_columns : option (list (str * str))) : bool * Database :=
  let '(recreate, db) := needs_recreation db table_name dimension in
  if recreate then
    let columns :=
      match additional_columns with Some cols => cols | None => [] end in
    let '(_, db) := call_tool db (DropTableIfExistsCascade table_name) in
    let '(create_result, db) :=
      call_tool db (CreateTable table_name dimension columns) in
    if success create_result then
      match additional_columns with
      | None => (false, db)
      | Some cols =>
          let db :=
            send_all typmod_of_dimension db (basic_indexes table_name cols) in
          let '(optimize_result, _, db) :=
            optimize_memory_index typmod_of_dimension new_optimizer now db
                                  table_name true in
          let db :=
            if optimized optimize_result then db
            else snd (call_tool db (fallback_vector_index table_name)) in
          (true, db)
      end
    else (false, db)
  else (true, db).

End Provisioning.

(** *** Retrieval: [search_user_memories] of
    [tools/tool_memory_orchestrator_sse.py] and [db_search_vectors] of
    [mcp-db/tools/tool_db_core.py] *)

Record SearchHit := {
  hit_id : str;
  hit_content : str;
  hit_metadata : list (str * str);
  hit_similarity : Q
}.

(** The dictionary [db_search_vectors] returns; [results] is absent on
    failure. *)
Record SearchResponse := {
  search_success : bool;
  results : option (list SearchHit)
}.

(** The JSON object [search_user_memories] returns. *)
Record MemoriesResponse := {
  memories_success : bool;
  memories : list SearchHit;
  count : nat;
  memories_error : option str
}.

Fixpoint insert_hit (x : SearchHit) (l : list SearchHit) : list SearchHit :=
  match l with
  | [] => [x]
  | y :: l' =>
      if Qltb (hit_similarity y) (hit_similarity x) then x :: y :: l'
      else y :: insert_hit x l'
  end.

(** [ORDER BY embedding <=> $1]: by descending similarity. *)
Definition order_hits (l : list SearchHit) : list SearchHit :=
  fold_left (fun acc x => insert_hit x acc) l [].

Section Retrieval.
Variable typmod_of_dimension : Z -> Z.
(** [1 - (embedding <=> $1)] of the store. *)
Variable similarity : list Q -> list Q -> Q.
(** The embedding service: the [embedding] of the answer to
    [rag_generate_embedding(text, model)], [None] when the call fails. *)
Variable rag_generate_embedding : str -> str -> option (list Q).

(** [db_search_vectors]: fails on an empty query vector, a missing table
    and a row whose vector has another length than the query's. *)
Definition db_search_vectors (db : Database) (table : str)
    (query_vector : list Q) (limit : Z) (similarity_threshold : Q)
    (filters : list (str * str)) : SearchResponse :=
  match query_vector with
  | [] => {| search_success := false; results := None |}
  | _ =>
      match tables db !! table with
      | None => {| search_success := false; results := None |}
      | Some tb =>
          if forallb (fun r => (length (row_embedding r)
                                =? length query_vector)%nat)
                     (table_rows tb) && (0 <=? limit)%Z
          then
            let keep r :=
              (if Qgtb similarity_threshold 0
               then Qgeb (similarity (row_embedding r) query_vector)
                         similarity_threshold
               else true)
              && forallb (fun '(k, v) =>
                            match dict_get (row_metadata r) k with
                            | Some w => str_eqb w v
                            | None => false
                            end) filters in
            let hits :=
              map (fun r =>
                     {| hit_id := row_id r; hit_content := row_content r;
                        hit_metadata := row_metadata r;
                        hit_similarity :=
                          similarity (row_embedding r) query_vector |})
                  (filter keep (table_rows tb)) in
            {| search_success := true;
               results := Some (firstn (Z.to_nat limit) (order_hits hits)) |}
          else {| search_success := false; results := None |}
      end
  end.

(** [get_embedding_dimension]; returns the dimension and the cache. *)
Definition get_embedding_dimension (cache : list (str * Z))
    (model_name : str) : Z * list (str * Z) :=
  match dict_get cache model_name with
  | Some d => (d, cache)
  | None =>
      match rag_generate_embedding (u "test") model_name with
      | Some (x :: e) =>
          let dimension := Z.of_nat (length (x :: e)) in
          (dimension, dict_set cache model_name dimension)
      | _ => (1024%Z, cache)
      end
  end.

(** [get_embedding_from_rag] *)
Definition get_embedding_from_rag (text model : str)
  : option (list Q) * Z :=
  match rag_generate_embedding text model with
  | Some (x :: e) => (Some (x :: e), Z.of_nat (length (x :: e)))
  | _ => (None, 0%Z)
  end.

(** The [additional_columns] of the retrieval path. *)
Definition user_memories_columns : list (str * str) :=
  [ (u "user_id", u "TEXT NOT NULL");
    (u "session_id", u "TEXT");
    (u "memory_type", u "TEXT") ].

(** [search_user_memories] without a [memory_types] filter; the state is
    the dimension cache and the database. *)
Definition search_user_memories (now : Z) (embedding_model : str)
    (cache : list (str * Z)) (db : Database)
    (user_id query : str) (session_id : option str) (limit : Z)
  : MemoriesResponse * list (str * Z) * Database :=
  let '(dimension, cache) := get_embedding_dimension cache embedding_model in
  let '(table_created, db) :=
    ensure_table_with_dimension typmod_of_dimension now db
      (u "user_memories") dimension (Some user_memories_columns) in
  let '(query_vector, actual_dimension) :=
    get_embedding_from_rag query embedding_model in
  match query_vector with
  | None =>
      ({| memories_success := false; memories := []; count := 0;
          memories_error := Some (u "Failed to generate embedding") |},
       cache, db)
  | Some qv =>
      let filters :=
        [ (u "user_id", user_id) ]
        ++ match session_id with
           | Some s => match s with [] => [] | _ => [ (u "session_id", s) ] end
           | None => []
           end in
      let search_response :=
        db_search_vectors db (u "user_memories") qv limit 0.5 filters in
      let memories :=
        match results search_response with Some r => r | None => [] end in
      ({| memories_success := true; memories := memories;
          count := length memories; memories_error := None |},
       cache, db)
  end.

End Retrieval.

(** *** Reading the trace *)

(** The statement creates a vector index. *)
Definition creates_vector_index (st : Statement) : bool :=
  match st with
  | CreateIndex _ _ m => is_vector_method m
  | _ => false
  end.

(** The table is present with an embedding column of declared dimension
    [d]. *)
Definition declared_dimension (db : Database) (table_name : str)
  : option Z :=
  match tables db !! table_name with
  | Some tb => embedding_dimension tb
  | None => None
  end.

(** The statement leaves the set of tables and their rows alone. *)
Definition keeps_tables (st : Statement) : bool :=
  match st with
  | DropTableIfExistsCascade _ | CreateTable _ _ _ => false
  | _ => true
  end.

(** [db'] is [db] after more statements, none of which touched a table. *)
Definition quiet (db db' : Database) : Prop :=
  tables db' = tables db /\ exists sts, trace db' = trace db ++ sts.

(** The table [ensure_table_with_dimension] creates. *)
Definition fresh_table (dimension : Z) (cols : list (str * str)) : Table :=
  {| embedding_dimension := Some dimension;
     table_columns := base_columns ++ map fst cols;
     table_rows := [] |}.

(** *** A database for the worked examples: the table [user_memories]
    declared with dimension 2, holding one memory, with a vector index. *)

Definition example_row : Row :=
  {| row_id := u "m1"; row_content := u "hello";
     row_embedding := [1%Q; 0%Q];
     row_metadata := [ (u "user_id", u "u1") ];
     row_user_id := Some (u "u1"); row_memory_type := None;
     row_importance := None |}.

Definition example_db : Database :=
  {| tables :=
       <[ u "user_memories" :=
            {| embedding_dimension := Some 2%Z;
               table_columns := base_columns ++ map fst user_memories_columns;
               table_rows := [example_row] |} ]> ∅;
     indexes :=
       [ {| index_name := u "idx_user_memories_embedding";
            index_table := u "user_memories";
            index_method := Ivfflat 100 |} ];
     trace := [] |}.

(** The catalog convention of the code, a constant similarity and an
    embedding service of dimension 3. *)
Definition typmod_plus_4 (d : Z) : Z := (d + 4)%Z.
Definition example_similarity (a b : list Q) : Q := 1%Q.
Definition example_embedding (text model : str) : option (list Q) :=
  Some [1%Q; 2%Q; 3%Q].

End EmbeddingUtils.

(** ** [memory_event_stream.py] *)

Module MemoryEventStream.
Import PyStr Py.

(** [@dataclass class MemoryEvent] *)
Record MemoryEvent := {
  event_type : str;
  user_id : str;
  session_id : option str;
  memory_id : option str;
  memory_type : option str;
  content : option str;
  metadata : list (str * str);
  timestamp : str
}.

(** [asyncio.Queue(maxsize)]: [maxsize <= 0] means unbounded. *)
Record Queue := {
  maxsize : Z;
  items : list MemoryEvent
}.

(** [Queue.full()] *)
Definition full (q : Queue) : bool :=
  (0 <? maxsize q)%Z && (maxsize q <=? Z.of_nat (length (items q)))%Z.

(** What [await queue.put(item)] can do.  [asyncio.Queue.put] waits while
    the queue is full and then stores the item; only [put_nowait] raises
    [QueueFull]. *)
Inductive PutOutcome :=
| Stored (q : Queue)
| Waits            (* the caller is suspended until a consumer takes an item *)
| RaisesQueueFull.

(** [await queue.put(item)] *)
Definition put (q : Queue) (item : MemoryEvent) : PutOutcome :=
  if full q then Waits
  else Stored {| maxsize := maxsize q; items := items q ++ [item] |}.

(** [queue.put_nowait(item)] *)
Definition put_nowait (q : Queue) (item : MemoryEvent) : PutOutcome :=
  if full q then RaisesQueueFull
  else Stored {| maxsize := maxsize q; items := items q ++ [item] |}.

(** Queues are objects; the subscription sets hold their addresses, in
    the order the sets are iterated. *)
Definition qaddr := positive.

(** [class MemoryEventStream] with the queue objects it refers to. *)
Record Stream := {
  _subscriptions : gmap (list N) (list qaddr);
  _session_subscriptions : gmap (list N) (list qaddr);
  _global_subscriptions : list qaddr;
  queues : gmap qaddr Queue
}.

(** [MemoryEventStream.__init__] *)
Definition new_stream : Stream :=
  {| _subscriptions := ∅; _session_subscriptions := ∅;
     _global_subscriptions := []; queues := ∅ |}.

(** How a call of [emit_event] ends: it returns, having logged some
    warnings, or it is suspended in [queue.put] on some queue. *)
Inductive EmitOutcome :=
| Completed (s : Stream) (warnings : list str)
| Suspended (s : Stream) (warnings : list str) (q : qaddr).

Definition set_queue (s : Stream) (a : qaddr) (q : Queue) : Stream :=
  {| _subscriptions := _subscriptions s;
     _session_subscriptions := _session_subscriptions s;
     _global_subscriptions := _global_subscriptions s;
     queues := <[a := q]> (queues s) |}.

(** One of the three loops of [emit_event]:
    [for queue in ...: try: await queue.put(event)
     except asyncio.QueueFull: logger.warning(warning)]. *)
Fixpoint deliver (event : MemoryEvent) (warning : str) (qs : list qaddr)
    (s : Stream) (warnings : list str) : EmitOutcome :=
  match qs with
  | [] => Completed s warnings
  | a :: qs' =>
      match queues s !! a with
      | None => deliver event warning qs' s warnings
      | Some q =>
          match put q event with
          | Stored q' => deliver event warning qs' (set_queue s a q') warnings
          | Waits => Suspended s warnings a
          | RaisesQueueFull =>
              deliver event warning qs' s (warnings ++ [warning])
          end
      end
  end.

Definition and_then (o : EmitOutcome)
    (k : Stream -> list str -> EmitOutcome) : EmitOutcome :=
  match o with
  | Completed s w => k s w
  | Suspended s w a => Suspended s w a
  end.

(** [emit_event] *)
Definition emit_event (s : Stream) (event : MemoryEvent) : EmitOutcome :=
  and_then
    (match _subscriptions s !! user_id event with
     | Some qs =>
         deliver event (u "Queue full for user " ++ user_id event) qs s []
     | None => Completed s []
     end)
    (fun s w =>
       and_then
         (match session_id event with
          | Some (c :: sid) =>
              match _session_subscriptions s !! (c :: sid) with
              | Some qs =>
                  deliver event (u "Queue full for session " ++ (c :: sid))
                          qs s w
              | None => Completed s w
              end
          | _ => Completed s w
          end)
         (fun s w =>
            deliver event (u "Global queue full")
                    (_global_subscriptions s) s w)).

(** The head of [subscribe_user]: a new queue is added to the
    subscriptions of the user. *)
Definition subscribe_user (s : Stream) (user : str) (queue_size : Z)
  : qaddr * Stream :=
  let a := fresh (dom (queues s)) in
  let old := match _subscriptions s !! user with
             | Some qs => qs
             | None => []
             end in
  (a, {| _subscriptions := <[user := old ++ [a]]> (_subscriptions s);
         _session_subscriptions := _session_subscriptions s;
         _global_subscriptions := _global_subscriptions s;
         queues := <[a := {| maxsize := queue_size; items := [] |}]>
                     (queues s) |}).

(** The queues [emit_event] visits for an event. *)
Definition matching_queues (s : Stream) (event : MemoryEvent) : list qaddr :=
  match _subscriptions s !! user_id event with Some qs => qs | None => [] end
  ++ match session_id event with
     | Some (c :: sid) =>
         match _session_subscriptions s !! (c :: sid) with
         | Some qs => qs
         | None => []
         end
     | _ => []
     end
  ++ _global_subscriptions s.

(** An event for the worked example. *)
Definition example_event (n : str) : MemoryEvent :=
  {| event_type := u "memory_created"; user_id := u "u1";
     session_id := None; memory_id := Some n; memory_type := None;
     content := None; metadata := []; timestamp := u "t" |}.

End MemoryEventStream.

(** ** More of [memory_agent/hierarchical_memory_types.py] *)

Module HierarchicalStrategies.
Import PyStr Py HierarchicalMemoryTypes.

(** The dictionary [get_storage_strategy] returns; [high_importance] is a
    key of one entry only. *)
Record TypeStrategy := {
  use_rag : bool;
  use_embedding : bool;
  ttl : option Z;
  index_for_search : bool;
  high_importance : option bool
}.

(** The [strategies] table of [get_storage_strategy]. *)
Definition type_strategies : list (str * TypeStrategy) :=
  [ (u "temporal/conversation",
      {| use_rag := true; use_embedding := true; ttl := None;
         index_for_search := true; high_importance := None |});
    (u "personal/identity",
      {| use_rag := false; use_embedding := true; ttl := None;
         index_for_search := true; high_importance := Some true |});
    (u "knowledge/skill",
      {| use_rag := true; use_embedding := true; ttl := None;
         index_for_search := true; high_importance := None |});
    (u "temporal/context",
      {| use_rag := false; use_embedding := false; ttl := Some 86400%Z;
         index_for_search := false; high_importance := None |}) ].

(** [HierarchicalMemoryType.get_storage_strategy] *)
Definition get_storage_strategy (classification : MemoryClassification)
  : TypeStrategy :=
  let path := major classification ++ u "/" ++ minor classification in
  match dict_get type_strategies path with
  | Some s => s
  | None =>
      {| use_rag := false; use_embedding := true; ttl := None;
         index_for_search := true; high_importance := None |}
  end.

(** The [relations] table of [get_related_types]. *)
Definition relations : list (str * list str) :=
  [ (u "personal/identity/name",
      [u "personal/identity/age"; u "personal/identity/location"]);
    (u "personal/profession/job",
      [u "knowledge/skill/technical"; u "knowledge/experience/work"]);
    (u "knowledge/skill/technical",
      [u "knowledge/experience/work"; u "personal/profession/job"]);
    (u "temporal/conversation/question",
      [u "temporal/conversation/response"; u "temporal/context/current"]) ].

(** [HierarchicalMemoryType.get_related_types]: [list(set(related))] has
    the elements of [related] in an order Python does not fix, so the
    result is given as a set. *)
Definition get_related_types (classification : MemoryClassification)
  : gset (list N) :=
  let path := to_path classification in
  let related :=
    match dict_get relations path with Some r => r | None => [] end in
  let related :=
    related ++ [major classification ++ u "/" ++ minor classification] in
  list_to_set related.

(** A name without the separator of paths. *)
Definition no_slash (s : str) : bool := forallb (fun c => negb (c =? 47)%N) s.

(** The (path, keyword) pairs of a list of leaves, in traversal order. *)
Definition leaf_pairs (ls : list (str * list str)) : list (str * str) :=
  flat_map (fun '(p, kws) => map (fun k => (p, k)) kws) ls.

(** The paths that own a keyword, one entry for each time it is listed,
    in traversal order. *)
Definition owners (ls : list (str * list str)) (keyword : str) : list str :=
  map fst (List.filter (fun '(_, k) => str_eqb k keyword) (leaf_pairs ls)).

(** A dictionary entry after more paths are appended to it. *)
Definition extend_entry (entry : option (list str)) (more : list str)
  : option (list str) :=
  match more with
  | [] => entry
  | _ => Some (match entry with Some ps => ps | None => [] end ++ more)
  end.

End HierarchicalStrategies.

(** ** More of [storage_strategy.py] *)

Module StoragePolicy.
Import PyStr Py StorageStrategyModel.

(** The values of [self.strategies]. *)
Definition table_addrs (self : StorageStrategyDeterminer) : list addr :=
  [ high_value_frequent self; high_value_infrequent self;
    conversational self; temporary self; large_content self ].

(** The one case in which the planner builds a strategy of its own
    instead of handing out one of the table: [knowledge/fact/...] below
    importance 8. *)
Definition gets_own_strategy (memory_type : str) (importance : Q) : bool :=
  match split_on 47%N memory_type with
  | [major; minor; _] =>
      str_eqb major (u "knowledge") && str_eqb minor (u "fact")
      && negb (Qgeb importance 8)
  | _ => false
  end.

(** [s.count(c)] for a character. *)
Definition occurrences (c : cp) (s : str) : nat :=
  length (List.filter (N.eqb c) s).

(** [l.count(x)] for locations. *)
Definition loc_count (x : StorageLocation) (l : list StorageLocation) : nat :=
  length (List.filter (StorageLocation_eqb x) l).

Definition has_ttl (o : StorageStrategy) : bool :=
  match ttl_seconds o with Some _ => true | None => false end.

(** A strategy whose fields tell one story: the RAG flag is set exactly
    when RAG is a secondary location, listed at most once; search indexing
    goes with the embedding; the cache-resident strategies are those that
    expire, and they carry no embedding. *)
Definition coherent (o : StorageStrategy) (l : list StorageLocation) : bool :=
  Bool.eqb (includes_rag o) (loc_in RAG l)
  && (loc_count RAG l <=? 1)%nat
  && Bool.eqb (index_for_search o) (includes_embedding o)
  && Bool.eqb (has_ttl o) (StorageLocation_eqb (primary_location o) CACHE)
  && Bool.eqb (includes_embedding o)
              (negb (StorageLocation_eqb (primary_location o) CACHE)).

(** The fields [optimize_strategy] assigns, as functions of the input
    strategy's fields: the list of secondary locations, *)
Definition optimized_locations (stats : AccessStats) (rag : bool)
    (l : list StorageLocation) : list StorageLocation :=
  let l1 :=
    if Qgtb (get_default (daily_access_count stats) 0) 10 then
      if negb (loc_in CACHE l) then l ++ [CACHE] else l
    else if Qgtb (get_default (days_since_last_access stats) 0) 30 then
      let l' := if negb (loc_in ARCHIVE l) then l ++ [ARCHIVE] else l in
      if loc_in CACHE l' then loc_remove CACHE l' else l'
    else l in
  if Qltb (get_default (search_hit_rate stats) 0.0) 0.1 && rag then
    if loc_in RAG l1 then loc_remove RAG l1 else l1
  else l1.

(** the compression flag, *)
Definition optimized_compression (stats : AccessStats) (c : bool) : bool :=
  if Qgtb (get_default (daily_access_count stats) 0) 10 then c
  else if Qgtb (get_default (days_since_last_access stats) 0) 30 then true
  else c.

(** and the RAG flag. *)
Definition optimized_rag (stats : AccessStats) (rag : bool) : bool :=
  if Qltb (get_default (search_hit_rate stats) 0.0) 0.1 && rag then false
  else rag.

(** The classifier's table and the planner tell the same story about a
    path: embedding, expiry and search indexing. *)
Definition same_plan (t : HierarchicalStrategies.TypeStrategy)
    (o : StorageStrategy) : Prop :=
  includes_embedding o = HierarchicalStrategies.use_embedding t
  /\ ttl_seconds o = HierarchicalStrategies.ttl t
  /\ index_for_search o = HierarchicalStrategies.index_for_search t.

(** The one prefix whose memories expire. *)
Definition expiring_prefix (major minor : str) : bool :=
  str_eqb major (u "temporal") && str_eqb minor (u "context").

(** What the classifier's table holds for the prefix of a leaf path. *)
Definition classifier_plan_ok (p : str) : bool :=
  match HierarchicalMemoryTypes.split_path p with
  | Ok (M, m, d) =>
      let t := HierarchicalStrategies.get_storage_strategy
                 {| HierarchicalMemoryTypes.major := M;
                    HierarchicalMemoryTypes.minor := m;
                    HierarchicalMemoryTypes.detail := d;
                    HierarchicalMemoryTypes.confidence := 0 |} in
      handled_prefix M m
      && Bool.eqb (HierarchicalStrategies.use_embedding t)
                  (negb (expiring_prefix M m))
      && Bool.eqb (HierarchicalStrategies.index_for_search t)
                  (negb (expiring_prefix M m))
      && match HierarchicalStrategies.ttl t with
         | Some s => expiring_prefix M m && (s =? 86400)%Z
         | None => negb (expiring_prefix M m)
         end
  | Raise _ => false
  end.

End StoragePolicy.

(** ** More of [vector_index_optimizer.py] *)

Module SearchOptimizer.
Import PyStr Py VectorStore VectorIndexOptimizer.

(** [MemorySearchOptimizer._get_search_params]: the value of [probes],
    the one key of the dictionary; [stats] is [None] for the dictionary
    of a failure, which has no [row_count]. *)
Definition _get_search_params (stats : option TableStats)
    (optimize_for : str) : Z :=
  let row_count :=
    match stats with Some s => row_count s | None => 0%Z end in
  if str_eqb optimize_for (u "speed") then
    if (row_count <? 10000)%Z then 1%Z
    else if (row_count <? 100000)%Z then 5%Z
    else 10%Z
  else if str_eqb optimize_for (u "accuracy") then
    if (row_count <? 10000)%Z then 10%Z
    else if (row_count <? 100000)%Z then 50%Z
    else 100%Z
  else
    if (row_count <? 10000)%Z then 5%Z
    else if (row_count <? 100000)%Z then 20%Z
    else 40%Z.

(** The queries of [_get_table_stats], in the order it sends them. *)
Definition stats_queries (table_name : str) : list Statement :=
  [ SelectTableStats table_name; SelectTypeDistribution table_name;
    SelectUserDistribution table_name; SelectEmbeddingIndexes table_name ].

(** The statements of [_apply_index_strategy], the conditional drop
    first. *)
Definition applied_statements (table_name : str) (s : Strategy)
    (stats : TableStats) : list Statement :=
  (if negb (is_none_strategy s) || nonempty (current_indexes stats)
   then [ DropIndexIfExists (index_name_of table_name) ]
   else [])
  ++ strategy_statements table_name s.

(** Statistics of a table of [n] rows of [users] users, nothing else
    known. *)
Definition plain_stats (n users : Z) : TableStats :=
  {| row_count := n; unique_users := users; unique_types := 1;
     avg_content_size := 0; importance_stats := (0, 0, 0)%Q;
     type_distribution := []; user_distribution := None;
     current_indexes := [] |}.

(** A database for the worked examples: a table with the columns the
    statistics queries read, holding one memory. *)
Definition memories_db : Database :=
  {| tables :=
       <[ u "user_memories" :=
            {| embedding_dimension := Some 2%Z;
               table_columns :=
                 base_columns
                 ++ [u "user_id"; u "memory_type"; u "importance"];
               table_rows := [EmbeddingUtils.example_row] |} ]> ∅;
     indexes := [];
     trace := [] |}.

End SearchOptimizer.

(** ** More of the retrieval path *)

Module Retrieval.
Import PyStr Py VectorStore EmbeddingUtils.

(** A hit passes the metadata filters of [db_search_vectors]. *)
Definition hit_matches (filters : list (str * str)) (h : SearchHit) : bool :=
  forallb (fun '(k, v) =>
             match dict_get (hit_metadata h) k with
             | Some w => str_eqb w v
             | None => false
             end) filters.

(** Hits in the order of [ORDER BY embedding <=> $1]: no hit is more
    similar than one before it. *)
Fixpoint descending (l : list SearchHit) : Prop :=
  match l with
  | [] => True
  | x :: l' =>
      List.Forall (fun y => (hit_similarity y <= hit_similarity x)%Q) l'
      /\ descending l'
  end.

(** The hit of a stored row. *)
Definition hit_of (similarity : list Q -> list Q -> Q) (qv : list Q)
    (r : Row) : SearchHit :=
  {| hit_id := row_id r; hit_content := row_content r;
     hit_metadata := row_metadata r;
     hit_similarity := similarity (row_embedding r) qv |}.

(** The rows of a table, none when the table is missing. *)
Definition rows_of (db : Database) (table : str) : list Row :=
  match tables db !! table with
  | Some tb => table_rows tb
  | None => []
  end.

(** An embedding service of dimension 2 and one that is down, for the
    worked examples. *)
Definition unit_embedding (text model : str) : option (list Q) :=
  Some [1%Q; 0%Q].
Definition no_embedding (text model : str) : option (list Q) := None.

End Retrieval.

(** ** More of [memory_event_stream.py] *)

Module EventStreamMore.
Import PyStr Py MemoryEventStream.

(** The queue after [put] has stored an item. *)
Definition push (q : Queue) (item : MemoryEvent) : Queue :=
  {| maxsize := maxsize q; items := items q ++ [item] |}.

(** No queue is listed twice. *)
Fixpoint distinct_queues (qs : list qaddr) : bool :=
  match qs with
  | [] => true
  | a :: qs' => negb (existsb (Pos.eqb a) qs') && distinct_queues qs'
  end.

(** The queue exists and has room for one more item. *)
Definition has_room (s : Stream) (a : qaddr) : bool :=
  match queues s !! a with
  | Some q => negb (full q)
  | None => false
  end.

(** [set.discard(queue)] *)
Definition discard (a : qaddr) (qs : list qaddr) : list qaddr :=
  List.filter (fun b => negb (Pos.eqb b a)) qs.

(** The [finally] block of [subscribe_user], run when the generator is
    closed: the queue leaves the set of the user, and an empty set is
    deleted.  Indexing a user that has no set raises [KeyError]. *)
Definition unsubscribe_user (s : Stream) (user : str) (a : qaddr)
  : result Stream :=
  match _subscriptions s !! user with
  | None => Raise KeyError
  | Some qs =>
      let qs' := discard a qs in
      Ok {| _subscriptions :=
              match qs' with
              | [] => delete user (<[user := qs']> (_subscriptions s))
              | _ => <[user := qs']> (_subscriptions s)
              end;
            _session_subscriptions := _session_subscriptions s;
            _global_subscriptions := _global_subscriptions s;
            queues := queues s |}
  end.

(** The dictionary [get_stats] returns. *)
Record Stats := {
  user_subscriptions : nat;
  session_subscriptions : nat;
  global_subscriptions : nat;
  total_queues : nat
}.

Definition queues_in (m : gmap (list N) (list qaddr)) : nat :=
  list_sum (map (fun kv => length (snd kv)) (map_to_list m)).

(** [get_stats] *)
Definition get_stats (s : Stream) : Stats :=
  {| user_subscriptions := size (_subscriptions s);
     session_subscriptions := size (_session_subscriptions s);
     global_subscriptions := length (_global_subscriptions s);
     total_queues :=
       queues_in (_subscriptions s) + queues_in (_session_subscriptions s)
       + length (_global_subscriptions s) |}.

(** The user subscriptions as the code keeps them: no user has an empty
    set, and every queue subscribed is a live object. *)
Definition tidy (s : Stream) : Prop :=
  forall user qs,
    _subscriptions s !! user = Some qs ->
    qs <> [] /\ forall a, In a qs -> is_Some (queues s !! a).

End EventStreamMore.

(** ** [memory_agent/enhanced_intelligence.py] *)

Module EnhancedIntelligence.
Import PyStr Py.

(** [class MemoryType(Enum)] of [memory_agent/memory_types.py] *)
Inductive MemoryType :=
| FACT | PREFERENCE | IDENTITY | PROFESSION | SKILL | GOAL | HOBBY
| EXPERIENCE | CONTEXT | CONVERSATION.

(** An entity dictionary: [type], [value], [confidence]. *)
Record Entity := {
  entity_type : str;
  entity_value : str;
  entity_confidence : Q
}.

(** [preference_data] of [_extract_preference_structure] *)
Record PreferenceData := {
  subject : option str;
  preference_type : option str;
  preference_level : option Z;
  reason : option str
}.

(** [skill_data] of [_extract_skill_structure] *)
Record SkillData := {
  skills : list str;
  level : option str;
  category : option str
}.

(** [identity_data] of [_process_identity] *)
Record IdentityData := {
  original : str;
  attributes : list (str * str)
}.

(** [structured_content]: a text, or the text [json.dumps] makes of a
    dictionary, which is given by the dictionary. *)
Inductive Structured :=
| Text (s : str)
| PreferenceJson (d : PreferenceData)
| IdentityJson (d : IdentityData)
| SkillJson (d : SkillData).

(** [metadata], by the function that fills it. *)
Inductive Metadata :=
| NoMetadata
| ConversationMetadata (is_question response_needed : bool)
| FactMetadata (fact_type : str) (confidence : Q)
| PreferenceMetadata (d : PreferenceData)
| IdentityMetadata (d : IdentityData)
| SkillMetadata (d : SkillData)
| ExperienceMetadata (time_references : list str) (word_count : nat).

(** [@dataclass class ProcessedContent] *)
Record ProcessedContent := {
  structured_content : Structured;
  extracted_entities : list Entity;
  summary : option str;
  keywords : list str;
  should_store : bool;
  storage_format : str;
  importance : Q;
  metadata : Metadata
}.

(** [any(word in content for word in words)] *)
Definition any_in (words : list str) (content : str) : bool :=
  existsb (fun w => contains w content) words.

(** [x in l] for a list or set of strings. *)
Definition str_in (x : str) (l : list str) : bool := existsb (str_eqb x) l.

(** [re.sub(r'\s+', ' ', s)]: every run of whitespace becomes one
    space. *)
Fixpoint collapse_ws (s : str) (in_run : bool) : str :=
  match s with
  | [] => []
  | c :: s' =>
      if is_space c then
        if in_run then collapse_ws s' true else 32%N :: collapse_ws s' true
      else c :: collapse_ws s' false
  end.

(** [_normalize_content] *)
Definition _normalize_content (content : str) : str :=
  let content := collapse_ws (strip content) false in
  let content := replace (u "되요") (u "돼요") content in
  let content := replace (u "됬") (u "됐") content in
  replace (u "왠만") (u "웬만") content.

(** The [stop_words] of [_extract_keywords]. *)
Definition stop_words : list str :=
  [ u "는"; u "은"; u "이"; u "가"; u "을"; u "를"; u "에"; u "에서";
    u "으로"; u "와"; u "과"; u "의"; u "하다"; u "있다"; u "되다"; u "수";
    u "그"; u "저"; u "이것"; u "그것" ].

(** The character class of [r'[은는이가을를에서]$']. *)
Definition particles : str := u "은는이가을를에서".

(** [re.sub(r'[은는이가을를에서]$', '', word)]: a last character of the
    class is removed. *)
Definition strip_particle (word : str) : str :=
  match rev word with
  | c :: r => if existsb (N.eqb c) particles then rev r else word
  | [] => word
  end.

(** [가-힣] and [A-Za-z] *)
Definition is_hangul (c : cp) : bool := ((44032 <=? c) && (c <=? 55203))%N.
Definition is_ascii_letter (c : cp) : bool :=
  ((65 <=? c) && (c <=? 90) || (97 <=? c) && (c <=? 122))%N.

(** Whether [s] has [n] characters of a class in a row; [seen] counts the
    run that ends where [s] begins. *)
Fixpoint has_run (p : cp -> bool) (n : nat) (s : str) (seen : nat) : bool :=
  (n <=? seen)%nat
  || match s with
     | [] => false
     | c :: s' => if p c then has_run p n s' (S seen) else has_run p n s' 0
     end.

(** [re.search(r'[가-힣]{2,}|[A-Za-z]{3,}', word)] *)
Definition meaningful (word : str) : bool :=
  has_run is_hangul 2 word 0 || has_run is_ascii_letter 3 word 0.

(** The filter loop of [_extract_keywords]. *)
Definition candidate_keywords (words : list str) : list str :=
  flat_map (fun word =>
              let clean_word := strip_particle word in
              if (length clean_word <? 2)%nat || str_in clean_word stop_words
              then []
              else if meaningful clean_word then [clean_word] else [])
           words.

(** The loop that removes duplicates and keeps the order. *)
Fixpoint unique (seen : list str) (kws : list str) : list str :=
  match kws with
  | [] => []
  | kw :: rest =>
      if str_in kw seen then unique seen rest
      else kw :: unique (kw :: seen) rest
  end.

(** [_extract_keywords] *)
Definition _extract_keywords (content : str) : list str :=
  firstn 10 (unique [] (candidate_keywords (split_ws content))).

(** [re.split(r'[.!?]+', s)]; [cur] is the piece being read, in reverse,
    and [in_run] tells that the last character was a separator. *)
Definition is_sentence_end (c : cp) : bool :=
  ((c =? 46) || (c =? 33) || (c =? 63))%N.

Fixpoint split_sentences (s : str) (cur : str) (in_run : bool) : list str :=
  match s with
  | [] => [rev cur]
  | c :: s' =>
      if is_sentence_end c then
        if in_run then split_sentences s' [] true
        else rev cur :: split_sentences s' [] true
      else split_sentences s' (c :: cur) false
  end.

Definition priority_markers : list str :=
  [ u "중요"; u "핵심"; u "주요"; u "특히"; u "꼭"; u "반드시" ].

(** [_generate_summary]; [max_length] is 100 or 200 at the call sites. *)
Definition _generate_summary (content : str) (max_length : nat) : str :=
  if (length content <=? max_length)%nat then content
  else
    let sentences := split_sentences content [] false in
    match sentences with
    | [] => firstn max_length content ++ u "..."
    | first :: _ =>
        match find (any_in priority_markers) sentences with
        | Some sentence => firstn max_length (strip sentence)
        | None => firstn max_length (strip first)
        end
    end.

(** [max(entities, key=lambda e: e["confidence"])]: the first entity of
    the highest confidence. *)
Fixpoint max_entity (best : Entity) (es : list Entity) : Entity :=
  match es with
  | [] => best
  | e :: es' =>
      max_entity (if Qltb (entity_confidence best) (entity_confidence e)
                  then e else best) es'
  end.

(** [re.sub(r'^(저는|나는|제가)\s*', '', fact)] *)
Definition drop_subject (fact : str) : str :=
  if startswith fact (u "저는") || startswith fact (u "나는")
     || startswith fact (u "제가")
  then lstrip (skipn 2 fact)
  else fact.

(** [_create_fact_statement] *)
Definition _create_fact_statement (content : str) (entities : list Entity)
  : str :=
  match entities with
  | e :: es =>
      let main_entity := max_entity e es in
      entity_type main_entity ++ u ": " ++ entity_value main_entity
  | [] =>
      let fact := List.filter (fun c => negb (is_sentence_end c)) content in
      strip (drop_subject fact)
  end.

(** [_classify_fact_type] *)
Definition _classify_fact_type (content : str) : str :=
  if any_in [u "숫자"; u "통계"; u "데이터"; u "%"] content
  then u "statistical"
  else if any_in [u "역사"; u "과거"; u "예전"] content then u "historical"
  else if any_in [u "현재"; u "지금"; u "요즘"] content then u "current"
  else u "general".

(** [len(l) * x] *)
Definition times_len {A} (l : list A) (x : Q) : Q :=
  (inject_Z (Z.of_nat (length l)) * x)%Q.

(** [_calculate_fact_importance] *)
Definition _calculate_fact_importance (entities : list Entity)
    (keywords : list str) : Q :=
  let base := 6.0%Q in
  let base := (base + py_min (times_len entities 0.5) 2.0)%Q in
  let base := (base + py_min (times_len keywords 0.2) 1.0)%Q in
  py_min base 9.0.

(** [_calculate_experience_importance] *)
Definition _calculate_experience_importance (content : str)
    (time_refs : list str) : Q :=
  let base := 7.0%Q in
  let base :=
    if existsb (fun ref => str_in ref time_refs)
               [u "최근"; u "올해"; u "이번"]
    then (base + 1.0)%Q else base in
  let word_count := length (split_ws content) in
  let base := if (50 <? word_count)%nat then (base + 0.5)%Q else base in
  py_min base 9.0.

(** [_calculate_confidence] *)
Definition _calculate_confidence (entities : list Entity) : Q :=
  match entities with
  | [] => 0.5%Q
  | _ =>
      (fold_left (fun acc e => acc + entity_confidence e) entities 0
       / inject_Z (Z.of_nat (length entities)))%Q
  end.

(** [_create_identity_summary] *)
Definition _create_identity_summary (identity_data : IdentityData) : str :=
  let attrs := attributes identity_data in
  let part label key :=
    match dict_get attrs key with
    | Some v => [label ++ v]
    | None => []
    end in
  let parts :=
    part (u "이름: ") (u "name") ++ part (u "나이: ") (u "age")
    ++ part (u "거주지: ") (u "location") in
  match parts with
  | [] => u "신원 정보"
  | _ => join (u ", ") parts
  end.

(** [str(x)] for an optional string in an f-string. *)
Definition format_opt (o : option str) : str :=
  match o with Some s => s | None => u "None" end.

Section Processor.
(** [str.lower] *)
Variable lower : str -> str.
(** The matching of regular expressions with groups:
    [_extract_entities], the [re.search] for the subject of a preference
    and [_extract_time_references]. *)
Variable _extract_entities : str -> list Entity.
Variable search_subject : str -> option str.
Variable _extract_time_references : str -> list str.

(** [_extract_preference_structure] *)
Definition _extract_preference_structure (content : str) : PreferenceData :=
  let '(ptype, plevel) :=
    if any_in [u "좋아"; u "선호"; u "즐겨"; u "최고"] content
    then (Some (u "like"), Some 8%Z)
    else if any_in [u "싫어"; u "안좋아"; u "별로"] content
    then (Some (u "dislike"), Some 3%Z)
    else (None, None) in
  {| subject := search_subject content;
     preference_type := ptype;
     preference_level := plevel;
     reason := None |}.

Definition skill_keywords : list str :=
  [ u "Python"; u "Java"; u "JavaScript"; u "React"; u "Docker";
    u "Kubernetes"; u "개발"; u "프로그래밍"; u "디자인"; u "분석";
    u "관리"; u "영어"; u "중국어" ].

(** [_extract_skill_structure] *)
Definition _extract_skill_structure (content : str) : SkillData :=
  {| skills :=
       List.filter (fun keyword => contains (lower keyword) (lower content))
                   skill_keywords;
     level :=
       if any_in [u "전문"; u "숙련"; u "고급"] content
       then Some (u "expert")
       else if any_in [u "중급"; u "경험"] content
       then Some (u "intermediate")
       else if any_in [u "초급"; u "배우는"; u "공부"] content
       then Some (u "beginner")
       else None;
     category := None |}.

(** [_process_conversation] *)
Definition _process_conversation (content : str) (entities : list Entity)
    (keywords : list str) : ProcessedContent :=
  let is_question :=
    contains (u "?") content
    || any_in [u "뭐"; u "어떻게"; u "왜"; u "언제"] content in
  {| structured_content := Text content;
     extracted_entities := entities;
     summary := Some (_generate_summary content 100);
     keywords := keywords;
     should_store := true;
     storage_format := u "full";
     importance := if is_question then 7.0%Q else 5.0%Q;
     metadata := ConversationMetadata is_question is_question |}.

(** [_process_fact] *)
Definition _process_fact (content : str) (entities : list Entity)
    (keywords : list str) : ProcessedContent :=
  let fact_statement := _create_fact_statement content entities in
  {| structured_content := Text fact_statement;
     extracted_entities := entities;
     summary := Some fact_statement;
     keywords := keywords;
     should_store :=
       (0 <? length entities)%nat || (3 <? length keywords)%nat;
     storage_format := u "structured";
     importance := _calculate_fact_importance entities keywords;
     metadata := FactMetadata (_classify_fact_type content)
                              (_calculate_confidence entities) |}.

(** [_process_preference].  The key [preference_level] is always in the
    dictionary, so [.get("preference_level", 0)] returns its value, and
    [None / 10] raises [TypeError]. *)
Definition _process_preference (content : str) (entities : list Entity)
    (keywords : list str) : result ProcessedContent :=
  let preference_data := _extract_preference_structure content in
  match preference_level preference_data with
  | None => Raise TypeError
  | Some preference_level =>
      Ok {| structured_content := PreferenceJson preference_data;
            extracted_entities := entities;
            summary :=
              Some (format_opt (subject preference_data)
                    ++ u "에 대한 선호도: "
                    ++ format_opt (preference_type preference_data));
            keywords := keywords;
            should_store := true;
            storage_format := u "json";
            importance := (6.0 + inject_Z preference_level / 10)%Q;
            metadata := PreferenceMetadata preference_data |}
  end.

(** [_process_identity] *)
Definition _process_identity (content : str) (entities : list Entity)
    (keywords : list str) : ProcessedContent :=
  let attributes :=
    fold_left (fun attrs entity =>
                 if str_in (entity_type entity)
                           [u "name"; u "age"; u "location"]
                 then dict_set attrs (entity_type entity)
                               (entity_value entity)
                 else attrs)
              entities [] in
  let identity_data := {| original := content; attributes := attributes |} in
  {| structured_content := IdentityJson identity_data;
     extracted_entities := entities;
     summary := Some (_create_identity_summary identity_data);
     keywords := keywords;
     should_store := (0 <? length attributes)%nat;
     storage_format := u "json";
     importance := 9.0%Q;
     metadata := IdentityMetadata identity_data |}.

(** [_process_skill] *)
Definition _process_skill (content : str) (entities : list Entity)
    (keywords : list str) : ProcessedContent :=
  let skill_data := _extract_skill_structure content in
  {| structured_content := SkillJson skill_data;
     extracted_entities := entities;
     summary := Some (u "기술: " ++ join (u ", ") (skills skill_data));
     keywords := keywords ++ skills skill_data;
     should_store := (0 <? length (skills skill_data))%nat;
     storage_format := u "json";
     importance := 7.5%Q;
     metadata := SkillMetadata skill_data |}.

(** [_process_experience] *)
Definition _process_experience (content : str) (entities : list Entity)
    (keywords : list str) : ProcessedContent :=
  let summary := _generate_summary content 200 in
  let time_refs := _extract_time_references content in
  {| structured_content := Text content;
     extracted_entities := entities;
     summary := Some summary;
     keywords := keywords;
     should_store := (10 <? length (split_ws content))%nat;
     storage_format := u "full";
     importance := _calculate_experience_importance content time_refs;
     metadata := ExperienceMetadata time_refs (length (split_ws content)) |}.

(** [process_content_for_storage]; the context is read by none of the
    branches. *)
Definition process_content_for_storage (content : str)
    (memory_type : MemoryType) : result ProcessedContent :=
  let normalized := _normalize_content content in
  let entities := _extract_entities normalized in
  let keywords := _extract_keywords normalized in
  match memory_type with
  | CONVERSATION => Ok (_process_conversation normalized entities keywords)
  | FACT => Ok (_process_fact normalized entities keywords)
  | PREFERENCE => _process_preference normalized entities keywords
  | IDENTITY => Ok (_process_identity normalized entities keywords)
  | SKILL => Ok (_process_skill normalized entities keywords)
  | EXPERIENCE => Ok (_process_experience normalized entities keywords)
  | _ =>
      Ok {| structured_content := Text normalized;
            extracted_entities := entities;
            summary := Some (_generate_summary normalized 100);
            keywords := keywords;
            should_store := true;
            storage_format := u "full";
            importance := 5.0%Q;
            metadata := NoMetadata |}
  end.

End Processor.

(** The storage format each memory type is given. *)
Definition format_of (memory_type : MemoryType) : str :=
  match memory_type with
  | FACT => u "structured"
  | PREFERENCE | IDENTITY | SKILL => u "json"
  | _ => u "full"
  end.

(** Instances for the worked examples: no entity, no subject, no time
    reference found. *)
Definition no_entities (content : str) : list Entity := [].
Definition no_subject (content : str) : option str := None.
Definition no_time_references (content : str) : list str := [].

End EnhancedIntelligence.

(** ** Table provisioning against the catalog *)

Module Provisioning.
Import PyStr Py VectorStore VectorIndexOptimizer EmbeddingUtils
       SearchOptimizer.

(** pgvector keeps the dimension itself as the type modifier of a column
    [vector(d)]; no header length is added to it, as PostgreSQL does for
    [varchar(n)]. *)
Definition typmod_pgvector (d : Z) : Z := d.

Section Catalog.
(** The [atttypmod] the catalog reports for a column [vector(d)]. *)
Variable typmod_of_dimension : Z -> Z.

(** Whether [ensure_table_with_dimension] finds the table in place: it
    has an embedding column, the type modifier of the column is not zero,
    and the modifier less 4 is the required dimension. *)
Definition found_in_place (db : Database) (table_name : str)
    (dimension : Z) : bool :=
  match declared_dimension db table_name with
  | Some d0 =>
      negb (typmod_of_dimension d0 =? 0)%Z
      && (typmod_of_dimension d0 - 4 =? dimension)%Z
  | None => false
  end.

End Catalog.

(** The catalog queries of the check: the second is sent when the first
    finds an embedding column. *)
Definition catalog_checks (db : Database) (table_name : str)
  : list Statement :=
  match declared_dimension db table_name with
  | Some _ => [ SelectEmbeddingColumn table_name;
                SelectEmbeddingTypmod table_name ]
  | None => [ SelectEmbeddingColumn table_name ]
  end.

(** The non-vector indexes as the specification lists them: GIN on
    metadata, B-tree on created_at DESC, and B-tree on user_id when that
    column is among the additional ones. *)
Definition non_vector_indexes (table_name : str)
    (additional_columns : list (str * str)) : list Statement :=
  [ CreateIndex (u "idx_" ++ table_name ++ u "_metadata") table_name
                (Gin (u "metadata"));
    CreateIndex (u "idx_" ++ table_name ++ u "_created_at") table_name
                (Btree [ (u "created_at", true) ]) ]
  ++ (if existsb (fun c => str_eqb (fst c) (u "user_id")) additional_columns
      then [ CreateIndex (u "idx_" ++ table_name ++ u "_user_id") table_name
                         (Btree [ (u "user_id", false) ]) ]
      else []).

(** Whether the new table has the columns the statistics queries of the
    optimizer read. *)
Definition statistics_columns (additional_columns : list (str * str))
  : bool :=
  forallb (fun c => existsb (str_eqb c)
                            (base_columns ++ map fst additional_columns))
          [ u "user_id"; u "memory_type"; u "importance" ].

(** What is sent after the non-vector indexes.  With the statistics
    columns the optimizer reads the statistics of the empty table, chooses
    no index and at most drops the optimized one; without them its first
    query fails and the IVFFlat index with 100 lists is created. *)
Definition vector_index_steps (table_name : str)
    (additional_columns : list (str * str)) (dropped : bool)
  : list Statement :=
  if statistics_columns additional_columns then
    stats_queries table_name
    ++ (if dropped then [ DropIndexIfExists (index_name_of table_name) ]
        else [])
  else
    [ SelectTableStats table_name;
      CreateIndex (u "idx_" ++ table_name ++ u "_embedding") table_name
                  (Ivfflat 100) ].

End Provisioning.

(** * The specification's fact rule

    The rule for facts as the specification words it, to be compared
    with [_process_fact] and [_calculate_fact_importance]. *)

Module FactWords.
Import PyStr Py EnhancedIntelligence.
Local Open Scope Q_scope.

(** "store only if entities exist or >= 3 keywords" *)
Definition spec_fact_should_store (entities : list Entity)
    (keywords : list str) : bool :=
  (1 <=? length entities)%nat || (3 <=? length keywords)%nat.

(** "importance = 6 + 0.5 |entities| + 0.2 |keywords|, capped at 9" *)
Definition spec_fact_importance (entities : list Entity)
    (keywords : list str) : Q :=
  py_min (6 + 0.5 * inject_Z (Z.of_nat (length entities))
            + 0.2 * inject_Z (Z.of_nat (length keywords))) 9.

End FactWords.

(** * Properties *)

(** ** Strings and dictionaries *)

Section StringFacts.
Import PyStr Py.

Lemma str_eqb_eq (a b : str) : str_eqb a b = true <-> a = b.
Proof.
  revert b. induction a as [|c a IH]; intros [|d b]; simpl; split;
    try congruence; try reflexivity.
  - intros H. apply andb_true_iff in H as [H1 H2].
    apply N.eqb_eq in H1. apply IH in H2. congruence.
  - intros H. injection H as -> ->. apply andb_true_iff. split.
    + apply N.eqb_refl.
    + now apply IH.
Qed.

Lemma str_eqb_refl (a : str) : str_eqb a a = true.
Proof. now apply str_eqb_eq. Qed.

Lemma str_eqb_neq (a b : str) : str_eqb a b = false <-> a <> b.
Proof.
  split.
  - intros H E. apply str_eqb_eq in E. congruence.
  - intros H. destruct (str_eqb a b) eqn:E; [|reflexivity].
    apply str_eqb_eq in E. contradiction.
Qed.

Lemma str_eqb_sym (a b : str) : str_eqb a b = str_eqb b a.
Proof.
  destruct (str_eqb a b) eqn:E.
  - apply str_eqb_eq in E. subst. symmetry. apply str_eqb_refl.
  - symmetry. apply str_eqb_neq. apply str_eqb_neq in E. congruence.
Qed.

Context {V : Type}.
Implicit Types (d : list (str * V)) (k : str) (v : V).

Lemma dict_get_set_eq d k v : dict_get (dict_set d k v) k = Some v.
Proof.
  induction d as [|[k' v'] d IH]; simpl.
  - now rewrite str_eqb_refl.
  - destruct (str_eqb k' k) eqn:E; simpl; rewrite E; auto.
Qed.

Lemma dict_get_set_ne d k k' v :
  k <> k' -> dict_get (dict_set d k v) k' = dict_get d k'.
Proof.
  intros Hne. induction d as [|[k0 v0] d IH]; simpl.
  - apply str_eqb_neq in Hne. now rewrite Hne.
  - destruct (str_eqb k0 k) eqn:E; simpl.
    + apply str_eqb_eq in E. subst k0.
      apply str_eqb_neq in Hne. now rewrite Hne.
    + destruct (str_eqb k0 k'); auto.
Qed.

Lemma dict_mem_set d k k' v :
  dict_mem (dict_set d k v) k' = str_eqb k k' || dict_mem d k'.
Proof.
  unfold dict_mem. destruct (str_eqb k k') eqn:E.
  - apply str_eqb_eq in E. subst. now rewrite dict_get_set_eq.
  - apply str_eqb_neq in E. now rewrite dict_get_set_ne.
Qed.

Lemma dict_get_In d k v : dict_get d k = Some v -> In (k, v) d.
Proof.
  induction d as [|[k' v'] d IH]; simpl; [discriminate|].
  destruct (str_eqb k' k) eqn:E.
  - apply str_eqb_eq in E. intros [= ->]. left. now subst.
  - intros H. right. auto.
Qed.

Lemma dict_get_None_not_In d k :
  dict_get d k = None -> ~ In k (map fst d).
Proof.
  induction d as [|[k' v'] d IH]; simpl; [tauto|].
  destruct (str_eqb k' k) eqn:E; [discriminate|].
  apply str_eqb_neq in E. intros H [?|?]; [contradiction|]. now apply IH.
Qed.

Lemma In_dict_get d k v :
  List.NoDup (map fst d) -> In (k, v) d -> dict_get d k = Some v.
Proof.
  induction d as [|[k' v'] d IH]; simpl; [tauto|].
  intros Hnd [H|H].
  - injection H as -> ->. now rewrite str_eqb_refl.
  - apply List.NoDup_cons_iff in Hnd as [Hnotin Hnd'].
    destruct (str_eqb k' k) eqn:E.
    + apply str_eqb_eq in E. subst. exfalso. apply Hnotin.
      apply in_map_iff. now exists (k, v).
    + auto.
Qed.

Lemma dict_set_keys d k v :
  map fst (dict_set d k v) =
  if dict_mem d k then map fst d else map fst d ++ [k].
Proof.
  unfold dict_mem. induction d as [|[k' v'] d IH]; simpl; [reflexivity|].
  destruct (str_eqb k' k) eqn:E; simpl; [reflexivity|].
  rewrite IH. now destruct (dict_get d k).
Qed.

Lemma dict_set_NoDup d k v :
  List.NoDup (map fst d) -> List.NoDup (map fst (dict_set d k v)).
Proof.
  induction d as [|[k' v'] d IH]; simpl; intros Hnd.
  - constructor; [tauto|constructor].
  - apply List.NoDup_cons_iff in Hnd as [Hnotin Hnd'].
    destruct (str_eqb k' k) eqn:E; simpl.
    + apply List.NoDup_cons_iff. now split.
    + apply List.NoDup_cons_iff. split; [|now apply IH].
      rewrite dict_set_keys. apply str_eqb_neq in E.
      destruct (dict_mem d k); [assumption|].
      rewrite in_app_iff. simpl. intuition congruence.
Qed.

End StringFacts.

(** ** The keyword map lists exactly the (keyword, path) pairs of the tree *)

Section KeywordMap.
Import PyStr Py HierarchicalMemoryTypes ClassifierSpec.
Local Open Scope Q_scope.

Lemma Qsum_app (l1 l2 : list Q) : Qsum (l1 ++ l2) == Qsum l1 + Qsum l2.
Proof.
  induction l1 as [|x l1 IH]; simpl; [ring|]. rewrite IH. ring.
Qed.

Lemma occ_app p l1 l2 : occ p (l1 ++ l2) == occ p l1 + occ p l2.
Proof. unfold occ. rewrite map_app. apply Qsum_app. Qed.

Lemma occ_nonneg p l : 0 <= occ p l.
Proof.
  unfold occ. induction l as [|x l IH]; simpl; [apply Qle_refl|].
  destruct (str_eqb x p); lra.
Qed.

Lemma keyword_map_add_cons_ne k' ps' km path kw :
  str_eqb k' kw = false ->
  keyword_map_add ((k', ps') :: km) path kw
  = (k', ps') :: keyword_map_add km path kw.
Proof.
  intros E. unfold keyword_map_add. simpl. rewrite E.
  destruct (dict_get km kw); simpl; rewrite ?E; reflexivity.
Qed.

Lemma keyword_map_add_cons_eq k' ps' km path kw :
  str_eqb k' kw = true ->
  keyword_map_add ((k', ps') :: km) path kw = (k', ps' ++ [path]) :: km.
Proof.
  intros E. unfold keyword_map_add. simpl. rewrite E. simpl.
  rewrite ?E. reflexivity.
Qed.

Lemma km_total_add f p km path kw :
  km_total f p (keyword_map_add km path kw)
  == km_total f p km + (if str_eqb path p then f kw else 0).
Proof.
  induction km as [|[k' ps'] km IH].
  - unfold keyword_map_add, km_total, occ. simpl.
    destruct (str_eqb path p); ring.
  - destruct (str_eqb k' kw) eqn:E.
    + rewrite keyword_map_add_cons_eq by assumption.
      apply str_eqb_eq in E. subst k'.
      unfold km_total. simpl. rewrite occ_app. unfold occ at 2. simpl.
      destruct (str_eqb path p); ring.
    + rewrite keyword_map_add_cons_ne by assumption.
      unfold km_total in *. simpl. rewrite IH. ring.
Qed.

Lemma km_any_add g p km path kw :
  km_any g p (keyword_map_add km path kw)
  = km_any g p km || (str_eqb path p && g kw).
Proof.
  induction km as [|[k' ps'] km IH].
  - unfold keyword_map_add, km_any. simpl.
    destruct (str_eqb path p), (g kw); reflexivity.
  - destruct (str_eqb k' kw) eqn:E.
    + rewrite keyword_map_add_cons_eq by assumption.
      apply str_eqb_eq in E. subst k'.
      unfold km_any. simpl. rewrite existsb_app. simpl.
      destruct (g kw), (existsb (fun x => str_eqb x p) ps'),
        (str_eqb path p),
        (existsb (fun '(keyword, paths) =>
                    g keyword && existsb (fun x => str_eqb x p) paths) km);
        reflexivity.
    + rewrite keyword_map_add_cons_ne by assumption.
      unfold km_any in *. simpl. rewrite IH.
      now rewrite orb_assoc.
Qed.

Lemma km_total_fold_keywords f p path kws km :
  km_total f p
    (fold_left (fun km' keyword => keyword_map_add km' path keyword) kws km)
  == km_total f p km + (if str_eqb path p then Qsum (map f kws) else 0).
Proof.
  revert km. induction kws as [|kw kws IH]; intros km; simpl.
  - destruct (str_eqb path p); ring.
  - rewrite IH, km_total_add. destruct (str_eqb path p); ring.
Qed.

Lemma km_any_fold_keywords g p path kws km :
  km_any g p
    (fold_left (fun km' keyword => keyword_map_add km' path keyword) kws km)
  = km_any g p km || (str_eqb path p && existsb g kws).
Proof.
  revert km. induction kws as [|kw kws IH]; intros km; simpl.
  - now rewrite andb_false_r, orb_false_r.
  - rewrite IH, km_any_add.
    destruct (km_any g p km), (str_eqb path p), (g kw), (existsb g kws);
      reflexivity.
Qed.

Lemma km_total_fold_leaves f p ls km :
  km_total f p
    (fold_left (fun km '(path, keywords) =>
                  fold_left (fun km' keyword => keyword_map_add km' path keyword)
                            keywords km) ls km)
  == km_total f p km + Qsum (map f (keywords_in ls p)).
Proof.
  revert km. induction ls as [|[path kws] ls IH]; intros km; simpl.
  - ring.
  - rewrite IH, km_total_fold_keywords, map_app, Qsum_app.
    destruct (str_eqb path p); simpl; ring.
Qed.

Lemma km_any_fold_leaves g p ls km :
  km_any g p
    (fold_left (fun km '(path, keywords) =>
                  fold_left (fun km' keyword => keyword_map_add km' path keyword)
                            keywords km) ls km)
  = km_any g p km || existsb g (keywords_in ls p).
Proof.
  revert km. induction ls as [|[path kws] ls IH]; intros km; simpl.
  - now rewrite orb_false_r.
  - rewrite IH, km_any_fold_keywords, existsb_app.
    destruct (str_eqb path p); simpl.
    + now rewrite orb_assoc.
    + now rewrite orb_false_r.
Qed.

(** For any tree: summing [f] over the map's entries that list [p] is
    summing [f] over the keywords the tree gives [p]. *)
Lemma build_keyword_map_total f p tree :
  km_total f p (build_keyword_map tree)
  == Qsum (map f (keywords_in (leaves tree) p)).
Proof.
  unfold build_keyword_map. rewrite km_total_fold_leaves.
  unfold km_total. simpl. ring.
Qed.

Lemma build_keyword_map_any g p tree :
  km_any g p (build_keyword_map tree)
  = existsb g (keywords_in (leaves tree) p).
Proof.
  unfold build_keyword_map. now rewrite km_any_fold_leaves.
Qed.

End KeywordMap.

(** ** Scores computed by [classify] *)

Section ScoreFacts.
Import PyStr Py HierarchicalMemoryTypes ClassifierSpec.
Local Open Scope Q_scope.

Lemma div3 (s : Q) : s / 3.0 == s * (1 # 3).
Proof.
  unfold Qdiv. assert (H : / 3.0 == 1 # 3) by reflexivity. now rewrite H.
Qed.

Lemma py_min_bounds (a : Q) : 0 <= a -> 0 <= py_min a 1.0 /\ py_min a 1.0 <= 1.
Proof.
  intros Ha. unfold py_min. destruct (Qlt_le_dec 1.0 a); lra.
Qed.

Lemma py_min_compat (a a' b : Q) : a == a' -> py_min a b == py_min a' b.
Proof.
  intros E. unfold py_min.
  destruct (Qlt_le_dec b a), (Qlt_le_dec b a'); lra.
Qed.

Lemma keyword_weight_nonneg cl kw : 0 <= keyword_weight cl kw.
Proof.
  unfold keyword_weight.
  assert (H : 0 <= inject_Z (Z.of_nat (length kw)) / 10).
  { apply Qle_shift_div_l; [reflexivity|]. rewrite Qmult_0_l.
    change 0 with (inject_Z 0). rewrite <- Zle_Qle. lia. }
  destruct (startswith cl kw); nra.
Qed.

Lemma keyword_contribution_nonneg cl kw : 0 <= keyword_contribution cl kw.
Proof.
  unfold keyword_contribution. destruct (contains kw cl).
  - apply keyword_weight_nonneg.
  - apply Qle_refl.
Qed.

Lemma score_of_set ps k v p :
  score_of (dict_set ps k v) p = if str_eqb k p then v else score_of ps p.
Proof.
  unfold score_of. destruct (str_eqb k p) eqn:E.
  - apply str_eqb_eq in E. subst. now rewrite dict_get_set_eq.
  - apply str_eqb_neq in E. now rewrite dict_get_set_ne.
Qed.

Lemma add_score_unfold cl kw ps path :
  add_score cl kw ps path =
  match dict_get ps path with
  | Some s =>
      dict_set ps path
        (s + (if startswith cl kw
              then inject_Z (Z.of_nat (length kw)) / 10 * 2
              else inject_Z (Z.of_nat (length kw)) / 10))
  | None =>
      dict_set (dict_set ps path 0) path
        (0 + (if startswith cl kw
              then inject_Z (Z.of_nat (length kw)) / 10 * 2
              else inject_Z (Z.of_nat (length kw)) / 10))
  end.
Proof.
  unfold add_score, dict_mem. destruct (dict_get ps path) eqn:E.
  - now rewrite E.
  - now rewrite dict_get_set_eq.
Qed.

Lemma score_of_add_score cl kw ps path p :
  score_of (add_score cl kw ps path) p
  == score_of ps p + (if str_eqb path p then keyword_weight cl kw else 0).
Proof.
  rewrite add_score_unfold. unfold keyword_weight.
  destruct (dict_get ps path) eqn:E; rewrite !score_of_set;
    destruct (str_eqb path p) eqn:Ep; try ring.
  - apply str_eqb_eq in Ep. subst. unfold score_of. rewrite E.
    destruct (startswith cl kw); ring.
  - apply str_eqb_eq in Ep. subst. unfold score_of. rewrite E.
    destruct (startswith cl kw); ring.
Qed.

Lemma dict_mem_add_score cl kw ps path p :
  dict_mem (add_score cl kw ps path) p = dict_mem ps p || str_eqb path p.
Proof.
  rewrite add_score_unfold.
  destruct (dict_get ps path) eqn:E; rewrite !dict_mem_set;
    destruct (str_eqb path p) eqn:Ep; simpl;
    try reflexivity; now rewrite ?orb_true_r, ?orb_false_r.
Qed.

Lemma add_score_NoDup cl kw ps path :
  List.NoDup (map fst ps) -> List.NoDup (map fst (add_score cl kw ps path)).
Proof.
  intros H. rewrite add_score_unfold.
  destruct (dict_get ps path); repeat apply dict_set_NoDup; assumption.
Qed.

Lemma score_of_fold_paths cl kw paths ps p :
  score_of (fold_left (add_score cl kw) paths ps) p
  == score_of ps p + keyword_weight cl kw * occ p paths.
Proof.
  revert ps. induction paths as [|x paths IH]; intros ps; simpl.
  - unfold occ. simpl. ring.
  - rewrite IH, score_of_add_score. unfold occ. simpl.
    destruct (str_eqb x p); ring.
Qed.

Lemma dict_mem_fold_paths cl kw paths ps p :
  dict_mem (fold_left (add_score cl kw) paths ps) p
  = dict_mem ps p || existsb (fun x => str_eqb x p) paths.
Proof.
  revert ps. induction paths as [|x paths IH]; intros ps; simpl.
  - now rewrite orb_false_r.
  - rewrite IH, dict_mem_add_score. now rewrite orb_assoc.
Qed.

Lemma fold_paths_NoDup cl kw paths ps :
  List.NoDup (map fst ps) ->
  List.NoDup (map fst (fold_left (add_score cl kw) paths ps)).
Proof.
  revert ps. induction paths as [|x paths IH]; intros ps H; simpl; auto.
  apply IH. now apply add_score_NoDup.
Qed.

Lemma score_of_score_loop cl km ps p :
  score_of (score_loop cl km ps) p
  == score_of ps p + km_total (keyword_contribution cl) p km.
Proof.
  revert ps. induction km as [|[kw paths] km IH]; intros ps.
  - unfold km_total. simpl. ring.
  - unfold score_loop in *. simpl. rewrite IH.
    unfold km_total. simpl. unfold keyword_contribution at 2.
    destruct (contains kw cl).
    + rewrite score_of_fold_paths. ring.
    + ring.
Qed.

Lemma dict_mem_score_loop cl km ps p :
  dict_mem (score_loop cl km ps) p
  = dict_mem ps p || km_any (fun kw => contains kw cl) p km.
Proof.
  revert ps. induction km as [|[kw paths] km IH]; intros ps.
  - simpl. now rewrite orb_false_r.
  - unfold score_loop in *. simpl. rewrite IH.
    destruct (contains kw cl); simpl.
    + rewrite dict_mem_fold_paths. now rewrite orb_assoc.
    + reflexivity.
Qed.

Lemma score_loop_NoDup cl km ps :
  List.NoDup (map fst ps) -> List.NoDup (map fst (score_loop cl km ps)).
Proof.
  revert ps. induction km as [|[kw paths] km IH]; intros ps H; auto.
  unfold score_loop in *. simpl. apply IH.
  destruct (contains kw cl); [now apply fold_paths_NoDup | assumption].
Qed.

Lemma score_paths_loop km cl : score_paths km cl = score_loop cl km [].
Proof. reflexivity. Qed.

Lemma score_of_empty p : score_of [] p = 0.
Proof. reflexivity. Qed.

Lemma dict_mem_empty p : dict_mem (@nil (str * Q)) p = false.
Proof. reflexivity. Qed.

(** What the keyword loop of [classify] leaves in [path_scores], for the
    keyword map of any tree. *)
Lemma score_paths_tree_score tree cl p :
  score_of (score_paths (build_keyword_map tree) cl) p
  == Qsum (map (keyword_contribution cl) (keywords_in (leaves tree) p)).
Proof.
  rewrite score_paths_loop, score_of_score_loop, build_keyword_map_total,
    score_of_empty. ring.
Qed.

Lemma score_paths_tree_mem tree cl p :
  dict_mem (score_paths (build_keyword_map tree) cl) p
  = existsb (fun kw => contains kw cl) (keywords_in (leaves tree) p).
Proof.
  rewrite score_paths_loop, dict_mem_score_loop, build_keyword_map_any,
    dict_mem_empty. reflexivity.
Qed.

Lemma score_paths_score cl p :
  score_of (score_paths keyword_map cl) p == base_score cl p.
Proof. exact (score_paths_tree_score type_tree cl p). Qed.

Lemma score_paths_mem cl p :
  dict_mem (score_paths keyword_map cl) p = has_match cl p.
Proof. exact (score_paths_tree_mem type_tree cl p). Qed.

Lemma score_paths_NoDup cl : List.NoDup (map fst (score_paths keyword_map cl)).
Proof.
  rewrite score_paths_loop. apply score_loop_NoDup. constructor.
Qed.

End ScoreFacts.

(** ** Context boosts and the choice of the best path *)

Section BoostFacts.
Import PyStr Py HierarchicalMemoryTypes ClassifierSpec.
Local Open Scope Q_scope.

Lemma score_of_boost ps k f p :
  score_of (boost ps k f) p
  == score_of ps p * (if str_eqb k p then f else 1).
Proof.
  unfold boost. destruct (dict_get ps k) eqn:E.
  - rewrite score_of_set. destruct (str_eqb k p) eqn:Ep; [|ring].
    apply str_eqb_eq in Ep. subst. unfold score_of. rewrite E. ring.
  - destruct (str_eqb k p) eqn:Ep; [|ring].
    apply str_eqb_eq in Ep. subst. unfold score_of. rewrite E. ring.
Qed.

Lemma dict_mem_boost ps k f p : dict_mem (boost ps k f) p = dict_mem ps p.
Proof.
  unfold boost. destruct (dict_get ps k) eqn:E; [|reflexivity].
  rewrite dict_mem_set. destruct (str_eqb k p) eqn:Ep; [|reflexivity].
  apply str_eqb_eq in Ep. subst. unfold dict_mem. now rewrite E.
Qed.

Lemma boost_NoDup ps k f :
  List.NoDup (map fst ps) -> List.NoDup (map fst (boost ps k f)).
Proof.
  intros H. unfold boost. destruct (dict_get ps k); [|assumption].
  now apply dict_set_NoDup.
Qed.

Lemma score_of_session_boosts types ps p :
  score_of (fold_left (fun ps t => boost ps t 1.2) types ps) p
  == score_of ps p * session_factor types p.
Proof.
  revert ps. induction types as [|t types IH]; intros ps; simpl.
  - ring.
  - rewrite IH, score_of_boost. ring.
Qed.

Lemma dict_mem_session_boosts types ps p :
  dict_mem (fold_left (fun ps t => boost ps t 1.2) types ps) p
  = dict_mem ps p.
Proof.
  revert ps. induction types as [|t types IH]; intros ps; simpl; auto.
  now rewrite IH, dict_mem_boost.
Qed.

Lemma session_boosts_NoDup types ps :
  List.NoDup (map fst ps) ->
  List.NoDup (map fst (fold_left (fun ps t => boost ps t 1.2) types ps)).
Proof.
  revert ps. induction types as [|t types IH]; intros ps H; simpl; auto.
  apply IH. now apply boost_NoDup.
Qed.

Lemma session_factor_pos types p : 0 < session_factor types p.
Proof.
  induction types as [|t types IH]; simpl; [reflexivity|].
  destruct (str_eqb t p); nra.
Qed.

Lemma context_factor_pos context p : 0 < context_factor context p.
Proof.
  destruct context as [[prev types]|]; simpl; [|reflexivity].
  assert (H1 : 0 < match prev with
                   | Some prev0 => if str_eqb prev0 p then 1.5 else 1
                   | None => 1 end).
  { destruct prev as [prev|]; [destruct (str_eqb prev p)|]; reflexivity. }
  assert (H2 : 0 < match types with
                   | Some ts => session_factor ts p
                   | None => 1 end).
  { destruct types; [apply session_factor_pos | reflexivity]. }
  nra.
Qed.

Lemma score_of_apply_context ps context p :
  score_of (apply_context ps context) p
  == score_of ps p * context_factor context p.
Proof.
  destruct context as [[prev types]|]; simpl; [|ring].
  destruct prev as [prev|], types as [types|];
    unfold context_truthy, _apply_context_boosts; simpl;
    rewrite ?score_of_session_boosts, ?score_of_boost; ring.
Qed.

Lemma dict_mem_apply_context ps context p :
  dict_mem (apply_context ps context) p = dict_mem ps p.
Proof.
  destruct context as [[prev types]|]; simpl; [|reflexivity].
  destruct prev as [prev|], types as [types|];
    unfold context_truthy, _apply_context_boosts; simpl;
    rewrite ?dict_mem_session_boosts, ?dict_mem_boost; reflexivity.
Qed.

Lemma apply_context_NoDup ps context :
  List.NoDup (map fst ps) -> List.NoDup (map fst (apply_context ps context)).
Proof.
  intros H. destruct context as [[prev types]|]; simpl; [|assumption].
  destruct prev as [prev|], types as [types|];
    unfold context_truthy, _apply_context_boosts; simpl;
    repeat first [apply session_boosts_NoDup | apply boost_NoDup];
    assumption.
Qed.

Variable lower : str -> str.

Lemma scores_after_boosts_score content context p :
  score_of (scores_after_boosts lower content context) p
  == spec_score lower content context p.
Proof.
  unfold scores_after_boosts, spec_score.
  rewrite score_of_apply_context, score_paths_score. reflexivity.
Qed.

Lemma scores_after_boosts_mem content context p :
  dict_mem (scores_after_boosts lower content context) p
  = has_match (lower content) p.
Proof.
  unfold scores_after_boosts.
  rewrite dict_mem_apply_context. apply score_paths_mem.
Qed.

Lemma scores_after_boosts_NoDup content context :
  List.NoDup (map fst (scores_after_boosts lower content context)).
Proof.
  unfold scores_after_boosts. apply apply_context_NoDup, score_paths_NoDup.
Qed.

Lemma max_item_spec (best : str * Q) (items : list (str * Q)) :
  In (max_item best items) (best :: items)
  /\ forall x, In x (best :: items) -> snd x <= snd (max_item best items).
Proof.
  revert best. induction items as [|y items IH]; intros best; simpl.
  - split; [now left|]. intros x [<-|[]]. apply Qle_refl.
  - destruct (Qlt_le_dec (snd best) (snd y)) as [Hlt|Hle].
    + destruct (IH y) as [Hin Hmax]. split.
      * simpl in Hin. tauto.
      * intros x [<-|[<-|Hx]].
        -- apply Qle_trans with (snd y); [now apply Qlt_le_weak|].
           apply Hmax. now left.
        -- apply Hmax. now left.
        -- apply Hmax. now right.
    + destruct (IH best) as [Hin Hmax]. split.
      * simpl in Hin. tauto.
      * intros x [<-|[<-|Hx]].
        -- apply Hmax. now left.
        -- apply Qle_trans with (snd best); [assumption|].
           apply Hmax. now left.
        -- apply Hmax. now right.
Qed.

End BoostFacts.

(** ** The classifier *)

Section ClassifierFacts.
Import PyStr Py HierarchicalMemoryTypes ClassifierSpec.
Local Open Scope Q_scope.

Lemma enumerated_paths_ok : forallb leaf_ok enumerated_paths = true.
Proof. vm_compute. reflexivity. Qed.

Lemma enumerated_paths_importance :
  forallb importance_shape_ok enumerated_paths = true.
Proof. vm_compute. reflexivity. Qed.

Lemma keywords_in_nonempty (g : str -> bool) ls p :
  existsb g (keywords_in ls p) = true -> In p (map fst ls).
Proof.
  induction ls as [|[p' kws] ls IH]; simpl; [discriminate|].
  rewrite existsb_app. destruct (str_eqb p' p) eqn:E.
  - apply str_eqb_eq in E. now left.
  - simpl. intros H. right. now apply IH.
Qed.

Lemma keywords_in_all (g : str -> bool) ls p :
  existsb g (keywords_in ls p) = true -> existsb g (flat_map snd ls) = true.
Proof.
  induction ls as [|[p' kws] ls IH]; simpl; [discriminate|].
  rewrite !existsb_app. destruct (str_eqb p' p); simpl.
  - intros H. apply orb_true_iff in H as [H|H].
    + now rewrite H.
    + rewrite IH by assumption. apply orb_true_r.
  - intros H. rewrite IH by assumption. apply orb_true_r.
Qed.

Lemma all_keywords_in (g : str -> bool) ls :
  existsb g (flat_map snd ls) = true ->
  exists p, existsb g (keywords_in ls p) = true.
Proof.
  induction ls as [|[p' kws] ls IH]; simpl; [discriminate|].
  rewrite existsb_app. intros H. apply orb_true_iff in H as [H|H].
  - exists p'. rewrite str_eqb_refl, existsb_app, H. reflexivity.
  - destruct (IH H) as [p Hp]. exists p.
    rewrite existsb_app, Hp. apply orb_true_r.
Qed.

Lemma has_match_enumerated cl p :
  has_match cl p = true -> In p enumerated_paths.
Proof. apply keywords_in_nonempty. Qed.

Lemma has_match_any cl p :
  has_match cl p = true -> any_keyword_matches cl = true.
Proof. apply keywords_in_all. Qed.

Lemma any_has_match cl :
  any_keyword_matches cl = true -> exists p, has_match cl p = true.
Proof. apply all_keywords_in. Qed.

Lemma Qsum_nonneg (l : list Q) : Forall (fun x => 0 <= x) l -> 0 <= Qsum l.
Proof.
  induction 1 as [|x l Hx _ IH]; simpl; [apply Qle_refl | lra].
Qed.

Lemma base_score_nonneg cl p : 0 <= base_score cl p.
Proof.
  unfold base_score. apply Qsum_nonneg. apply List.Forall_forall.
  intros x Hx. apply in_map_iff in Hx as [kw [<- _]].
  apply keyword_contribution_nonneg.
Qed.

Lemma base_score_no_match cl p :
  has_match cl p = false -> base_score cl p == 0.
Proof.
  unfold has_match, base_score.
  induction (keywords_of p) as [|kw kws IH]; simpl; [reflexivity|].
  intros H. apply orb_false_iff in H as [H1 H2].
  unfold keyword_contribution at 1. rewrite H1, (IH H2). ring.
Qed.

Variable lower : str -> str.

Lemma spec_score_nonneg content context p :
  0 <= spec_score lower content context p.
Proof.
  unfold spec_score.
  pose proof (base_score_nonneg (lower content) p).
  pose proof (context_factor_pos context p). nra.
Qed.

Lemma classify_unfold content context :
  classify lower content context =
  match scores_after_boosts lower content context with
  | first :: rest =>
      let best_path := max_item first rest in
      match split_path (fst best_path) with
      | Ok (major, minor, detail) =>
          Ok {| major := major; minor := minor; detail := detail;
                confidence := py_min (snd best_path / 3.0) 1.0 |}
      | Raise e => Raise e
      end
  | [] => Ok (fallback content)
  end.
Proof.
  unfold classify, scores_after_boosts, apply_context, fallback.
  destruct (match context with
            | Some c =>
                if context_truthy c
                then _apply_context_boosts
                       (score_paths keyword_map (lower content)) c
                else score_paths keyword_map (lower content)
            | None => score_paths keyword_map (lower content)
            end); [|reflexivity].
  destruct (contains (u "?") content); [reflexivity|].
  destruct (length (split_ws content) <? 10)%nat; reflexivity.
Qed.

(** No keyword occurs: the fallback policy decides. *)
Lemma classify_unmatched content context :
  any_keyword_matches (lower content) = false ->
  classify lower content context = Ok (fallback content).
Proof.
  intros Hnone. rewrite classify_unfold.
  destruct (scores_after_boosts lower content context)
    as [|[p s] rest] eqn:E; [reflexivity|].
  exfalso.
  assert (Hm : dict_mem (scores_after_boosts lower content context) p = true).
  { rewrite E. unfold dict_mem. simpl. now rewrite str_eqb_refl. }
  rewrite scores_after_boosts_mem in Hm.
  apply has_match_any in Hm. congruence.
Qed.

(** Some keyword occurs: the result is the first path of maximal score. *)
Lemma classify_matched content context :
  any_keyword_matches (lower content) = true ->
  exists p s M m d,
    classify lower content context
    = Ok {| major := M; minor := m; detail := d;
            confidence := py_min (s / 3.0) 1.0 |}
    /\ split_path p = Ok (M, m, d)
    /\ M ++ u "/" ++ m ++ u "/" ++ d = p
    /\ In p enumerated_paths
    /\ has_match (lower content) p = true
    /\ s == spec_score lower content context p
    /\ forall q, spec_score lower content context q <= s.
Proof.
  intros Hany. rewrite classify_unfold.
  set (ps := scores_after_boosts lower content context).
  assert (Hnd : List.NoDup (map fst ps)) by apply scores_after_boosts_NoDup.
  assert (Hscore : forall q, score_of ps q == spec_score lower content context q)
    by (intros q; apply scores_after_boosts_score).
  assert (Hmem : forall q, dict_mem ps q = has_match (lower content) q)
    by (intros q; apply scores_after_boosts_mem).
  destruct ps as [|first rest] eqn:Eps.
  { exfalso. apply any_has_match in Hany as [p Hp].
    rewrite <- Hmem in Hp. discriminate. }
  destruct (max_item_spec first rest) as [Hin Hmax].
  destruct (max_item first rest) as [bp bs] eqn:Ebest. simpl in *.
  assert (Hget : dict_get (first :: rest) bp = Some bs)
    by (apply In_dict_get; assumption).
  assert (Hbm : has_match (lower content) bp = true).
  { rewrite <- Hmem. unfold dict_mem. now rewrite Hget. }
  assert (Hen : In bp enumerated_paths) by (eapply has_match_enumerated; eauto).
  pose proof enumerated_paths_ok as Hok.
  rewrite forallb_forall in Hok. specialize (Hok bp Hen).
  unfold leaf_ok in Hok.
  destruct (split_path bp) as [[[M m] d]|e] eqn:Esplit; [|discriminate].
  apply str_eqb_eq in Hok.
  assert (Hbs : bs == spec_score lower content context bp).
  { rewrite <- Hscore. unfold score_of. rewrite Hget. reflexivity. }
  exists bp, bs, M, m, d. repeat split; auto.
  intros q. rewrite <- Hscore. unfold score_of.
  destruct (dict_get (first :: rest) q) as [s|] eqn:Eq.
  - apply dict_get_In in Eq. apply (Hmax (q, s)) in Eq. exact Eq.
  - rewrite Hbs. apply spec_score_nonneg.
Qed.

(** C3. When a trigger keyword occurs in the lower-cased utterance,
    [classify] returns a path of the tree that owns a matching keyword and
    whose score -- the sum of [len(keyword)/10] over its matching
    keywords, doubled for a keyword the utterance starts with, times 1.5
    if it is the previous classification and times 1.2 for each session
    active type naming it -- is maximal among all paths; the confidence is
    [min(score/3.0, 1.0)]. *)
Theorem C3_classify_keyword_scoring content context :
  any_keyword_matches (lower content) = true ->
  exists mc,
    classify lower content context = Ok mc
    /\ In (to_path mc) enumerated_paths
    /\ has_match (lower content) (to_path mc) = true
    /\ (forall q, spec_score lower content context q
                  <= spec_score lower content context (to_path mc))
    /\ confidence mc
       == py_min (spec_score lower content context (to_path mc) / 3.0) 1.0.
Proof.
  intros Hany.
  destruct (classify_matched content context Hany)
    as (p & s & M & m & d & Hc & _ & Hjoin & Hen & Hm & Hs & Hmax).
  eexists. split; [exact Hc|].
  unfold to_path. cbn [major minor detail confidence]. rewrite Hjoin.
  repeat split; auto.
  - intros q. rewrite <- Hs. apply Hmax.
  - apply py_min_compat. rewrite !div3, Hs. reflexivity.
Qed.

(** C8. [classify] always returns a classification; its path is one of the
    enumerated paths of the type tree (the three fallbacks are among
    them) and its confidence lies in [0, 1].  When no keyword occurs the
    result is the fallback: temporal/conversation/question with 0.8 if the
    utterance contains a question mark, else
    temporal/conversation/statement with 0.5 if it has fewer than ten
    words, else knowledge/fact/general with 0.3. *)
Theorem C8_classify_total_bounded content context :
  exists mc,
    classify lower content context = Ok mc
    /\ In (to_path mc) enumerated_paths
    /\ 0 <= confidence mc /\ confidence mc <= 1
    /\ (any_keyword_matches (lower content) = false ->
        mc = fallback content).
Proof.
  destruct (any_keyword_matches (lower content)) eqn:Hany.
  - destruct (classify_matched content context Hany)
      as (p & s & M & m & d & Hc & _ & Hjoin & Hen & Hm & Hs & Hmax).
    eexists. split; [exact Hc|].
    unfold to_path. cbn [major minor detail confidence]. rewrite Hjoin.
    assert (H0 : 0 <= s / 3.0).
    { rewrite div3. pose proof (spec_score_nonneg content context p). lra. }
    destruct (py_min_bounds _ H0). repeat split; auto. discriminate.
  - exists (fallback content). split; [now apply classify_unmatched|].
    unfold fallback.
    destruct (contains (u "?") content);
      [|destruct (length (split_ws content) <? 10)%nat];
      (split; [vm_compute; tauto|]); simpl; repeat split; lra.
Qed.

End ClassifierFacts.

(** ** Importance of a classification *)

Section ImportanceFacts.
Import PyStr Py HierarchicalMemoryTypes ClassifierSpec.
Local Open Scope Q_scope.

Variable lower : str -> str.

(** Every result of [classify] is a leaf of the tree, split into its three
    levels, with a confidence in [0, 1]. *)
Lemma classify_shape content context mc :
  classify lower content context = Ok mc ->
  exists p, In p enumerated_paths
    /\ split_path p = Ok (major mc, minor mc, detail mc)
    /\ 0 <= confidence mc /\ confidence mc <= 1.
Proof.
  destruct (any_keyword_matches (lower content)) eqn:Hany.
  - destruct (classify_matched lower content context Hany)
      as (p & s & M & m & d & Hc & Hsplit & _ & Hen & _ & Hs & _).
    rewrite Hc. intros [= <-]. exists p. cbn [major minor detail confidence].
    assert (H0 : 0 <= s / 3.0).
    { rewrite div3.
      pose proof (spec_score_nonneg lower content context p). lra. }
    destruct (py_min_bounds _ H0). auto.
  - rewrite (classify_unmatched lower content context Hany).
    intros [= <-]. unfold fallback.
    destruct (contains (u "?") content);
      [|destruct (length (split_ws content) <? 10)%nat].
    + exists (u "temporal/conversation/question").
      split; [vm_compute; tauto|]. split; [vm_compute; reflexivity|].
      simpl; split; lra.
    + exists (u "temporal/conversation/statement").
      split; [vm_compute; tauto|]. split; [vm_compute; reflexivity|].
      simpl; split; lra.
    + exists (u "knowledge/fact/general").
      split; [vm_compute; tauto|]. split; [vm_compute; reflexivity|].
      simpl; split; lra.
Qed.

(** C4, as amended.  For a classification the classifier produces whose
    [major/minor] prefix has an entry in the importance table -- every
    prefix but knowledge/skill -- [get_importance] returns that entry,
    with no confidence term.  No clamp is applied; the value lies in
    [0, 10] all the same. *)
Theorem C4_importance_of_classification content context mc :
  classify lower content context = Ok mc ->
  let prefix := major mc ++ u "/" ++ minor mc in
  prefix <> u "knowledge/skill" ->
  dict_get importance_map prefix = Some (get_importance mc)
  /\ 0 <= get_importance mc /\ get_importance mc <= 10.
Proof.
  intros Hc prefix Hne. destruct (classify_shape content context mc Hc)
    as (p & Hen & Hsplit & Hlo & Hhi).
  pose proof enumerated_paths_importance as Hok.
  rewrite forallb_forall in Hok. specialize (Hok p Hen).
  unfold importance_shape_ok in Hok. rewrite Hsplit in Hok.
  cbv zeta in Hok. fold prefix in Hok. unfold get_importance.
  fold prefix.
  destruct (str_eqb prefix (u "knowledge/skill")) eqn:Eskill;
    [apply str_eqb_eq in Eskill; contradiction|].
  destruct (dict_get importance_map prefix) as [v|]; [|discriminate].
  apply andb_true_iff in Hok as [H3 H9].
  apply Qle_bool_iff in H3, H9.
  split; [reflexivity|]. split; lra.
Qed.

End ImportanceFacts.

Section ClassifierExamples.
Import PyStr Py HierarchicalMemoryTypes ClassifierSpec.
Local Open Scope Q_scope.

(** The utterance "name": the keyword [name] of personal/identity/name
    occurs at the start, so the score is 2 * 4/10 and the confidence
    0.8/3. *)
Lemma C3_witness :
  any_keyword_matches (lower_ascii (u "name")) = true
  /\ exists mc,
       classify lower_ascii (u "name") None = Ok mc
       /\ In (to_path mc) enumerated_paths
       /\ has_match (lower_ascii (u "name")) (to_path mc) = true
       /\ (forall q, spec_score lower_ascii (u "name") None q
                     <= spec_score lower_ascii (u "name") None (to_path mc))
       /\ confidence mc
          == py_min (spec_score lower_ascii (u "name") None (to_path mc) / 3.0)
                    1.0.
Proof.
  split; [vm_compute; reflexivity|].
  apply (C3_classify_keyword_scoring lower_ascii (u "name") None).
  vm_compute; reflexivity.
Defined.

Example classify_name :
  classify lower_ascii (u "name") None
  = Ok {| major := u "personal"; minor := u "identity"; detail := u "name";
          confidence := 80 # 300 |}.
Proof. vm_compute. reflexivity. Qed.

Lemma C4_witness :
  let mc := {| major := u "personal"; minor := u "identity";
               detail := u "name"; confidence := 80 # 300 |} in
  classify lower_ascii (u "name") None = Ok mc
  /\ major mc ++ u "/" ++ minor mc <> u "knowledge/skill"
  /\ dict_get importance_map (major mc ++ u "/" ++ minor mc)
     = Some (get_importance mc)
  /\ 0 <= get_importance mc /\ get_importance mc <= 10.
Proof.
  intros mc. split; [vm_compute; reflexivity|].
  split; [vm_compute; discriminate|].
  apply (C4_importance_of_classification lower_ascii (u "name") None mc).
  - vm_compute; reflexivity.
  - vm_compute; discriminate.
Defined.

(** C4 as the claim states it fails: for the utterance "name" the
    classifier returns personal/identity/name with confidence 0.8/3; the
    claim's value is 9.0 + 2 * 0.8/3 (about 9.53), [get_importance]
    returns 9.0. *)
Lemma C4_counterexample :
  exists mc v,
    classify lower_ascii (u "name") None = Ok mc
    /\ spec_importance mc = Some v
    /\ ~ get_importance mc == v.
Proof.
  eexists. eexists. split; [vm_compute; reflexivity|].
  split; [vm_compute; reflexivity|].
  vm_compute. discriminate.
Qed.

End ClassifierExamples.

(** ** Storage strategies *)

Section StorageFacts.
Import PyStr Py StorageStrategyModel.

Lemma bind_Ok {A B} (m : M A) (f : A -> M B) h a h' :
  m h = Ok (a, h') -> bind m f h = f a h'.
Proof. intros H. unfold bind. now rewrite H. Qed.

Section Frame.
Variables (h : Heap) (cur : StorageStrategy) (opt copy : addr).
Local Abbreviation inv := (frame_inv h cur opt copy).

Lemma secondary_has_inv x h' :
  inv h' -> exists b, secondary_has opt x h' = Ok (b, h').
Proof.
  intros [_ _ _ _ (o & l & Ho & Hs & Hl & _)].
  unfold secondary_has, bind, read_obj, read_list, ret.
  rewrite Ho, Hs, Hl. eauto.
Qed.

Lemma write_copy_inv l' h' :
  inv h' ->
  inv {| lists := <[copy := l']> (lists h'); objs := objs h' |}.
Proof.
  intros [Hl Ho Hfl Hfo (o & l & Hoo & Hs & Hll & Hrest)].
  constructor; simpl; auto.
  - intros a Ha. rewrite lookup_insert_ne; [now apply Hl|].
    intros <-. rewrite Hfl in Ha. now destruct Ha.
  - exists o, l'. rewrite lookup_insert_eq. auto.
Qed.

Lemma append_secondary_inv x h' :
  inv h' ->
  exists h'', append_secondary opt x h' = Ok (tt, h'') /\ inv h''.
Proof.
  intros Hinv. pose proof Hinv as [_ _ _ _ (o & l & Ho & Hs & Hl & _)].
  unfold append_secondary, bind, read_obj, read_list, write_list.
  rewrite Ho, Hs, Hl. eexists. split; [reflexivity|].
  now apply write_copy_inv.
Qed.

Lemma remove_secondary_inv x h' :
  inv h' ->
  exists h'', remove_secondary opt x h' = Ok (tt, h'') /\ inv h''.
Proof.
  intros Hinv. pose proof Hinv as [_ _ _ _ (o & l & Ho & Hs & Hl & _)].
  unfold remove_secondary, bind, read_obj, read_list, write_list.
  rewrite Ho, Hs, Hl. eexists. split; [reflexivity|].
  now apply write_copy_inv.
Qed.

Lemma when_inv b (m : M unit) h' :
  inv h' ->
  (exists h'', m h' = Ok (tt, h'') /\ inv h'') ->
  exists h'', when b m h' = Ok (tt, h'') /\ inv h''.
Proof.
  intros Hinv Hm. destruct b; simpl; [assumption|].
  exists h'. now split.
Qed.

(** Assigning [compression_enabled] or [includes_rag] on the clone. *)
Lemma write_opt_inv o' h' :
  inv h' ->
  (forall o, objs h' !! opt = Some o ->
     secondary_locations o' = secondary_locations o
     /\ primary_location o' = primary_location o
     /\ includes_embedding o' = includes_embedding o
     /\ ttl_seconds o' = ttl_seconds o
     /\ index_for_search o' = index_for_search o) ->
  inv {| lists := lists h'; objs := <[opt := o']> (objs h') |}.
Proof.
  intros [Hl Ho Hfl Hfo (o & l & Hoo & Hs & Hll & Hp & He & Ht & Hi)] Hsame.
  destruct (Hsame o Hoo) as (Hs' & Hp' & He' & Ht' & Hi').
  constructor; simpl; auto.
  - intros a Ha. rewrite lookup_insert_ne; [now apply Ho|].
    intros <-. rewrite Hfo in Ha. now destruct Ha.
  - exists o', l. rewrite lookup_insert_eq. repeat split; congruence.
Qed.

End Frame.

Ltac step_has Hinv x b :=
  let Hb := fresh "Hb" in
  destruct (secondary_has_inv _ _ _ _ x _ Hinv) as [b Hb];
  rewrite (bind_Ok _ _ _ _ _ Hb).

Ltac step_unit H h'' Hinv' :=
  let Hr := fresh "Hr" in
  destruct H as (h'' & Hr & Hinv');
  rewrite (bind_Ok _ _ _ _ _ Hr).

(** The body of [optimize_strategy] after the clone is made. *)
Lemma optimize_body_inv h cur opt copy stats h1 :
  frame_inv h cur opt copy h1 ->
  exists h',
    bind
      (if Qgtb (get_default (daily_access_count stats) 0) 10 then
         bind (secondary_has opt CACHE) (fun has_cache =>
           when (negb has_cache) (append_secondary opt CACHE))
       else if Qgtb (get_default (days_since_last_access stats) 0) 30 then
         bind (secondary_has opt ARCHIVE) (fun has_archive =>
         bind (when (negb has_archive) (append_secondary opt ARCHIVE))
              (fun _ =>
         bind (secondary_has opt CACHE) (fun has_cache =>
         bind (when has_cache (remove_secondary opt CACHE)) (fun _ =>
         bind (read_obj opt) (fun o =>
           write_obj opt
             {| primary_location := primary_location o;
                secondary_locations := secondary_locations o;
                includes_rag := includes_rag o;
                includes_embedding := includes_embedding o;
                ttl_seconds := ttl_seconds o;
                compression_enabled := true;
                index_for_search := index_for_search o |})))))
       else ret tt)
      (fun _ =>
         bind (read_obj opt) (fun o =>
         bind
           (if Qltb (get_default (search_hit_rate stats) 0.0) 0.1
               && includes_rag o then
              bind (write_obj opt
                      {| primary_location := primary_location o;
                         secondary_locations := secondary_locations o;
                         includes_rag := false;
                         includes_embedding := includes_embedding o;
                         ttl_seconds := ttl_seconds o;
                         compression_enabled := compression_enabled o;
                         index_for_search := index_for_search o |})
                   (fun _ =>
              bind (secondary_has opt RAG) (fun has_rag =>
                when has_rag (remove_secondary opt RAG)))
            else ret tt)
           (fun _ => ret opt))) h1
    = Ok (opt, h')
    /\ frame_inv h cur opt copy h'.
Proof.
  intros Hinv.
  (* access pattern *)
  assert (Hstep1 : exists h2,
    (if Qgtb (get_default (daily_access_count stats) 0) 10 then
         bind (secondary_has opt CACHE) (fun has_cache =>
           when (negb has_cache) (append_secondary opt CACHE))
       else if Qgtb (get_default (days_since_last_access stats) 0) 30 then
         bind (secondary_has opt ARCHIVE) (fun has_archive =>
         bind (when (negb has_archive) (append_secondary opt ARCHIVE))
              (fun _ =>
         bind (secondary_has opt CACHE) (fun has_cache =>
         bind (when has_cache (remove_secondary opt CACHE)) (fun _ =>
         bind (read_obj opt) (fun o =>
           write_obj opt
             {| primary_location := primary_location o;
                secondary_locations := secondary_locations o;
                includes_rag := includes_rag o;
                includes_embedding := includes_embedding o;
                ttl_seconds := ttl_seconds o;
                compression_enabled := true;
                index_for_search := index_for_search o |})))))
       else ret tt) h1 = Ok (tt, h2) /\ frame_inv h cur opt copy h2).
  { destruct (Qgtb (get_default (daily_access_count stats) 0) 10).
    - step_has Hinv CACHE b.
      apply when_inv; [assumption|]. now apply append_secondary_inv.
    - destruct (Qgtb (get_default (days_since_last_access stats) 0) 30).
      + step_has Hinv ARCHIVE b.
        step_unit (when_inv h cur opt copy (negb b) _ h1 Hinv
                     (append_secondary_inv h cur opt copy ARCHIVE h1 Hinv))
                  h2 Hinv2.
        step_has Hinv2 CACHE b2.
        step_unit (when_inv h cur opt copy b2 _ h2 Hinv2
                     (remove_secondary_inv h cur opt copy CACHE h2 Hinv2))
                  h3 Hinv3.
        pose proof Hinv3 as [_ _ _ _ (o & l & Ho & _)].
        unfold bind at 1, read_obj. rewrite Ho. unfold write_obj.
        eexists. split; [reflexivity|].
        apply write_opt_inv; [assumption|].
        intros o0 Ho0. rewrite Ho in Ho0. injection Ho0 as <-. simpl. auto.
      + exists h1. now split. }
  destruct Hstep1 as (h2 & Hr1 & Hinv2). rewrite (bind_Ok _ _ _ _ _ Hr1).
  (* search indexing *)
  pose proof Hinv2 as [_ _ _ _ (o & l & Ho & _)].
  unfold bind at 1, read_obj. rewrite Ho.
  destruct (Qltb (get_default (search_hit_rate stats) 0.0) 0.1
            && includes_rag o).
  - unfold bind at 2, write_obj at 1.
    match goal with
    | |- context [secondary_has opt RAG] =>
        assert (Hinv3 : frame_inv h cur opt copy
          {| lists := lists h2;
             objs := <[opt := {| primary_location := primary_location o;
                         secondary_locations := secondary_locations o;
                         includes_rag := false;
                         includes_embedding := includes_embedding o;
                         ttl_seconds := ttl_seconds o;
                         compression_enabled := compression_enabled o;
                         index_for_search := index_for_search o |}]>
                      (objs h2) |})
    end.
    { apply write_opt_inv; [assumption|].
      intros o0 Ho0. rewrite Ho in Ho0. injection Ho0 as <-. simpl. auto. }
    unfold bind at 1.
    destruct (secondary_has_inv _ _ _ _ RAG _ Hinv3) as [b Hb].
    rewrite (bind_Ok _ _ _ _ _ Hb).
    destruct (when_inv h cur opt copy b _ _ Hinv3
                (remove_secondary_inv h cur opt copy RAG _ Hinv3))
      as (h4 & Hr4 & Hinv4).
    rewrite Hr4. unfold ret. eauto.
  - unfold bind, ret. eauto.
Qed.

(** C10. [optimize_strategy] returns a freshly allocated strategy with a
    freshly allocated list of secondary locations; its [primary_location],
    [includes_embedding], [ttl_seconds] and [index_for_search] are those
    of the input; every object the heap held before, the input strategy
    and its list among them, is unchanged. *)
Theorem C10_optimize_strategy_frame h s stats cur cur_list :
  objs h !! s = Some cur ->
  lists h !! secondary_locations cur = Some cur_list ->
  exists r h' o l,
    optimize_strategy s stats h = Ok (r, h')
    /\ objs h !! r = None
    /\ lists h !! secondary_locations o = None
    /\ view h' r = Some (o, l)
    /\ primary_location o = primary_location cur
    /\ includes_embedding o = includes_embedding cur
    /\ ttl_seconds o = ttl_seconds cur
    /\ index_for_search o = index_for_search cur
    /\ (forall a, is_Some (objs h !! a) -> objs h' !! a = objs h !! a)
    /\ (forall a, is_Some (lists h !! a) -> lists h' !! a = lists h !! a)
    /\ view h' s = Some (cur, cur_list).
Proof.
  intros Hs Hl.
  set (copy := fresh (dom (lists h))).
  set (opt := fresh (dom (objs h))).
  assert (Hfl : lists h !! copy = None)
    by (apply not_elem_of_dom, is_fresh).
  assert (Hfo : objs h !! opt = None)
    by (apply not_elem_of_dom, is_fresh).
  set (clone := {| primary_location := primary_location cur;
                   secondary_locations := copy;
                   includes_rag := includes_rag cur;
                   includes_embedding := includes_embedding cur;
                   ttl_seconds := ttl_seconds cur;
                   compression_enabled := compression_enabled cur;
                   index_for_search := index_for_search cur |}).
  set (h1 := {| lists := <[copy := cur_list]> (lists h);
                objs := <[opt := clone]> (objs h) |}).
  assert (Hinv : frame_inv h cur opt copy h1).
  { constructor; simpl; auto.
    - intros a Ha. apply lookup_insert_ne. intros <-.
      rewrite Hfl in Ha. now destruct Ha.
    - intros a Ha. apply lookup_insert_ne. intros <-.
      rewrite Hfo in Ha. now destruct Ha.
    - exists clone, cur_list. rewrite !lookup_insert_eq.
      repeat split; reflexivity. }
  destruct (optimize_body_inv h cur opt copy stats h1 Hinv)
    as (h' & Hrun & Hinv').
  pose proof Hinv' as [Hfl' Hfo' _ _ (o & l & Ho & Hsl & Hll & Hp & He & Ht & Hi)].
  exists opt, h', o, l.
  split.
  { unfold optimize_strategy.
    unfold bind at 1, read_obj at 1. rewrite Hs.
    unfold bind at 1, read_list at 1. rewrite Hl.
    unfold bind at 1, alloc_list. cbn [lists objs].
    unfold bind at 1, alloc_obj. cbn [lists objs].
    exact Hrun. }
  split; [assumption|]. split; [now rewrite Hsl|].
  split; [unfold view; now rewrite Ho, Hsl, Hll|].
  repeat (split; [assumption|]).
  unfold view. rewrite (Hfo' s), Hs by (rewrite Hs; eauto).
  rewrite (Hfl' (secondary_locations cur)), Hl by (rewrite Hl; eauto).
  reflexivity.
Qed.

(** *** The strategy table *)

Lemma new_strategy_spec primary secondary rag embedding ttl compression
    index h :
  exists a h',
    new_strategy primary secondary rag embedding ttl compression index h
    = Ok (a, h')
    /\ strategy_is h' a primary secondary rag embedding ttl compression index
    /\ (forall b x, view h b = Some x -> view h' b = Some x).
Proof.
  unfold new_strategy, bind, alloc_list, alloc_obj. cbn [lists objs].
  eexists. eexists. split; [reflexivity|]. split.
  - eexists. unfold view. cbn [lists objs secondary_locations].
    rewrite !lookup_insert_eq. reflexivity.
  - intros b x. unfold view. cbn [lists objs].
    destruct (objs h !! b) as [o|] eqn:Eb; [|discriminate].
    destruct (lists h !! secondary_locations o) as [l|] eqn:El;
      [|discriminate].
    intros [= <-]. rewrite lookup_insert_ne.
    + rewrite Eb. rewrite lookup_insert_ne; [now rewrite El|].
      intros E. pose proof (is_fresh (dom (lists h))) as Hf.
      rewrite E in Hf. apply not_elem_of_dom in Hf. congruence.
    + intros E. pose proof (is_fresh (dom (objs h))) as Hf.
      rewrite E in Hf. apply not_elem_of_dom in Hf. congruence.
Qed.

Lemma strategy_is_mono h h' a primary secondary rag embedding ttl
    compression index :
  (forall b x, view h b = Some x -> view h' b = Some x) ->
  strategy_is h a primary secondary rag embedding ttl compression index ->
  strategy_is h' a primary secondary rag embedding ttl compression index.
Proof. intros Hm [l Hl]. exists l. now apply Hm. Qed.

(** [__init__] builds the table, whatever the heap held before. *)
Lemma init_table h0 :
  exists self h, init h0 = Ok (self, h) /\ table_as_built self h.
Proof.
  unfold init.
  destruct (new_strategy_spec DB [RAG; CACHE] true true None false true h0)
    as (s1 & h1 & E1 & V1 & M1).
  destruct (new_strategy_spec DB [ARCHIVE] false true None true true h1)
    as (s2 & h2 & E2 & V2 & M2).
  destruct (new_strategy_spec DB [] false true None false true h2)
    as (s3 & h3 & E3 & V3 & M3).
  destruct (new_strategy_spec CACHE [] false false (Some 86400%Z) false false
                              h3)
    as (s4 & h4 & E4 & V4 & M4).
  destruct (new_strategy_spec DB [ARCHIVE] false true None true true h4)
    as (s5 & h5 & E5 & V5 & M5).
  eexists. exists h5. split.
  - rewrite (bind_Ok _ _ _ _ _ E1), (bind_Ok _ _ _ _ _ E2),
      (bind_Ok _ _ _ _ _ E3), (bind_Ok _ _ _ _ _ E4),
      (bind_Ok _ _ _ _ _ E5). reflexivity.
  - constructor; cbn [high_value_frequent high_value_infrequent
                      conversational temporary large_content];
      eauto 10 using strategy_is_mono.
Qed.

Lemma init_table_of h0 self h :
  init h0 = Ok (self, h) -> table_as_built self h.
Proof.
  intros E. destruct (init_table h0) as (self' & h' & E' & T).
  rewrite E in E'. injection E' as <- <-. exact T.
Qed.

Lemma split_on_aux_no_sep sep s cur :
  contains [sep] s = false -> split_on_aux sep s cur = [rev cur ++ s].
Proof.
  revert cur. induction s as [|c s IH]; intros cur; simpl.
  - intros _. now rewrite app_nil_r.
  - assert (Hs : startswith s [] = true) by (destruct s; reflexivity).
    rewrite Hs, andb_true_r. intros H. apply orb_false_iff in H as [H1 H2].
    rewrite N.eqb_sym, H1. rewrite IH by assumption. simpl.
    now rewrite <- app_assoc.
Qed.

Lemma split_on_three_has_sep s a b c :
  split_on 47%N s = [a; b; c] -> contains (u "/") s = true.
Proof.
  intros H. destruct (contains (u "/") s) eqn:E; [reflexivity|].
  unfold split_on in H. change (u "/") with [47%N] in E.
  rewrite split_on_aux_no_sep in H by assumption. discriminate.
Qed.

Lemma default_reached self major minor detail importance content_size :
  handled_prefix major minor = false ->
  _determine_hierarchical_strategy self major minor detail importance
                                   content_size
  = _get_default_strategy self importance content_size.
Proof.
  unfold handled_prefix, _determine_hierarchical_strategy.
  destruct (str_eqb major (u "personal")),
    (str_eqb major (u "knowledge")), (str_eqb major (u "temporal")),
    (str_eqb minor (u "identity")), (str_eqb minor (u "preference")),
    (str_eqb minor (u "profession")), (str_eqb minor (u "skill")),
    (str_eqb minor (u "experience")), (str_eqb minor (u "fact")),
    (str_eqb minor (u "conversation")), (str_eqb minor (u "context"));
    simpl; (discriminate || reflexivity).
Qed.

(** C5, as amended.  For a three-level path whose [major/minor] prefix has
    no branch of its own in the planner (none of personal/identity,
    preference, profession; knowledge/skill, experience, fact;
    temporal/conversation, context) and any content size, when
    6 <= importance < 8 the planner returns primary DB, secondary
    [ARCHIVE], embedding enabled, RAG disabled, no TTL -- and compression
    enabled whatever the size. *)
Theorem C5_default_band_strategy h0 self h memory_type major minor detail
    importance content_size access_pattern :
  init h0 = Ok (self, h) ->
  split_on 47%N memory_type = [major; minor; detail] ->
  handled_prefix major minor = false ->
  (6 <= importance)%Q -> (importance < 8)%Q ->
  exists a o,
    determine_strategy self memory_type importance content_size
                       access_pattern h = Ok (a, h)
    /\ view h a = Some (o, [ARCHIVE])
    /\ primary_location o = DB
    /\ includes_embedding o = true
    /\ includes_rag o = false
    /\ ttl_seconds o = None
    /\ compression_enabled o = true.
Proof.
  intros Hinit Hsplit Hdefault H6 H8.
  apply init_table_of in Hinit as [_ [l2 V2] _ _ [l5 V5]].
  unfold determine_strategy.
  rewrite (split_on_three_has_sep _ _ _ _ Hsplit), Hsplit.
  rewrite default_reached by assumption.
  unfold _get_default_strategy, Qgeb.
  assert (E8 : Qle_bool 8 importance = false).
  { destruct (Qle_bool 8 importance) eqn:E; [|reflexivity].
    apply Qle_bool_iff in E. lra. }
  assert (E6 : Qle_bool 6 importance = true) by now apply Qle_bool_iff.
  rewrite E8, E6.
  destruct (content_size >? 1000)%Z; unfold ret;
    eexists; eexists; (split; [reflexivity|]);
    (split; [eassumption|]); simpl; auto.
Qed.

End StorageFacts.

Section StorageExamples.
Import PyStr Py StorageStrategyModel.

Lemma C5_witness :
  exists self h,
    init empty_heap = Ok (self, h)
    /\ exists a o,
         determine_strategy self (u "misc/note/x") 6 500 None h = Ok (a, h)
         /\ view h a = Some (o, [ARCHIVE])
         /\ primary_location o = DB
         /\ includes_embedding o = true
         /\ includes_rag o = false
         /\ ttl_seconds o = None
         /\ compression_enabled o = true.
Proof.
  eexists. eexists. split; [vm_compute; reflexivity|].
  eapply (C5_default_band_strategy empty_heap _ _ (u "misc/note/x")
            (u "misc") (u "note") (u "x") 6 500%Z None).
  - vm_compute; reflexivity.
  - vm_compute; reflexivity.
  - vm_compute; reflexivity.
  - vm_compute; discriminate.
  - vm_compute; reflexivity.
Defined.

(** C5 as the claim states it fails: misc/note/x matches none of the
    listed rows, importance 6, size 500; the claim has compression enabled
    exactly when the size exceeds 1000, so disabled here, while the
    planner returns [high_value_infrequent], whose compression is
    enabled. *)
Lemma C5_counterexample :
  exists self h a o l,
    init empty_heap = Ok (self, h)
    /\ listed_policy_row (u "misc") (u "note") = false
    /\ determine_strategy self (u "misc/note/x") 6 500 None h = Ok (a, h)
    /\ view h a = Some (o, l)
    /\ compression_enabled o = true
    /\ (500 >? 1000)%Z = false.
Proof.
  do 5 eexists. split; [vm_compute; reflexivity|].
  split; [vm_compute; reflexivity|].
  split; [vm_compute; reflexivity|].
  split; [vm_compute; reflexivity|].
  split; reflexivity.
Qed.

(** Two prefixes the specification's table does not list have branches of
    their own: knowledge/fact below importance 8 gets a new strategy with
    no secondary location and no compression, personal/profession gets
    [high_value_frequent]. *)
Example knowledge_fact_band :
  exists self h a h' o,
    init empty_heap = Ok (self, h)
    /\ determine_strategy self (u "knowledge/fact/general") 6 2000 None h
       = Ok (a, h')
    /\ view h' a = Some (o, [])
    /\ compression_enabled o = false.
Proof.
  do 5 eexists. split; [vm_compute; reflexivity|].
  split; [vm_compute; reflexivity|].
  split; vm_compute; reflexivity.
Qed.

Example personal_profession_band :
  exists self h a o,
    init empty_heap = Ok (self, h)
    /\ determine_strategy self (u "personal/profession/job") 6 2000 None h
       = Ok (a, h)
    /\ view h a = Some (o, [RAG; CACHE])
    /\ includes_rag o = true.
Proof.
  do 4 eexists. split; [vm_compute; reflexivity|].
  split; [vm_compute; reflexivity|].
  split; vm_compute; reflexivity.
Qed.

Lemma C10_witness :
  exists self h cur cur_list,
    init empty_heap = Ok (self, h)
    /\ objs h !! high_value_frequent self = Some cur
    /\ lists h !! secondary_locations cur = Some cur_list
    /\ exists r h' o l,
         optimize_strategy (high_value_frequent self)
           {| daily_access_count := None;
              days_since_last_access := Some 31%Q;
              search_hit_rate := None |} h = Ok (r, h')
         /\ objs h !! r = None
         /\ lists h !! secondary_locations o = None
         /\ view h' r = Some (o, l)
         /\ primary_location o = primary_location cur
         /\ includes_embedding o = includes_embedding cur
         /\ ttl_seconds o = ttl_seconds cur
         /\ index_for_search o = index_for_search cur
         /\ (forall a, is_Some (objs h !! a) -> objs h' !! a = objs h !! a)
         /\ (forall a, is_Some (lists h !! a) -> lists h' !! a = lists h !! a)
         /\ view h' (high_value_frequent self) = Some (cur, cur_list).
Proof.
  do 4 eexists. split; [vm_compute; reflexivity|].
  split; [vm_compute; reflexivity|].
  split; [vm_compute; reflexivity|].
  apply C10_optimize_strategy_frame; vm_compute; reflexivity.
Defined.

End StorageExamples.

(** ** Index strategy selection *)

Section OptimizerFacts.
Import PyStr Py VectorStore VectorIndexOptimizer.

Lemma power_user_ratio_words stats :
  power_user_ratio stats = ratio_of_heavy_and_power_users stats.
Proof.
  unfold power_user_ratio, ratio_of_heavy_and_power_users, counted_users,
    bucket, true_div.
  destruct (user_distribution stats) as [[|e d]|];
    cbn [get_or dict_get]; try reflexivity.
  rewrite (Z.add_comm (get_or (e :: d) (u "power") 0)). reflexivity.
Qed.

Lemma int_div_nonneg (n d : Z) : (0 <= n)%Z -> (0 < d)%Z ->
  int_div n d = (n / d)%Z.
Proof. intros Hn Hd. unfold int_div. apply Z.quot_div_nonneg; lia. Qed.

(** C7, as amended.  [_determine_index_strategy] follows the table of
    section 4.5 -- none below 1000 rows; IVFFlat with
    lists = max(N/100, 10), probes 5 below 10000; below 100000 the
    accurate variant (lists = max(N/500, 50), probes 20, composite index
    on (user_id, importance DESC)) exactly when the ratio exceeds 0.2 and
    the fast variant (lists = max(N/1000, 30), probes 10) otherwise;
    partitioned IVFFlat (100 lists per partition, sent as lists = 1000,
    probes 15) from 100000 rows with fewer than 1000 users; HNSW with
    ef_search 100 and m = 16, ef_construction = 200 below 500000 rows,
    m = 32, ef_construction = 400 from there -- where the ratio is the
    share of users in the buckets heavy and power together (at least 100
    memories each) among the users the distribution counts. *)
Theorem C7_index_strategy_selection stats table_name :
  _determine_index_strategy stats
  = strategy_table (ratio_of_heavy_and_power_users stats)
                   (row_count stats) (unique_users stats)
  /\ created_vector_lists
       (strategy_statements table_name (PartitionedIvfflat 100 15))
     = [1000%Z]
  /\ (forall l p b,
        creates_user_importance_index
          (strategy_statements table_name (IvfflatOptimized l p b)) = b)
  /\ (forall s,
        creates_user_importance_index (strategy_statements table_name s)
        = true -> exists l p, s = IvfflatOptimized l p true).
Proof.
  split; [|split; [|split]].
  - unfold _determine_index_strategy, strategy_table.
    rewrite power_user_ratio_words.
    destruct (row_count stats <? 1000)%Z eqn:E1; [reflexivity|].
    apply Z.ltb_ge in E1.
    rewrite !int_div_nonneg by lia.
    destruct (row_count stats <? 10000)%Z; [reflexivity|].
    destruct (row_count stats <? 100000)%Z.
    + destruct (Qgtb (ratio_of_heavy_and_power_users stats) 0.2);
        reflexivity.
    + destruct (unique_users stats <? 1000)%Z; [reflexivity|].
      destruct (row_count stats <? 500000)%Z; reflexivity.
  - reflexivity.
  - intros l p b. unfold strategy_statements, creates_user_importance_index.
    destruct b; reflexivity.
  - intros s. unfold strategy_statements, creates_user_importance_index.
    destruct s as [| | l p [|] | |]; try discriminate; eauto.
Qed.

End OptimizerFacts.

Section OptimizerExamples.
Import PyStr Py VectorStore VectorIndexOptimizer.

(** C7 as the claim states it fails: no user has 1000 memories, so the
    ratio of power users is 0 and the claim selects the fast variant;
    [_determine_index_strategy] counts the heavy users too, finds 0.5 and
    selects the accurate variant. *)
Lemma C7_counterexample :
  strategy_table (ratio_of_power_users stats_heavy_users)
                 (row_count stats_heavy_users)
                 (unique_users stats_heavy_users)
  = IvfflatOptimized 50 10 false
  /\ _determine_index_strategy stats_heavy_users
     = IvfflatOptimized 100 20 true.
Proof. split; vm_compute; reflexivity. Qed.

(** Scenario 5 of the specification: 150000 rows of 3000 users. *)
Example index_promotion :
  _determine_index_strategy
    {| row_count := 150000; unique_users := 3000; unique_types := 3;
       avg_content_size := 40; importance_stats := (3, 9, 5)%Q;
       type_distribution := [];
       user_distribution := Some [ (u "medium", 3000%Z) ];
       current_indexes := [] |}
  = HnswStrategy 16 200 100.
Proof. vm_compute. reflexivity. Qed.

End OptimizerExamples.

(** ** Table provisioning *)

Section ProvisioningFacts.
Import PyStr Py VectorStore VectorIndexOptimizer EmbeddingUtils.

Variable T : Z -> Z.

Lemma call_tool_trace db st :
  trace (snd (call_tool T db st)) = trace db ++ [st].
Proof.
  unfold call_tool, run, record.
  destruct st; cbn [tables indexes trace];
    repeat match goal with
           | |- context [match ?x with _ => _ end] => destruct x
           end; reflexivity.
Qed.

Lemma call_tool_tables db st :
  keeps_tables st = true -> tables (snd (call_tool T db st)) = tables db.
Proof.
  unfold call_tool, run, record.
  destruct st; cbn [tables indexes trace keeps_tables]; try discriminate;
    intros _;
    repeat match goal with
           | |- context [match ?x with _ => _ end] => destruct x
           end; reflexivity.
Qed.

Lemma quiet_refl db : quiet db db.
Proof. split; [reflexivity|]. exists []. now rewrite app_nil_r. Qed.

Lemma quiet_trans db1 db2 db3 : quiet db1 db2 -> quiet db2 db3 -> quiet db1 db3.
Proof.
  intros [H1 [s1 E1]] [H2 [s2 E2]]. split; [congruence|].
  exists (s1 ++ s2). now rewrite E2, E1, app_assoc.
Qed.

Lemma call_tool_quiet db st :
  keeps_tables st = true -> quiet db (snd (call_tool T db st)).
Proof.
  intros H. split; [now apply call_tool_tables|].
  exists [st]. apply call_tool_trace.
Qed.

Lemma call_tool_quiet_pair db st r db' :
  keeps_tables st = true -> call_tool T db st = (r, db') -> quiet db db'.
Proof.
  intros H E. pose proof (call_tool_quiet db st H) as Q.
  now rewrite E in Q.
Qed.

Lemma send_all_quiet db sts :
  forallb keeps_tables sts = true -> quiet db (send_all T db sts).
Proof.
  revert db. induction sts as [|st sts IH]; intros db H.
  - apply quiet_refl.
  - simpl in H. apply andb_true_iff in H as [H1 H2].
    change (send_all T db (st :: sts))
      with (send_all T (snd (call_tool T db st)) sts).
    eapply quiet_trans; [apply call_tool_quiet; eassumption|].
    now apply IH.
Qed.

Lemma send_all_trace db sts :
  trace (send_all T db sts) = trace db ++ sts.
Proof.
  revert db. induction sts as [|st sts IH]; intros db.
  - simpl. now rewrite app_nil_r.
  - change (send_all T db (st :: sts))
      with (send_all T (snd (call_tool T db st)) sts).
    rewrite IH, call_tool_trace. now rewrite <- app_assoc.
Qed.

Lemma get_table_stats_quiet db table_name stats db' :
  _get_table_stats T db table_name = (stats, db') -> quiet db db'.
Proof.
  unfold _get_table_stats.
  destruct (call_tool T db (SelectTableStats table_name)) as [r1 db1] eqn:E1.
  apply call_tool_quiet_pair in E1; [|reflexivity].
  destruct (negb (success r1) || negb (nonempty (rows r1))).
  { intros [= _ <-]. assumption. }
  destruct (call_tool T db1 (SelectTypeDistribution table_name))
    as [r2 db2] eqn:E2.
  apply call_tool_quiet_pair in E2; [|reflexivity].
  destruct (call_tool T db2 (SelectUserDistribution table_name))
    as [r3 db3] eqn:E3.
  apply call_tool_quiet_pair in E3; [|reflexivity].
  destruct (call_tool T db3 (SelectEmbeddingIndexes table_name))
    as [r4 db4] eqn:E4.
  apply call_tool_quiet_pair in E4; [|reflexivity].
  assert (Q : quiet db db4) by eauto using quiet_trans.
  repeat match goal with
         | |- context [match ?x with _ => _ end] => destruct x
         end; intros [= _ <-]; assumption.
Qed.

Lemma strategy_statements_keep table_name s :
  forallb keeps_tables (strategy_statements table_name s) = true.
Proof. destruct s as [| | ? ? [|] | |]; reflexivity. Qed.

Lemma apply_index_strategy_quiet db table_name s stats r db' :
  _apply_index_strategy T db table_name s stats = (r, db') -> quiet db db'.
Proof.
  unfold _apply_index_strategy.
  set (db1 := if negb (is_none_strategy s) || nonempty (current_indexes stats)
              then snd (call_tool T db (DropIndexIfExists
                                          (index_name_of table_name)))
              else db).
  assert (Q1 : quiet db db1).
  { subst db1.
    destruct (negb (is_none_strategy s) || nonempty (current_indexes stats)).
    - now apply call_tool_quiet.
    - apply quiet_refl. }
  clearbody db1. intros [= _ <-].
  eapply quiet_trans; [exact Q1|].
  apply send_all_quiet, strategy_statements_keep.
Qed.

Lemma optimize_memory_index_quiet self now db table_name force r self' db' :
  optimize_memory_index T self now db table_name force = (r, self', db') ->
  quiet db db'.
Proof.
  unfold optimize_memory_index, _should_optimize.
  destruct force.
  - destruct (_get_table_stats T db table_name) as [st db1] eqn:E1.
    apply get_table_stats_quiet in E1.
    destruct st as [st|]; [|intros [= _ _ <-]; assumption].
    destruct (_apply_index_strategy T db1 table_name
                (_determine_index_strategy st) st) as [r2 db2] eqn:E2.
    apply apply_index_strategy_quiet in E2.
    intros [= _ _ <-]. eauto using quiet_trans.
  - destruct (match dict_get (_last_optimization self) table_name with
              | Some last_opt => Qltb (inject_Z (now - last_opt) / 3600) 24
              | None => false
              end).
    { cbn [negb]. intros [= _ _ <-]. apply quiet_refl. }
    destruct (_get_table_stats T db table_name) as [st0 db0] eqn:E0.
    apply get_table_stats_quiet in E0.
    destruct (match st0 with Some s => row_count s | None => 0%Z end <? 100)%Z;
      cbn [negb].
    { intros [= _ _ <-]. assumption. }
    destruct (_get_table_stats T db0 table_name) as [st db1] eqn:E1.
    apply get_table_stats_quiet in E1.
    destruct st as [st|]; [|intros [= _ _ <-]; eauto using quiet_trans].
    destruct (_apply_index_strategy T db1 table_name
                (_determine_index_strategy st) st) as [r2 db2] eqn:E2.
    apply apply_index_strategy_quiet in E2.
    intros [= _ _ <-]. eauto using quiet_trans.
Qed.

End ProvisioningFacts.

Section EnsureTable.
Import PyStr Py VectorStore VectorIndexOptimizer EmbeddingUtils.

Variable T : Z -> Z.
Hypothesis T_plus_4 : forall d, T d = (d + 4)%Z.

(** The table has the required dimension: two catalog queries, nothing
    else. *)
Lemma needs_recreation_same db table_name d :
  (0 < d)%Z ->
  declared_dimension db table_name = Some d ->
  needs_recreation T db table_name d
  = (false,
     {| tables := tables db; indexes := indexes db;
        trace := trace db ++ [SelectEmbeddingColumn table_name;
                              SelectEmbeddingTypmod table_name] |}).
Proof using T_plus_4.
  intros Hd Hdecl. unfold declared_dimension in Hdecl.
  destruct (tables db !! table_name) as [tb|] eqn:Et; [|discriminate].
  unfold needs_recreation, call_tool, run, record.
  cbn [tables indexes trace]. rewrite Et, Hdecl.
  cbn [success rows ok_rows nonempty andb tables indexes trace].
  rewrite Et, Hdecl.
  cbn [success rows ok_rows nonempty andb current_dim_of].
  rewrite T_plus_4.
  destruct (d + 4 =? 0)%Z eqn:E0; [apply Z.eqb_eq in E0; lia|].
  unfold dim_differs. replace (d + 4 - 4)%Z with d by lia.
  rewrite Z.eqb_refl. cbn [negb]. now rewrite <- app_assoc.
Qed.

(** The table is missing, has no embedding column or has another
    dimension: it has to be re-created. *)
Lemma needs_recreation_other db table_name d :
  declared_dimension db table_name <> Some d ->
  exists checks db1,
    needs_recreation T db table_name d = (true, db1)
    /\ tables db1 = tables db
    /\ indexes db1 = indexes db
    /\ trace db1 = trace db ++ checks
    /\ forallb (fun st => negb (creates_vector_index st)) checks = true.
Proof using T_plus_4.
  intros Hdecl. unfold declared_dimension in Hdecl.
  unfold needs_recreation, call_tool, run, record.
  cbn [tables indexes trace].
  destruct (tables db !! table_name) as [tb|] eqn:Et.
  - destruct (embedding_dimension tb) as [d'|] eqn:Ed.
    + cbn [success rows ok_rows nonempty andb tables indexes trace].
      rewrite Et, Ed.
      cbn [success rows ok_rows nonempty andb current_dim_of].
      rewrite T_plus_4.
      assert (Hdiff : dim_differs
                (if (d' + 4 =? 0)%Z then None else Some (d' + 4 - 4)%Z) d
              = true).
      { destruct (d' + 4 =? 0)%Z; [reflexivity|]. unfold dim_differs.
        replace (d' + 4 - 4)%Z with d' by lia.
        destruct (d' =? d)%Z eqn:E; [|reflexivity].
        apply Z.eqb_eq in E. congruence. }
      rewrite Hdiff.
      exists [SelectEmbeddingColumn table_name;
              SelectEmbeddingTypmod table_name]. eexists.
      split; [reflexivity|]. cbn [tables indexes trace].
      repeat split; auto. now rewrite <- app_assoc.
    + exists [SelectEmbeddingColumn table_name]. eexists.
      split; [reflexivity|]. cbn [tables indexes trace]. repeat split; auto.
  - exists [SelectEmbeddingColumn table_name]. eexists.
    split; [reflexivity|]. cbn [tables indexes trace]. repeat split; auto.
Qed.

Lemma basic_indexes_keep table_name cols :
  forallb keeps_tables (basic_indexes table_name cols) = true.
Proof.
  unfold basic_indexes. destruct (dict_mem cols (u "user_id")); reflexivity.
Qed.

Lemma basic_indexes_not_vector table_name cols :
  forallb (fun st => negb (creates_vector_index st))
          (basic_indexes table_name cols) = true.
Proof.
  unfold basic_indexes. destruct (dict_mem cols (u "user_id")); reflexivity.
Qed.

(** Re-creation: the statements sent and the table that results. *)
Lemma ensure_table_recreates now db table_name d cols :
  (0 < d)%Z ->
  declared_dimension db table_name <> Some d ->
  exists db' checks rest,
    ensure_table_with_dimension T now db table_name d (Some cols)
    = (true, db')
    /\ tables db' = <[table_name := fresh_table d cols]> (tables db)
    /\ trace db'
       = trace db
         ++ (checks ++ [DropTableIfExistsCascade table_name;
                        CreateTable table_name d cols]
                    ++ basic_indexes table_name cols)
         ++ rest
    /\ forallb (fun st => negb (creates_vector_index st))
               (checks ++ [DropTableIfExistsCascade table_name;
                           CreateTable table_name d cols]
                       ++ basic_indexes table_name cols) = true.
Proof using T_plus_4.
  intros Hd Hdecl.
  destruct (needs_recreation_other db table_name d Hdecl)
    as (checks & db1 & Hneeds & Ht1 & Hi1 & Htr1 & Hnv).
  unfold ensure_table_with_dimension. rewrite Hneeds.
  unfold call_tool at 1 2, run, record. cbn [tables indexes trace].
  rewrite lookup_delete_eq.
  assert (H1 : (1 <=? d)%Z = true) by (apply Z.leb_le; lia).
  rewrite H1. cbn [success ok_rows].
  set (db3 := {| tables := <[table_name := _]> (delete table_name (tables db1));
                 indexes := _; trace := _ |}).
  pose proof (send_all_quiet T db3 (basic_indexes table_name cols)
                (basic_indexes_keep table_name cols)) as [Ht4 _].
  pose proof (send_all_trace T db3 (basic_indexes table_name cols)) as Htr4.
  set (db4 := send_all T db3 (basic_indexes table_name cols)) in *.
  destruct (optimize_memory_index T new_optimizer now db4 table_name true)
    as [[r o] db5] eqn:E5.
  apply optimize_memory_index_quiet in E5 as [Ht5 [s5 Htr5]].
  set (db6 := if optimized r then db5
              else snd (call_tool T db5 (fallback_vector_index table_name))).
  assert (Q6 : quiet db5 db6).
  { subst db6. destruct (optimized r); [apply quiet_refl|].
    now apply call_tool_quiet. }
  destruct Q6 as [Ht6 [s6 Htr6]].
  exists db6, checks, (s5 ++ s6). split; [reflexivity|]. split; [|split].
  - rewrite Ht6, Ht5, Ht4. subst db3. cbn [tables].
    rewrite Ht1. apply insert_delete_eq.
  - rewrite Htr6, Htr5, Htr4. subst db3. cbn [trace]. rewrite Htr1.
    rewrite <- !app_assoc. reflexivity.
  - rewrite !forallb_app, Hnv, basic_indexes_not_vector. reflexivity.
Qed.

(** The table is in place: nothing is changed. *)
Lemma ensure_table_untouched now db table_name d additional_columns :
  (0 < d)%Z ->
  declared_dimension db table_name = Some d ->
  exists db',
    ensure_table_with_dimension T now db table_name d additional_columns
    = (true, db')
    /\ tables db' = tables db
    /\ indexes db' = indexes db
    /\ trace db' = trace db ++ [SelectEmbeddingColumn table_name;
                                SelectEmbeddingTypmod table_name].
Proof using T_plus_4.
  intros Hd Hdecl. unfold ensure_table_with_dimension.
  rewrite (needs_recreation_same db table_name d Hd Hdecl).
  eexists. split; [reflexivity|]. cbn [tables indexes trace]. auto.
Qed.

End EnsureTable.

Section RetrievalFacts.
Import PyStr Py VectorStore VectorIndexOptimizer EmbeddingUtils.

Variable T : Z -> Z.
Variable similarity : list Q -> list Q -> Q.
Variable rag_generate_embedding : str -> str -> option (list Q).

Lemma search_fresh_table db table d cols qv limit threshold filters :
  tables db !! table = Some (fresh_table d cols) ->
  match results (db_search_vectors similarity db table qv limit threshold
                                   filters) with
  | Some r => r
  | None => []
  end = [].
Proof.
  intros Ht. unfold db_search_vectors. destruct qv as [|x qv]; [reflexivity|].
  rewrite Ht. cbn [fresh_table table_rows forallb filter map andb].
  destruct (0 <=? limit)%Z; cbn [results]; [|reflexivity].
  unfold order_hits. cbn [fold_left]. now destruct (Z.to_nat limit).
Qed.

End RetrievalFacts.

Section ProvisioningExamples.
Import PyStr Py VectorStore VectorIndexOptimizer EmbeddingUtils.

(** The statements of that re-creation, in order: the retrieval path's
    columns have no [importance], the statistics query of the optimizer
    fails, and the fallback IVFFlat index is created last. *)
Example recreation_trace :
  trace (snd (ensure_table_with_dimension typmod_plus_4 0%Z example_db
                (u "user_memories") 3%Z (Some user_memories_columns)))
  = [ SelectEmbeddingColumn (u "user_memories");
      SelectEmbeddingTypmod (u "user_memories");
      DropTableIfExistsCascade (u "user_memories");
      CreateTable (u "user_memories") 3%Z user_memories_columns;
      CreateIndex (u "idx_user_memories_metadata") (u "user_memories")
                  (Gin (u "metadata"));
      CreateIndex (u "idx_user_memories_created_at") (u "user_memories")
                  (Btree [ (u "created_at", true) ]);
      CreateIndex (u "idx_user_memories_user_id") (u "user_memories")
                  (Btree [ (u "user_id", false) ]);
      SelectTableStats (u "user_memories");
      CreateIndex (u "idx_user_memories_embedding") (u "user_memories")
                  (Ivfflat 100%Z) ].
Proof. vm_compute. reflexivity. Qed.

(** With the default [additional_columns=None] the table is re-created,
    the membership test on [None] raises, and the function returns
    [False] having created no index. *)
Example recreation_without_columns :
  let '(ok, db') :=
    ensure_table_with_dimension typmod_plus_4 0%Z example_db
                                (u "user_memories") 3%Z None in
  ok = false
  /\ tables db' !! u "user_memories" = Some (fresh_table 3%Z [])
  /\ indexes db' = [].
Proof. vm_compute. repeat split; reflexivity. Qed.

End ProvisioningExamples.

(** ** Event stream *)

Section EventFacts.
Import PyStr Py MemoryEventStream.

Lemma put_never_raises q item : put q item <> RaisesQueueFull.
Proof. unfold put. destruct (full q); discriminate. Qed.

(** The handler of [QueueFull] never runs: no loop of [emit_event] adds a
    warning. *)
Lemma deliver_warnings event warning qs s w :
  match deliver event warning qs s w with
  | Completed _ w' | Suspended _ w' _ => w' = w
  end.
Proof.
  revert s. induction qs as [|a qs IH]; intros s; simpl; [reflexivity|].
  destruct (queues s !! a) as [q|]; [|apply IH].
  unfold put. destruct (full q); [reflexivity|apply IH].
Qed.

Lemma deliver_frame event warning qs s w :
  match deliver event warning qs s w with
  | Completed s' _ | Suspended s' _ _ =>
      _subscriptions s' = _subscriptions s
      /\ _session_subscriptions s' = _session_subscriptions s
      /\ _global_subscriptions s' = _global_subscriptions s
  end.
Proof.
  revert s. induction qs as [|a qs IH]; intros s; simpl; [auto|].
  destruct (queues s !! a) as [q|]; [|apply IH].
  unfold put. destruct (full q); [auto|].
  specialize (IH (set_queue s a {| maxsize := maxsize q;
                                   items := items q ++ [event] |})).
  destruct (deliver event warning qs _ w); exact IH.
Qed.

(** A loop that completes met no full queue and left the full queues of
    the stream as they were. *)
Lemma deliver_completed event warning qs s w s' w' :
  deliver event warning qs s w = Completed s' w' ->
  forall a q, queues s !! a = Some q -> full q = true ->
    queues s' !! a = Some q /\ ~ In a qs.
Proof.
  revert s. induction qs as [|b qs IH]; intros s; simpl.
  - intros [= <- _] a q Ha _. auto.
  - destruct (queues s !! b) as [qb|] eqn:Eb.
    + unfold put. destruct (full qb) eqn:Efull; [discriminate|].
      intros Hd a q Ha Hfull.
      assert (Hne : b <> a) by (intros ->; congruence).
      destruct (IH _ Hd a q) as [H1 H2]; auto.
      * unfold set_queue. cbn [queues]. now rewrite lookup_insert_ne.
      * split; [assumption|]. intros [?|?]; [congruence|contradiction].
    + intros Hd a q Ha Hfull.
      assert (Hne : b <> a) by (intros ->; congruence).
      destruct (IH _ Hd a q) as [H1 H2]; auto.
      split; [assumption|]. intros [?|?]; [congruence|contradiction].
Qed.

(** A full queue among those a loop visits suspends the loop. *)
Lemma deliver_suspends event warning qs s w a q :
  In a qs -> queues s !! a = Some q -> full q = true ->
  exists s' b, deliver event warning qs s w = Suspended s' w b.
Proof.
  intros Hin Ha Hfull.
  pose proof (deliver_warnings event warning qs s w) as Hw.
  destruct (deliver event warning qs s w) as [s' w'|s' w' b] eqn:E.
  - exfalso. destruct (deliver_completed _ _ _ _ _ _ _ E a q Ha Hfull).
    contradiction.
  - subst w'. eauto.
Qed.

(** Whenever the queue of a matching subscription is full, [emit_event]
    does not return: the producer is suspended in [queue.put]. *)
Lemma emit_event_suspends s event a q :
  In a (matching_queues s event) ->
  queues s !! a = Some q -> full q = true ->
  exists s' b, emit_event s event = Suspended s' [] b.
Proof.
  intros Hin Ha Hfull. unfold emit_event, matching_queues in *.
  set (qs1 := match _subscriptions s !! user_id event with
              | Some qs => qs | None => [] end) in *.
  assert (E1 : match _subscriptions s !! user_id event with
               | Some qs =>
                   deliver event (u "Queue full for user " ++ user_id event)
                           qs s []
               | None => Completed s []
               end
               = deliver event (u "Queue full for user " ++ user_id event)
                         qs1 s []).
  { subst qs1. now destruct (_subscriptions s !! user_id event). }
  rewrite E1. clear E1.
  pose proof (deliver_warnings event
                (u "Queue full for user " ++ user_id event) qs1 s []) as Hw1.
  pose proof (deliver_frame event
                (u "Queue full for user " ++ user_id event) qs1 s []) as Hf1.
  destruct (deliver event (u "Queue full for user " ++ user_id event)
                    qs1 s []) as [s1 w1|s1 w1 b1] eqn:D1;
    [|subst w1; cbn [and_then]; eauto].
  subst w1. cbn [and_then].
  destruct (deliver_completed _ _ _ _ _ _ _ D1 a q Ha Hfull) as [Ha1 Hn1].
  destruct Hf1 as (_ & Hss & Hg).
  apply in_app_or in Hin as [Hin|Hin]; [contradiction|].
  set (qs2 := match session_id event with
              | Some (c :: sid) =>
                  match _session_subscriptions s !! (c :: sid) with
                  | Some qs => qs | None => [] end
              | _ => [] end) in *.
  set (wn2 := match session_id event with
              | Some sid => u "Queue full for session " ++ sid
              | None => [] end).
  assert (E2 : match session_id event with
               | Some (c :: sid) =>
                   match _session_subscriptions s1 !! (c :: sid) with
                   | Some qs =>
                       deliver event
                               (u "Queue full for session " ++ (c :: sid))
                               qs s1 []
                   | None => Completed s1 []
                   end
               | _ => Completed s1 []
               end = deliver event wn2 qs2 s1 []).
  { subst qs2 wn2. rewrite Hss.
    destruct (session_id event) as [[|c sid]|]; try reflexivity.
    now destruct (_session_subscriptions s !! (c :: sid)). }
  rewrite E2. clear E2.
  pose proof (deliver_warnings event wn2 qs2 s1 []) as Hw2.
  pose proof (deliver_frame event wn2 qs2 s1 []) as Hf2.
  destruct (deliver event wn2 qs2 s1 []) as [s2 w2|s2 w2 b2] eqn:D2;
    [|subst w2; cbn [and_then]; eauto].
  subst w2. cbn [and_then].
  destruct (deliver_completed _ _ _ _ _ _ _ D2 a q Ha1 Hfull) as [Ha2 Hn2].
  destruct Hf2 as (_ & _ & Hg2).
  apply in_app_or in Hin as [Hin|Hin]; [contradiction|].
  rewrite Hg2, Hg.
  eapply deliver_suspends; eauto.
Qed.

End EventFacts.

Section EventExamples.
Import PyStr Py MemoryEventStream.

(** A subscription of capacity 1 for user u1, then two events for u1
    with no consumer taking any: the first is stored, the second finds
    the queue full -- [emit_event] is suspended in [queue.put], drops
    nothing and logs nothing. *)
Theorem C2_emit_suspends_on_full_queue :
  let '(a, s0) := subscribe_user new_stream (u "u1") 1 in
  exists s1,
    emit_event s0 (example_event (u "m1")) = Completed s1 []
    /\ (exists q, queues s1 !! a = Some q /\ full q = true)
    /\ emit_event s1 (example_event (u "m2")) = Suspended s1 [] a.
Proof.
  vm_compute. eexists. split; [reflexivity|].
  split; [eexists; split; reflexivity|reflexivity].
Qed.

(** With [put_nowait] in place of [put] the handler would run. *)
Example put_nowait_raises :
  put_nowait {| maxsize := 1; items := [example_event (u "m1")] |}
             (example_event (u "m2")) = RaisesQueueFull.
Proof. reflexivity. Qed.

End EventExamples.

(** * Further properties *)

(** ** Paths and the keyword map *)

Section PathFacts.
Import PyStr Py HierarchicalMemoryTypes ClassifierSpec HierarchicalStrategies.

Lemma split_on_aux_app sep a rest cur :
  forallb (fun c => negb (c =? sep)%N) a = true ->
  split_on_aux sep (a ++ sep :: rest) cur
  = (rev cur ++ a) :: split_on_aux sep rest [].
Proof.
  revert cur. induction a as [|c a IH]; intros cur H; simpl.
  - rewrite N.eqb_refl. now rewrite app_nil_r.
  - simpl in H. apply andb_true_iff in H as [Hc Ha].
    apply negb_true_iff in Hc. rewrite Hc, IH by assumption.
    simpl. now rewrite <- app_assoc.
Qed.

Lemma split_on_aux_last sep a cur :
  forallb (fun c => negb (c =? sep)%N) a = true ->
  split_on_aux sep a cur = [rev cur ++ a].
Proof.
  revert cur. induction a as [|c a IH]; intros cur H; simpl.
  - now rewrite app_nil_r.
  - simpl in H. apply andb_true_iff in H as [Hc Ha].
    apply negb_true_iff in Hc. rewrite Hc, IH by assumption.
    simpl. now rewrite <- app_assoc.
Qed.

(** X1. Round trip: the path of a classification whose three names hold
    no [/] splits back into those names. *)
Theorem to_path_split_path c :
  no_slash (major c) = true -> no_slash (minor c) = true ->
  no_slash (detail c) = true ->
  split_path (to_path c) = Ok (major c, minor c, detail c).
Proof.
  intros HM Hm Hd. unfold split_path, to_path, split_on.
  change (u "/") with [47%N]. cbn [app].
  rewrite split_on_aux_app by exact HM.
  rewrite split_on_aux_app by exact Hm.
  rewrite split_on_aux_last by exact Hd. reflexivity.
Qed.

Lemma to_path_split_path_witness :
  split_path (to_path {| major := u "personal"; minor := u "identity";
                         detail := u "name"; confidence := 1 |})
  = Ok (u "personal", u "identity", u "name").
Proof.
  apply (to_path_split_path {| major := u "personal"; minor := u "identity";
                               detail := u "name"; confidence := 1 |});
    reflexivity.
Defined.

(** A name with a [/] in it breaks the round trip: the path has more than
    three parts and [split_path] raises. *)
Example split_path_four_parts :
  split_path (to_path {| major := u "a/b"; minor := u "c"; detail := u "d";
                         confidence := 1 |}) = Raise ValueError.
Proof. reflexivity. Qed.

Lemma dict_get_keyword_map_add km path k kw :
  dict_get (keyword_map_add km path k) kw
  = if str_eqb k kw
    then extend_entry (dict_get km kw) [path]
    else dict_get km kw.
Proof.
  unfold keyword_map_add. destruct (str_eqb k kw) eqn:E.
  - apply str_eqb_eq in E. subst k.
    destruct (dict_get km kw); now rewrite dict_get_set_eq.
  - apply str_eqb_neq in E.
    destruct (dict_get km k); now rewrite dict_get_set_ne.
Qed.

Lemma extend_entry_app e l1 l2 :
  extend_entry (extend_entry e l1) l2 = extend_entry e (l1 ++ l2).
Proof.
  destruct e as [ps|], l1 as [|x l1], l2 as [|y l2]; simpl;
    rewrite ?app_nil_r, <- ?app_assoc; reflexivity.
Qed.

Lemma dict_get_fold_keywords path kws km kw :
  dict_get (fold_left (fun km' keyword => keyword_map_add km' path keyword)
                      kws km) kw
  = extend_entry (dict_get km kw)
      (map fst (List.filter (fun '(_, k) => str_eqb k kw)
                            (map (fun k => (path, k)) kws))).
Proof.
  revert km. induction kws as [|k kws IH]; intros km.
  - reflexivity.
  - cbn [fold_left map List.filter]. rewrite IH, dict_get_keyword_map_add.
    destruct (str_eqb k kw).
    + rewrite extend_entry_app. reflexivity.
    + reflexivity.
Qed.

Lemma dict_get_fold_leaves ls km kw :
  dict_get
    (fold_left (fun km '(path, keywords) =>
                  fold_left (fun km' keyword => keyword_map_add km' path keyword)
                            keywords km) ls km) kw
  = extend_entry (dict_get km kw) (owners ls kw).
Proof.
  revert km. induction ls as [|[path kws] ls IH]; intros km.
  - reflexivity.
  - cbn [fold_left]. rewrite IH, dict_get_fold_keywords, extend_entry_app.
    unfold owners. cbn [leaf_pairs flat_map].
    now rewrite List.filter_app, map_app.
Qed.

Lemma keyword_map_add_NoDup km path k :
  List.NoDup (map fst km) -> List.NoDup (map fst (keyword_map_add km path k)).
Proof.
  intros H. unfold keyword_map_add.
  destruct (dict_get km k); now apply dict_set_NoDup.
Qed.

Lemma build_keyword_map_NoDup tree :
  List.NoDup (map fst (build_keyword_map tree)).
Proof.
  unfold build_keyword_map.
  assert (G : forall ls km, List.NoDup (map fst km) ->
            List.NoDup (map fst
              (fold_left (fun km '(path, keywords) =>
                 fold_left (fun km' keyword => keyword_map_add km' path keyword)
                           keywords km) ls km))).
  { induction ls as [|[path kws] ls IH]; intros km H; [exact H|].
    cbn [fold_left]. apply IH. clear IH. revert km H.
    induction kws as [|k kws IHk]; intros km H; [exact H|].
    cbn [fold_left]. apply IHk. now apply keyword_map_add_NoDup. }
  apply G. constructor.
Qed.

(** X2. For any tree, [_build_keyword_map] gives every keyword one entry,
    holding the paths of the leaves that list it, in the order of the
    tree; a keyword no leaf lists has no entry. *)
Theorem build_keyword_map_owners tree kw :
  dict_get (build_keyword_map tree) kw
  = match owners (leaves tree) kw with
    | [] => None
    | ps => Some ps
    end
  /\ List.NoDup (map fst (build_keyword_map tree)).
Proof.
  split; [|apply build_keyword_map_NoDup].
  unfold build_keyword_map. rewrite dict_get_fold_leaves.
  cbn [dict_get extend_entry]. now destruct (owners (leaves tree) kw).
Qed.

(** A keyword two leaves list maps to both. *)
Example keyword_shared_by_two_leaves :
  dict_get keyword_map (u "현재")
  = Some [u "knowledge/fact/current"; u "temporal/context/current"].
Proof. vm_compute. reflexivity. Qed.

End PathFacts.

(** ** The fallback policy and the context boosts *)

Section FallbackFacts.
Import PyStr Py HierarchicalMemoryTypes ClassifierSpec HierarchicalStrategies.
Local Open Scope Q_scope.

Lemma Qsum_ge_member (f : str -> Q) (l : list str) (x : str) :
  (forall y, 0 <= f y) -> In x l -> f x <= Qsum (map f l).
Proof.
  intros Hf. induction l as [|y l IH]; simpl; [tauto|].
  intros [->|Hin].
  - assert (H : 0 <= Qsum (map f l)).
    { apply Qsum_nonneg. apply List.Forall_forall. intros z Hz.
      apply in_map_iff in Hz as [w [<- _]]. apply Hf. }
    lra.
  - specialize (IH Hin). pose proof (Hf y). lra.
Qed.

Lemma session_factor_ge_1 types p : 1 <= session_factor types p.
Proof.
  induction types as [|t types IH]; simpl; [lra|].
  destruct (str_eqb t p); nra.
Qed.

Lemma context_factor_ge_1 context p : 1 <= context_factor context p.
Proof.
  destruct context as [[prev types]|]; simpl; [|lra].
  assert (H1 : 1 <= match prev with
                    | Some prev0 => if str_eqb prev0 p then 1.5 else 1
                    | None => 1 end).
  { destruct prev as [prev|]; [destruct (str_eqb prev p)|]; lra. }
  assert (H2 : 1 <= match types with
                    | Some ts => session_factor ts p
                    | None => 1 end).
  { destruct types; [apply session_factor_ge_1 | lra]. }
  nra.
Qed.

Lemma py_min_mono (a b : Q) : a <= b -> py_min a 1.0 <= py_min b 1.0.
Proof.
  intros H. unfold py_min.
  destruct (Qlt_le_dec 1.0 a), (Qlt_le_dec 1.0 b); lra.
Qed.

Variable lower : str -> str.

(** X3. The first rule of the fallback policy is unreachable: when the
    utterance contains a question mark (and lower-casing keeps it), the
    keyword [?] of temporal/conversation/question occurs, so the scores
    are not empty and the result comes from scoring, with a confidence of
    at least 0.1/3. *)
Theorem question_mark_always_scores content context :
  (forall s, contains (u "?") s = true -> contains (u "?") (lower s) = true) ->
  contains (u "?") content = true ->
  any_keyword_matches (lower content) = true
  /\ exists mc,
       classify lower content context = Ok mc
       /\ has_match (lower content) (to_path mc) = true
       /\ 1 # 30 <= confidence mc.
Proof.
  intros Hlower Hq. apply Hlower in Hq.
  assert (Hany : any_keyword_matches (lower content) = true).
  { unfold any_keyword_matches. apply existsb_exists. exists (u "?").
    split; [vm_compute; tauto | exact Hq]. }
  split; [exact Hany|].
  destruct (classify_matched lower content context Hany)
    as (p & s & M & m & d & Hc & _ & Hjoin & _ & Hm & Hs & Hmax).
  eexists. split; [exact Hc|].
  unfold to_path. cbn [major minor detail confidence]. rewrite Hjoin.
  split; [exact Hm|].
  assert (Hs1 : 1 # 10 <= s).
  { eapply Qle_trans; [|apply (Hmax (u "temporal/conversation/question"))].
    unfold spec_score.
    assert (Hb : 1 # 10 <= base_score (lower content)
                                      (u "temporal/conversation/question")).
    { eapply Qle_trans;
        [|apply (Qsum_ge_member (keyword_contribution (lower content))
                   (keywords_of (u "temporal/conversation/question"))
                   (u "?"));
          [apply keyword_contribution_nonneg | vm_compute; tauto]].
      unfold keyword_contribution. rewrite Hq. unfold keyword_weight.
      change (length (u "?")) with 1%nat.
      destruct (startswith (lower content) (u "?")); vm_compute;
        discriminate. }
    pose proof (context_factor_ge_1 context
                  (u "temporal/conversation/question")).
    nra. }
  unfold py_min. destruct (Qlt_le_dec 1.0 (s / 3.0)); [lra|].
  rewrite div3. lra.
Qed.

(** X4. Supplying a context never lowers the confidence: every boost
    multiplies a score by at least 1, so the best score with the context
    is at least the best score without. *)
Theorem context_never_lowers_confidence content context :
  exists mc mc0,
    classify lower content context = Ok mc
    /\ classify lower content None = Ok mc0
    /\ confidence mc0 <= confidence mc.
Proof.
  destruct (any_keyword_matches (lower content)) eqn:Hany.
  - destruct (classify_matched lower content context Hany)
      as (p & s & M & m & d & Hc & _ & _ & _ & _ & Hs & Hmax).
    destruct (classify_matched lower content None Hany)
      as (p0 & s0 & M0 & m0 & d0 & Hc0 & _ & _ & _ & _ & Hs0 & _).
    eexists. eexists. split; [exact Hc|]. split; [exact Hc0|].
    cbn [confidence]. apply py_min_mono. rewrite !div3.
    assert (H : s0 <= s).
    { rewrite Hs0. eapply Qle_trans; [|apply (Hmax p0)].
      unfold spec_score. cbn [context_factor].
      pose proof (base_score_nonneg (lower content) p0).
      pose proof (context_factor_ge_1 context p0). nra. }
    lra.
  - exists (fallback content), (fallback content).
    rewrite !classify_unmatched by assumption.
    repeat split; apply Qle_refl.
Qed.

End FallbackFacts.

Section FallbackExamples.
Import PyStr Py HierarchicalMemoryTypes ClassifierSpec.
Local Open Scope Q_scope.

Lemma contains_question_mark (c : cp) (s : str) :
  contains [63%N] (c :: s) = (63 =? c)%N || contains [63%N] s.
Proof.
  cbn [contains startswith].
  assert (E : startswith s [] = true) by (destruct s; reflexivity).
  rewrite E, andb_true_r. reflexivity.
Qed.

Lemma lower_ascii_keeps_question_mark s :
  contains (u "?") s = true -> contains (u "?") (lower_ascii s) = true.
Proof.
  change (u "?") with [63%N].
  induction s as [|c s IH]; [auto|].
  change (lower_ascii (c :: s)) with (lower_ascii_cp c :: lower_ascii s).
  rewrite !contains_question_mark.
  intros H. apply orb_true_iff in H as [H|H].
  - apply N.eqb_eq in H. subst c. reflexivity.
  - rewrite (IH H). apply orb_true_r.
Qed.

Lemma question_mark_always_scores_witness :
  any_keyword_matches (lower_ascii (u "zzz?")) = true
  /\ exists mc,
       classify lower_ascii (u "zzz?") None = Ok mc
       /\ has_match (lower_ascii (u "zzz?")) (to_path mc) = true
       /\ 1 # 30 <= confidence mc.
Proof.
  apply (question_mark_always_scores lower_ascii (u "zzz?") None).
  - exact lower_ascii_keeps_question_mark.
  - reflexivity.
Defined.

End FallbackExamples.

(** ** The storage planner *)

Section StoragePolicyFacts.
Import PyStr Py StorageStrategyModel StoragePolicy.

Lemma contains_char_cons (c d : cp) (s : str) :
  contains [c] (d :: s) = (c =? d)%N || contains [c] s.
Proof.
  cbn [contains startswith].
  destruct (c =? d)%N; [|reflexivity]. destruct s; reflexivity.
Qed.

Lemma contains_char (c : cp) (s : str) :
  contains [c] s = existsb (N.eqb c) s.
Proof.
  induction s as [|d s IH]; [reflexivity|].
  rewrite contains_char_cons, IH. reflexivity.
Qed.

Lemma existsb_occurrences (c : cp) (s : str) :
  existsb (N.eqb c) s = negb (occurrences c s =? 0)%nat.
Proof.
  unfold occurrences. induction s as [|d s IH]; [reflexivity|].
  cbn [existsb List.filter]. destruct (c =? d)%N; [reflexivity|].
  exact IH.
Qed.

Lemma split_on_aux_length sep s cur :
  length (split_on_aux sep s cur) = S (occurrences sep s).
Proof.
  unfold occurrences. revert cur.
  induction s as [|d s IH]; intros cur; [reflexivity|].
  cbn [split_on_aux List.filter]. rewrite (N.eqb_sym sep d).
  destruct (d =? sep)%N; cbn [length]; now rewrite IH.
Qed.

Lemma default_shares self importance content_size h :
  exists a, In a (table_addrs self)
    /\ _get_default_strategy self importance content_size h = Ok (a, h).
Proof.
  unfold _get_default_strategy, table_addrs.
  destruct (Qgeb importance 8); [|destruct (Qgeb importance 6);
    [destruct (content_size >? 1000)%Z|destruct (Qgeb importance 4)]];
    eexists; (split; [|reflexivity]); simpl; tauto.
Qed.

Ltac shared := left; eexists; (split; [|reflexivity]); simpl; tauto.

Lemma hierarchical_shares self major minor detail importance content_size h :
  (exists a, In a (table_addrs self)
     /\ _determine_hierarchical_strategy self major minor detail importance
                                         content_size h = Ok (a, h))
  \/ (major = u "knowledge" /\ minor = u "fact"
      /\ Qgeb importance 8 = false
      /\ _determine_hierarchical_strategy self major minor detail importance
                                          content_size h
         = new_strategy DB [] false true None false true h).
Proof.
  pose proof (default_shares self importance content_size h) as Hd.
  unfold _determine_hierarchical_strategy.
  destruct (str_eqb major (u "personal")).
  { destruct (str_eqb minor (u "identity")); [shared|].
    destruct (str_eqb minor (u "preference"));
      [destruct (Qgeb importance 7); shared|].
    destruct (str_eqb minor (u "profession")); [shared|]. now left. }
  destruct (str_eqb major (u "knowledge")) eqn:EK.
  { destruct (str_eqb minor (u "skill")); [shared|].
    destruct (str_eqb minor (u "experience"));
      [destruct (content_size >? 1000)%Z; shared|].
    destruct (str_eqb minor (u "fact")) eqn:EF; [|now left].
    destruct (Qgeb importance 8) eqn:E8; [shared|].
    right. apply str_eqb_eq in EK, EF. auto. }
  destruct (str_eqb major (u "temporal")); [|now left].
  destruct (str_eqb minor (u "conversation")); [shared|].
  destruct (str_eqb minor (u "context")); [shared|]. now left.
Qed.

Lemma flat_shares self memory_type importance content_size access_pattern h :
  exists a, In a (table_addrs self)
    /\ _determine_flat_strategy self memory_type importance content_size
                                access_pattern h = Ok (a, h).
Proof.
  pose proof (default_shares self importance content_size h) as Hd.
  unfold _determine_flat_strategy, table_addrs in *.
  destruct (str_eqb memory_type (u "conversation"));
    [eexists; (split; [|reflexivity]); simpl; tauto|].
  destruct (str_eqb memory_type (u "identity"));
    [eexists; (split; [|reflexivity]); simpl; tauto|].
  destruct (str_eqb memory_type (u "preference"));
    [eexists; (split; [|reflexivity]); simpl; tauto|].
  destruct (str_eqb memory_type (u "experience"));
    [destruct (content_size >? 1000)%Z;
     eexists; (split; [|reflexivity]); simpl; tauto|].
  destruct (str_eqb memory_type (u "context"));
    [eexists; (split; [|reflexivity]); simpl; tauto|].
  exact Hd.
Qed.

Lemma new_strategy_fresh primary secondary rag embedding ttl compression
    index h a h' :
  new_strategy primary secondary rag embedding ttl compression index h
  = Ok (a, h') ->
  objs h !! a = None.
Proof.
  unfold new_strategy, bind, alloc_list, alloc_obj. cbn [lists objs].
  intros [= <- _]. apply not_elem_of_dom, is_fresh.
Qed.

(** X5. [determine_strategy] raises exactly on a memory type with one
    [/] or more than two, and the exception is [ValueError]; with none or
    two it returns, whatever the names, the importance and the heap. *)
Theorem determine_strategy_value_error self memory_type importance
    content_size access_pattern h :
  match determine_strategy self memory_type importance content_size
                           access_pattern h with
  | Ok _ => occurrences 47%N memory_type = 0%nat
            \/ occurrences 47%N memory_type = 2%nat
  | Raise e => e = ValueError
               /\ occurrences 47%N memory_type <> 0%nat
               /\ occurrences 47%N memory_type <> 2%nat
  end.
Proof.
  unfold determine_strategy. change (u "/") with [47%N].
  rewrite contains_char, existsb_occurrences.
  pose proof (split_on_aux_length 47%N memory_type []) as Hlen.
  fold (split_on 47%N memory_type) in Hlen.
  destruct (occurrences 47%N memory_type) as [|n] eqn:En.
  - cbn [Nat.eqb negb].
    destruct (flat_shares self memory_type importance content_size
                access_pattern h) as (a & _ & ->). now left.
  - cbn [Nat.eqb negb].
    destruct (split_on 47%N memory_type) as [|x [|y [|z [|w l]]]];
      cbn [length] in Hlen; try (unfold raise; split; [reflexivity|lia]).
    assert (n = 1%nat) as -> by lia.
    destruct (hierarchical_shares self x y z importance content_size h)
      as [(a & _ & ->)|(_ & _ & _ & ->)]; [now right|].
    destruct (new_strategy_spec DB [] false true None false true h)
      as (a & h' & -> & _). now right.
Qed.

Lemma determine_strategy_cases self memory_type importance content_size
    access_pattern h a h' :
  determine_strategy self memory_type importance content_size
                     access_pattern h = Ok (a, h') ->
  (In a (table_addrs self) /\ h' = h)
  \/ (exists detail,
        split_on 47%N memory_type = [u "knowledge"; u "fact"; detail]
        /\ Qgeb importance 8 = false
        /\ new_strategy DB [] false true None false true h = Ok (a, h')).
Proof.
  unfold determine_strategy.
  destruct (contains (u "/") memory_type).
  - destruct (split_on 47%N memory_type) as [|x [|y [|z [|w l]]]];
      try discriminate.
    destruct (hierarchical_shares self x y z importance content_size h)
      as [(b & Hb & ->)|(-> & -> & H8 & ->)].
    + intros [= <- <-]. now left.
    + intros Hn. right. eauto.
  - destruct (flat_shares self memory_type importance content_size
                access_pattern h) as (b & Hb & ->).
    intros [= <- <-]. now left.
Qed.

Lemma hierarchical_exact self major minor detail importance content_size h :
  if str_eqb major (u "knowledge") && str_eqb minor (u "fact")
     && negb (Qgeb importance 8)
  then _determine_hierarchical_strategy self major minor detail importance
                                        content_size h
       = new_strategy DB [] false true None false true h
  else exists a, In a (table_addrs self)
         /\ _determine_hierarchical_strategy self major minor detail
                                             importance content_size h
            = Ok (a, h).
Proof.
  pose proof (default_shares self importance content_size h) as Hd.
  unfold _determine_hierarchical_strategy.
  destruct (str_eqb major (u "personal")) eqn:EP.
  { apply str_eqb_eq in EP. subst major.
    change (str_eqb (u "personal") (u "knowledge")) with false.
    cbn [andb].
    destruct (str_eqb minor (u "identity"));
      [eexists; (split; [|reflexivity]); simpl; tauto|].
    destruct (str_eqb minor (u "preference"));
      [destruct (Qgeb importance 7);
       eexists; (split; [|reflexivity]); simpl; tauto|].
    destruct (str_eqb minor (u "profession"));
      [eexists; (split; [|reflexivity]); simpl; tauto|exact Hd]. }
  destruct (str_eqb major (u "knowledge")); cbn [andb].
  { destruct (str_eqb minor (u "skill")) eqn:ES.
    { apply str_eqb_eq in ES. subst minor.
      change (str_eqb (u "skill") (u "fact")) with false. cbn [andb].
      eexists; (split; [|reflexivity]); simpl; tauto. }
    destruct (str_eqb minor (u "experience")) eqn:EE.
    { apply str_eqb_eq in EE. subst minor.
      change (str_eqb (u "experience") (u "fact")) with false. cbn [andb].
      destruct (content_size >? 1000)%Z;
        eexists; (split; [|reflexivity]); simpl; tauto. }
    destruct (str_eqb minor (u "fact")); cbn [andb]; [|exact Hd].
    destruct (Qgeb importance 8); cbn [negb]; [|reflexivity].
    eexists; (split; [|reflexivity]); simpl; tauto. }
  destruct (str_eqb major (u "temporal")); [|exact Hd].
  destruct (str_eqb minor (u "conversation"));
    [eexists; (split; [|reflexivity]); simpl; tauto|].
  destruct (str_eqb minor (u "context"));
    [eexists; (split; [|reflexivity]); simpl; tauto|exact Hd].
Qed.

(** X6. Which strategy object [determine_strategy] returns.  For
    knowledge/fact below importance 8, and only then, the result is a
    newly allocated strategy -- DB, no secondary location, embedding, no
    RAG, no TTL, no compression -- at an address the heap did not use, so
    it is none of the objects that were live, and every object the heap
    held is unchanged.  In every other case the result is one of the five
    objects of the table, shared with every other caller, and the heap is
    as it was. *)
Theorem determine_strategy_shares_table self memory_type importance
    content_size access_pattern h a h' :
  determine_strategy self memory_type importance content_size
                     access_pattern h = Ok (a, h') ->
  if gets_own_strategy memory_type importance
  then objs h !! a = None
       /\ strategy_is h' a DB [] false true None false true
       /\ (forall b x, view h b = Some x -> b <> a /\ view h' b = Some x)
  else In a (table_addrs self) /\ h' = h.
Proof.
  unfold determine_strategy, gets_own_strategy.
  destruct (contains (u "/") memory_type) eqn:Ec.
  - destruct (split_on 47%N memory_type) as [|x [|y [|z [|w l]]]];
      try discriminate.
    pose proof (hierarchical_exact self x y z importance content_size h)
      as Hx.
    destruct (str_eqb x (u "knowledge") && str_eqb y (u "fact")
              && negb (Qgeb importance 8)).
    + rewrite Hx. intros Hn.
      pose proof (new_strategy_fresh _ _ _ _ _ _ _ _ _ _ Hn) as Hf.
      destruct (new_strategy_spec DB [] false true None false true h)
        as (a' & h'' & E & Hv & Hm).
      rewrite E in Hn. injection Hn as <- <-.
      split; [exact Hf|]. split; [exact Hv|].
      intros b x0 Hb. split; [|now apply Hm].
      intros ->. unfold view in Hb. rewrite Hf in Hb. discriminate.
    + destruct Hx as (b & Hb & ->). intros [= <- <-]. auto.
  - assert (Hflat : match split_on 47%N memory_type with
                    | [major; minor; _] =>
                        str_eqb major (u "knowledge")
                        && str_eqb minor (u "fact")
                        && negb (Qgeb importance 8)
                    | _ => false
                    end = false).
    { unfold split_on. change (u "/") with [47%N] in Ec.
      rewrite split_on_aux_no_sep by exact Ec. reflexivity. }
    rewrite Hflat.
    destruct (flat_shares self memory_type importance content_size
                access_pattern h) as (b & Hb & ->).
    intros [= <- <-]. auto.
Qed.

Lemma strategy_is_coherent h a primary secondary rag embedding ttl
    compression index :
  strategy_is h a primary secondary rag embedding ttl compression index ->
  coherent {| primary_location := primary; secondary_locations := 1%positive;
              includes_rag := rag; includes_embedding := embedding;
              ttl_seconds := ttl; compression_enabled := compression;
              index_for_search := index |} secondary = true ->
  exists o l, view h a = Some (o, l) /\ coherent o l = true.
Proof. intros [l Hl] Hc. eexists. eexists. split; [exact Hl|exact Hc]. Qed.

Lemma table_coherent self h a :
  table_as_built self h -> In a (table_addrs self) ->
  exists o l, view h a = Some (o, l) /\ coherent o l = true.
Proof.
  intros [H1 H2 H3 H4 H5] Ha. unfold table_addrs in Ha. simpl in Ha.
  destruct Ha as [<-|[<-|[<-|[<-|[<-|[]]]]]];
    eapply strategy_is_coherent; eauto.
Qed.

(** X7. Every strategy the planner hands out for a table as [__init__]
    builds it is coherent: RAG is flagged exactly when it is a secondary
    location, search indexing goes with the embedding, and the strategy
    expires exactly when it lives in the cache, without an embedding. *)
Theorem determine_strategy_coherent h0 self h memory_type importance
    content_size access_pattern a h' :
  init h0 = Ok (self, h) ->
  determine_strategy self memory_type importance content_size
                     access_pattern h = Ok (a, h') ->
  exists o l, view h' a = Some (o, l) /\ coherent o l = true.
Proof.
  intros Hi H. apply init_table_of in Hi.
  apply determine_strategy_cases in H as [[Ha ->]|(d & _ & _ & Hn)].
  - exact (table_coherent self h a Hi Ha).
  - destruct (new_strategy_spec DB [] false true None false true h)
      as (a' & h'' & E & Hv & _).
    rewrite E in Hn. injection Hn as <- <-.
    eapply strategy_is_coherent; eauto.
Qed.

End StoragePolicyFacts.

(** ** What [optimize_strategy] assigns *)

Section OptimizeFacts.
Import PyStr Py StorageStrategyModel StoragePolicy.

Ltac run_heap :=
  repeat (progress cbn [lists objs secondary_locations includes_rag
                        primary_location includes_embedding ttl_seconds
                        compression_enabled index_for_search negb]
          || rewrite lookup_insert_eq).

(** [optimize_strategy] runs to the end on a strategy the heap holds, and
    the clone it returns holds the optimized fields. *)
Lemma optimize_strategy_run h s stats cur cur_list :
  objs h !! s = Some cur ->
  lists h !! secondary_locations cur = Some cur_list ->
  exists r h' copy,
    optimize_strategy s stats h = Ok (r, h')
    /\ view h' r
       = Some ({| primary_location := primary_location cur;
                  secondary_locations := copy;
                  includes_rag := optimized_rag stats (includes_rag cur);
                  includes_embedding := includes_embedding cur;
                  ttl_seconds := ttl_seconds cur;
                  compression_enabled :=
                    optimized_compression stats (compression_enabled cur);
                  index_for_search := index_for_search cur |},
               optimized_locations stats (includes_rag cur) cur_list).
Proof.
  intros Hs Hl. unfold optimize_strategy.
  unfold bind at 1, read_obj at 1. rewrite Hs.
  unfold bind at 1, read_list at 1. rewrite Hl.
  unfold bind at 1, alloc_list. cbn [lists objs].
  unfold bind at 1, alloc_obj. cbn [lists objs].
  set (copy := fresh (dom (lists h))). set (opt := fresh (dom (objs h))).
  exists opt. unfold optimized_rag, optimized_compression,
    optimized_locations.
  unfold secondary_has, append_secondary, remove_secondary, when,
    write_obj, write_list, read_obj, read_list, bind, ret, view.
  destruct (Qgtb (get_default (daily_access_count stats) 0) 10);
    [|destruct (Qgtb (get_default (days_since_last_access stats) 0) 30)];
    run_heap.
  - destruct (loc_in CACHE cur_list); run_heap;
      (destruct (Qltb (get_default (search_hit_rate stats) 0.0) 0.1
                 && includes_rag cur); run_heap;
       [match goal with |- context [loc_in RAG ?l] =>
          destruct (loc_in RAG l) end; run_heap|]);
      eexists; exists copy; (split; [reflexivity|]); run_heap; reflexivity.
  - destruct (loc_in ARCHIVE cur_list); run_heap;
      (match goal with |- context [loc_in CACHE ?l] =>
         destruct (loc_in CACHE l) end; run_heap);
      (destruct (Qltb (get_default (search_hit_rate stats) 0.0) 0.1
                 && includes_rag cur); run_heap;
       [match goal with |- context [loc_in RAG ?l] =>
          destruct (loc_in RAG l) end; run_heap|]);
      eexists; exists copy; (split; [reflexivity|]); run_heap; reflexivity.
  - destruct (Qltb (get_default (search_hit_rate stats) 0.0) 0.1
              && includes_rag cur); run_heap;
      [destruct (loc_in RAG cur_list); run_heap|];
      eexists; exists copy; (split; [reflexivity|]); run_heap; reflexivity.
Qed.

Lemma StorageLocation_eqb_eq a b : StorageLocation_eqb a b = true <-> a = b.
Proof. destruct a, b; simpl; split; congruence. Qed.

Lemma loc_in_count x l : loc_in x l = negb (loc_count x l =? 0)%nat.
Proof.
  unfold loc_in, loc_count. induction l as [|y l IH]; [reflexivity|].
  cbn [existsb List.filter]. destruct (StorageLocation_eqb x y);
    [reflexivity|exact IH].
Qed.

Lemma loc_count_app x l y :
  loc_count x (l ++ [y])
  = (loc_count x l + if StorageLocation_eqb x y then 1 else 0)%nat.
Proof.
  unfold loc_count. rewrite List.filter_app, length_app.
  cbn [List.filter]. destruct (StorageLocation_eqb x y); reflexivity.
Qed.

Lemma loc_count_remove x y l :
  loc_count x (loc_remove y l)
  = if StorageLocation_eqb x y then pred (loc_count x l) else loc_count x l.
Proof.
  unfold loc_count. induction l as [|z l IH]; cbn [loc_remove List.filter].
  - now destruct (StorageLocation_eqb x y).
  - destruct (StorageLocation_eqb z y) eqn:Ezy.
    + apply StorageLocation_eqb_eq in Ezy as ->.
      destruct (StorageLocation_eqb x y); reflexivity.
    + cbn [List.filter].
      destruct (StorageLocation_eqb x z) eqn:Exz; cbn [length].
      * apply StorageLocation_eqb_eq in Exz as ->. rewrite IH, Ezy.
        reflexivity.
      * exact IH.
Qed.

(** The access-pattern step of [optimize_strategy] on the list. *)
Lemma optimized_locations_count x stats rag l :
  loc_count x (optimized_locations stats rag l)
  = let freq := Qgtb (get_default (daily_access_count stats) 0) 10 in
    let old := Qgtb (get_default (days_since_last_access stats) 0) 30 in
    let drop := Qltb (get_default (search_hit_rate stats) 0.0) 0.1 && rag in
    match x with
    | CACHE => if freq then Nat.max 1 (loc_count CACHE l)
               else if old then pred (loc_count CACHE l)
               else loc_count CACHE l
    | ARCHIVE => if freq then loc_count ARCHIVE l
                 else if old then Nat.max 1 (loc_count ARCHIVE l)
                 else loc_count ARCHIVE l
    | RAG => if drop then pred (loc_count RAG l) else loc_count RAG l
    | DB => loc_count DB l
    end.
Proof.
  unfold optimized_locations. cbv zeta.
  destruct (Qgtb (get_default (daily_access_count stats) 0) 10);
    [|destruct (Qgtb (get_default (days_since_last_access stats) 0) 30)];
    destruct (Qltb (get_default (search_hit_rate stats) 0.0) 0.1 && rag);
    rewrite ?loc_in_count;
    destruct (loc_count CACHE l =? 0)%nat eqn:EC;
    destruct (loc_count ARCHIVE l =? 0)%nat eqn:EA;
    destruct (loc_count RAG l =? 0)%nat eqn:ER;
    cbn [negb]; repeat (rewrite loc_count_app || rewrite loc_count_remove);
    cbn [StorageLocation_eqb];
    repeat match goal with
      | |- context [(?n =? 0)%nat] =>
          let E := fresh "E" in
          destruct (n =? 0)%nat eqn:E; cbn [negb];
          repeat (rewrite loc_count_app || rewrite loc_count_remove);
          cbn [StorageLocation_eqb]
      end;
    repeat match goal with
      | H : (_ =? 0)%nat = true |- _ => apply Nat.eqb_eq in H
      | H : (_ =? 0)%nat = false |- _ => apply Nat.eqb_neq in H
      end;
    cbn [negb] in *;
    repeat match goal with
      | H : context [loc_count _ (_ ++ [_])] |- _ =>
          rewrite loc_count_app in H
      | H : context [loc_count _ (loc_remove _ _)] |- _ =>
          rewrite loc_count_remove in H
      end;
    destruct x; cbn [StorageLocation_eqb] in *; lia.
Qed.

(** X8. What [optimize_strategy] does to a strategy the heap holds.  It
    always returns.  Accessed more than 10 times a day: CACHE is among
    the secondary locations, once more than before at most, and
    compression is as it was.  Otherwise, not accessed for more than 30
    days: ARCHIVE is among them, one CACHE entry is gone and compression
    is on.  Neither: the list changes at most by RAG and compression is
    as it was.  The RAG flag survives only a search hit rate of at least
    0.1; the rate defaults to 0.0, so statistics without one clear the
    flag. *)
Theorem optimize_strategy_effect h s stats cur cur_list :
  objs h !! s = Some cur ->
  lists h !! secondary_locations cur = Some cur_list ->
  exists r h' o l,
    optimize_strategy s stats h = Ok (r, h')
    /\ view h' r = Some (o, l)
    /\ (if Qgtb (get_default (daily_access_count stats) 0) 10 then
          loc_in CACHE l = true
          /\ loc_count CACHE l = Nat.max 1 (loc_count CACHE cur_list)
          /\ loc_count ARCHIVE l = loc_count ARCHIVE cur_list
          /\ compression_enabled o = compression_enabled cur
        else if Qgtb (get_default (days_since_last_access stats) 0) 30 then
          loc_in ARCHIVE l = true
          /\ loc_count CACHE l = pred (loc_count CACHE cur_list)
          /\ compression_enabled o = true
        else
          loc_count CACHE l = loc_count CACHE cur_list
          /\ loc_count ARCHIVE l = loc_count ARCHIVE cur_list
          /\ compression_enabled o = compression_enabled cur)
    /\ includes_rag o
       = includes_rag cur
         && negb (Qltb (get_default (search_hit_rate stats) 0.0) 0.1)
    /\ (search_hit_rate stats = None -> includes_rag o = false)
    /\ loc_count DB l = loc_count DB cur_list.
Proof.
  intros Hs Hl.
  destruct (optimize_strategy_run h s stats cur cur_list Hs Hl)
    as (r & h' & copy & Hrun & Hview).
  eexists r, h', _, _. split; [exact Hrun|]. split; [exact Hview|].
  cbn [includes_rag compression_enabled].
  pose proof (optimized_locations_count CACHE stats (includes_rag cur)
                cur_list) as HC.
  pose proof (optimized_locations_count ARCHIVE stats (includes_rag cur)
                cur_list) as HA.
  pose proof (optimized_locations_count DB stats (includes_rag cur)
                cur_list) as HD.
  cbv zeta in HC, HA, HD. cbv beta iota in HC, HA, HD.
  unfold optimized_compression, optimized_rag.
  split; [|split; [|split; [|exact HD]]].
  - rewrite !loc_in_count.
    destruct (Qgtb (get_default (daily_access_count stats) 0) 10);
      [|destruct (Qgtb (get_default (days_since_last_access stats) 0) 30)].
    + rewrite HC. repeat split; try assumption.
      destruct (Nat.max 1 (loc_count CACHE cur_list)) eqn:E;
        [lia|reflexivity].
    + rewrite HA. repeat split; try assumption.
      destruct (Nat.max 1 (loc_count ARCHIVE cur_list)) eqn:E;
        [lia|reflexivity].
    + auto.
  - destruct (Qltb (get_default (search_hit_rate stats) 0.0) 0.1),
      (includes_rag cur); reflexivity.
  - intros ->. cbn [get_default].
    destruct (includes_rag cur); reflexivity.
Qed.

(** X9. [optimize_strategy] keeps a coherent strategy coherent: the
    clone's RAG flag still says whether RAG is a secondary location. *)
Theorem optimize_strategy_coherent h s stats cur cur_list :
  objs h !! s = Some cur ->
  lists h !! secondary_locations cur = Some cur_list ->
  coherent cur cur_list = true ->
  exists r h' o l,
    optimize_strategy s stats h = Ok (r, h')
    /\ view h' r = Some (o, l)
    /\ coherent o l = true.
Proof.
  intros Hs Hl Hc.
  destruct (optimize_strategy_run h s stats cur cur_list Hs Hl)
    as (r & h' & copy & Hrun & Hview).
  eexists r, h', _, _. split; [exact Hrun|]. split; [exact Hview|].
  unfold coherent, has_ttl in *.
  cbn [includes_rag index_for_search includes_embedding ttl_seconds
       primary_location].
  apply andb_true_iff in Hc as [Hc H5]. apply andb_true_iff in Hc as [Hc H4].
  apply andb_true_iff in Hc as [Hc H3]. apply andb_true_iff in Hc as [H1 H2].
  rewrite H3, H4, H5, !andb_true_r.
  apply Bool.eqb_prop in H1. apply Nat.leb_le in H2.
  rewrite loc_in_count in H1. rewrite loc_in_count.
  rewrite (optimized_locations_count RAG). cbv zeta.
  unfold optimized_rag.
  destruct (Qltb (get_default (search_hit_rate stats) 0.0) 0.1
            && includes_rag cur).
  - assert (E : pred (loc_count RAG cur_list) = 0%nat) by lia.
    rewrite E. reflexivity.
  - rewrite H1. rewrite Bool.eqb_reflx.
    apply Nat.leb_le in H2. rewrite H2. reflexivity.
Qed.

End OptimizeFacts.

(** ** From the classifier to the planner *)

Section Pipeline.
Import PyStr Py StorageStrategyModel StoragePolicy.

Ltac use_entry H :=
  let V := fresh "V" in
  destruct H as [? V]; do 4 eexists; (split; [reflexivity|]);
  (split; [exact V|]); repeat split; reflexivity.

(** The planner's answer for a prefix it has a branch for. *)
Lemma hierarchical_plan self h major minor detail importance content_size :
  table_as_built self h ->
  handled_prefix major minor = true ->
  exists a h' o l,
    _determine_hierarchical_strategy self major minor detail importance
                                     content_size h = Ok (a, h')
    /\ view h' a = Some (o, l)
    /\ includes_embedding o = negb (expiring_prefix major minor)
    /\ ttl_seconds o
       = (if expiring_prefix major minor then Some 86400%Z else None)
    /\ index_for_search o = negb (expiring_prefix major minor).
Proof.
  intros [H1 H2 H3 H4 H5].
  unfold handled_prefix, expiring_prefix, _determine_hierarchical_strategy.
  destruct (str_eqb major (u "personal")) eqn:EP.
  { apply str_eqb_eq in EP. subst major.
    change (str_eqb (u "personal") (u "knowledge")) with false.
    change (str_eqb (u "personal") (u "temporal")) with false.
    cbn [andb orb negb].
    destruct (str_eqb minor (u "identity")); [intros _; use_entry H1|].
    destruct (str_eqb minor (u "preference"));
      [intros _; destruct (Qgeb importance 7);
       [use_entry H1|use_entry H2]|].
    destruct (str_eqb minor (u "profession")); [intros _; use_entry H1|].
    discriminate. }
  destruct (str_eqb major (u "knowledge")) eqn:EK.
  { apply str_eqb_eq in EK. subst major.
    change (str_eqb (u "knowledge") (u "temporal")) with false.
    cbn [andb orb negb].
    destruct (str_eqb minor (u "skill")); [intros _; use_entry H1|].
    destruct (str_eqb minor (u "experience"));
      [intros _; destruct (content_size >? 1000)%Z;
       [use_entry H5|use_entry H3]|].
    destruct (str_eqb minor (u "fact")); [intros _|discriminate].
    destruct (Qgeb importance 8); [use_entry H2|].
    destruct (new_strategy_spec DB [] false true None false true h)
      as (a & h' & E & [l V] & _).
    rewrite E. do 4 eexists. split; [reflexivity|].
    split; [exact V|]. repeat split; reflexivity. }
  destruct (str_eqb major (u "temporal")); [|discriminate].
  cbn [andb orb negb].
  destruct (str_eqb minor (u "conversation")) eqn:EC.
  { apply str_eqb_eq in EC. subst minor.
    change (str_eqb (u "conversation") (u "context")) with false.
    intros _. use_entry H3. }
  destruct (str_eqb minor (u "context")); [intros _; use_entry H4|].
  discriminate.
Qed.

Lemma enumerated_paths_planned :
  forallb classifier_plan_ok ClassifierSpec.enumerated_paths = true.
Proof. vm_compute. reflexivity. Qed.

Variable lower : str -> str.

(** X10. A classification goes through the planner: for whatever
    [classify] returns, [determine_strategy] on its path returns a
    strategy, and that strategy agrees with the classifier's own
    [get_storage_strategy] on the embedding, the expiry and the search
    index. *)
Theorem classified_memory_is_planned h0 self h content context mc
    importance content_size access_pattern :
  init h0 = Ok (self, h) ->
  HierarchicalMemoryTypes.classify lower content context = Ok mc ->
  exists a h' o l,
    determine_strategy self (HierarchicalMemoryTypes.to_path mc) importance
                       content_size access_pattern h = Ok (a, h')
    /\ view h' a = Some (o, l)
    /\ same_plan (HierarchicalStrategies.get_storage_strategy mc) o.
Proof.
  intros Hi Hc. apply init_table_of in Hi.
  destruct (classify_shape lower content context mc Hc)
    as (p & Hin & Hsplit & _).
  pose proof enumerated_paths_ok as Hok.
  pose proof enumerated_paths_planned as Hpl.
  rewrite forallb_forall in Hok, Hpl.
  specialize (Hok p Hin). specialize (Hpl p Hin).
  unfold ClassifierSpec.leaf_ok in Hok. rewrite Hsplit in Hok.
  apply str_eqb_eq in Hok.
  unfold classifier_plan_ok in Hpl. rewrite Hsplit in Hpl.
  change (HierarchicalStrategies.get_storage_strategy _)
    with (HierarchicalStrategies.get_storage_strategy mc) in Hpl.
  apply andb_true_iff in Hpl as [Hpl Ht].
  apply andb_true_iff in Hpl as [Hpl Hx].
  apply andb_true_iff in Hpl as [Hh He].
  apply Bool.eqb_prop in He, Hx.
  unfold HierarchicalMemoryTypes.to_path. rewrite Hok.
  unfold HierarchicalMemoryTypes.split_path in Hsplit.
  destruct (split_on 47%N p) as [|x [|y [|z [|w r]]]] eqn:Es;
    try discriminate.
  injection Hsplit as -> -> ->.
  unfold determine_strategy.
  rewrite (split_on_three_has_sep p _ _ _ Es), Es.
  destruct (hierarchical_plan self h _ _ (HierarchicalMemoryTypes.detail mc)
              importance content_size Hi Hh)
    as (a & h' & o & l & Hrun & Hv & Hemb & Httl & Hidx).
  exists a, h', o, l. split; [exact Hrun|]. split; [exact Hv|].
  unfold same_plan. rewrite Hemb, Httl, Hidx, He, Hx.
  split; [reflexivity|]. split; [|reflexivity].
  destruct (HierarchicalStrategies.ttl
              (HierarchicalStrategies.get_storage_strategy mc)) as [s|].
  - apply andb_true_iff in Ht as [-> Hs]. apply Z.eqb_eq in Hs. now subst s.
  - apply negb_true_iff in Ht. now rewrite Ht.
Qed.

End Pipeline.

Section StoragePolicyExamples.
Import PyStr Py StorageStrategyModel StoragePolicy.

Lemma determine_strategy_shares_table_witness :
  exists self h a h',
    init empty_heap = Ok (self, h)
    /\ determine_strategy self (u "knowledge/fact/general") 6 2000 None h
       = Ok (a, h')
    /\ if gets_own_strategy (u "knowledge/fact/general") 6
       then objs h !! a = None
            /\ strategy_is h' a DB [] false true None false true
            /\ (forall b x, view h b = Some x ->
                            b <> a /\ view h' b = Some x)
       else In a (table_addrs self) /\ h' = h.
Proof.
  do 4 eexists. split; [vm_compute; reflexivity|].
  split; [vm_compute; reflexivity|].
  eapply (determine_strategy_shares_table _ (u "knowledge/fact/general")
            6 2000%Z None).
  vm_compute; reflexivity.
Defined.

(** The two sides of the case distinction on concrete inputs: a fact of
    importance 6 gets an object of its own, a fact of importance 8 the
    shared [high_value_infrequent]. *)
Example fact_strategy_own_or_shared :
  gets_own_strategy (u "knowledge/fact/general") 6 = true
  /\ gets_own_strategy (u "knowledge/fact/general") 8 = false
  /\ exists self h,
       init empty_heap = Ok (self, h)
       /\ determine_strategy self (u "knowledge/fact/general") 8 2000 None h
          = Ok (high_value_infrequent self, h)
       /\ exists a h',
            determine_strategy self (u "knowledge/fact/general") 6 2000
                               None h = Ok (a, h')
            /\ ~ In a (table_addrs self).
Proof.
  split; [vm_compute; reflexivity|]. split; [vm_compute; reflexivity|].
  do 2 eexists. split; [vm_compute; reflexivity|].
  split; [vm_compute; reflexivity|].
  do 2 eexists. split; [vm_compute; reflexivity|].
  vm_compute. intros [H|[H|[H|[H|[H|[]]]]]]; discriminate.
Qed.

Lemma determine_strategy_coherent_witness :
  exists self h a h',
    init empty_heap = Ok (self, h)
    /\ determine_strategy self (u "temporal/context/current") 5 10 None h
       = Ok (a, h')
    /\ exists o l, view h' a = Some (o, l) /\ coherent o l = true.
Proof.
  do 4 eexists. split; [vm_compute; reflexivity|].
  split; [vm_compute; reflexivity|].
  eapply (determine_strategy_coherent empty_heap _ _
           (u "temporal/context/current") 5 10%Z None).
  - vm_compute; reflexivity.
  - vm_compute; reflexivity.
Defined.

Lemma optimize_strategy_effect_witness :
  exists self h cur cur_list,
    init empty_heap = Ok (self, h)
    /\ objs h !! high_value_frequent self = Some cur
    /\ lists h !! secondary_locations cur = Some cur_list
    /\ exists r h' o l,
         optimize_strategy (high_value_frequent self)
           {| daily_access_count := None;
              days_since_last_access := Some 31%Q;
              search_hit_rate := None |} h = Ok (r, h')
         /\ view h' r = Some (o, l)
         /\ (loc_in ARCHIVE l = true
             /\ loc_count CACHE l = pred (loc_count CACHE cur_list)
             /\ compression_enabled o = true)
         /\ includes_rag o = includes_rag cur && negb true
         /\ (@None Q = None -> includes_rag o = false)
         /\ loc_count DB l = loc_count DB cur_list.
Proof.
  do 4 eexists. split; [vm_compute; reflexivity|].
  split; [vm_compute; reflexivity|].
  split; [vm_compute; reflexivity|].
  eapply (optimize_strategy_effect _ _
           {| daily_access_count := None;
              days_since_last_access := Some 31%Q;
              search_hit_rate := None |}); vm_compute; reflexivity.
Defined.

Lemma optimize_strategy_coherent_witness :
  exists self h cur cur_list,
    init empty_heap = Ok (self, h)
    /\ objs h !! high_value_frequent self = Some cur
    /\ lists h !! secondary_locations cur = Some cur_list
    /\ coherent cur cur_list = true
    /\ exists r h' o l,
         optimize_strategy (high_value_frequent self)
           {| daily_access_count := Some 11%Q;
              days_since_last_access := None;
              search_hit_rate := Some 0%Q |} h = Ok (r, h')
         /\ view h' r = Some (o, l)
         /\ coherent o l = true.
Proof.
  do 4 eexists. split; [vm_compute; reflexivity|].
  split; [vm_compute; reflexivity|].
  split; [vm_compute; reflexivity|].
  split; [vm_compute; reflexivity|].
  eapply optimize_strategy_coherent; vm_compute; reflexivity.
Defined.

Lemma classified_memory_is_planned_witness :
  exists self h mc,
    init empty_heap = Ok (self, h)
    /\ HierarchicalMemoryTypes.classify lower_ascii (u "name") None = Ok mc
    /\ exists a h' o l,
         determine_strategy self (HierarchicalMemoryTypes.to_path mc) 9
                            4 None h = Ok (a, h')
         /\ view h' a = Some (o, l)
         /\ same_plan (HierarchicalStrategies.get_storage_strategy mc) o.
Proof.
  do 3 eexists. split; [vm_compute; reflexivity|].
  split; [vm_compute; reflexivity|].
  eapply (classified_memory_is_planned lower_ascii empty_heap _ _
           (u "name") None _ 9 4%Z None); vm_compute; reflexivity.
Defined.

(** The two tables do not agree on RAG: the classifier's has
    temporal/conversation use it, the planner's conversational strategy
    does not. *)
Example conversation_rag_differs :
  exists self h a o l,
    init empty_heap = Ok (self, h)
    /\ determine_strategy self (u "temporal/conversation/question") 4 10
                          None h = Ok (a, h)
    /\ view h a = Some (o, l)
    /\ includes_rag o = false
    /\ HierarchicalStrategies.use_rag
         (HierarchicalStrategies.get_storage_strategy
            {| HierarchicalMemoryTypes.major := u "temporal";
               HierarchicalMemoryTypes.minor := u "conversation";
               HierarchicalMemoryTypes.detail := u "question";
               HierarchicalMemoryTypes.confidence := 1 |}) = true.
Proof.
  do 5 eexists. split; [vm_compute; reflexivity|].
  split; [vm_compute; reflexivity|].
  split; [vm_compute; reflexivity|].
  split; vm_compute; reflexivity.
Qed.

(** Statistics without a hit rate cost the frequent strategy its RAG
    copy. *)
Example empty_stats_drop_rag :
  exists self h r h' o,
    init empty_heap = Ok (self, h)
    /\ optimize_strategy (high_value_frequent self)
         {| daily_access_count := None; days_since_last_access := None;
            search_hit_rate := None |} h = Ok (r, h')
    /\ view h' r = Some (o, [CACHE])
    /\ includes_rag o = false.
Proof.
  do 5 eexists. split; [vm_compute; reflexivity|].
  split; [vm_compute; reflexivity|].
  split; vm_compute; reflexivity.
Qed.

End StoragePolicyExamples.

(** ** The index optimizer at work *)

Section OptimizerRuns.
Import PyStr Py VectorStore VectorIndexOptimizer EmbeddingUtils
       SearchOptimizer.
Variable T : Z -> Z.

Lemma call_tool_trace_pair db st r db' :
  call_tool T db st = (r, db') -> trace db' = trace db ++ [st].
Proof.
  intros E. pose proof (call_tool_trace T db st) as H.
  now rewrite E in H.
Qed.

Lemma get_table_stats_trace db table_name st db' :
  _get_table_stats T db table_name = (Some st, db') ->
  trace db' = trace db ++ stats_queries table_name.
Proof.
  unfold _get_table_stats, stats_queries.
  destruct (call_tool T db (SelectTableStats table_name)) as [r1 db1] eqn:E1.
  apply call_tool_trace_pair in E1.
  destruct (negb (success r1) || negb (nonempty (rows r1)));
    [discriminate|].
  destruct (call_tool T db1 (SelectTypeDistribution table_name))
    as [r2 db2] eqn:E2.
  apply call_tool_trace_pair in E2.
  destruct (call_tool T db2 (SelectUserDistribution table_name))
    as [r3 db3] eqn:E3.
  apply call_tool_trace_pair in E3.
  destruct (call_tool T db3 (SelectEmbeddingIndexes table_name))
    as [r4 db4] eqn:E4.
  apply call_tool_trace_pair in E4.
  assert (Q : trace db4 = trace db ++ stats_queries table_name).
  { rewrite E4, E3, E2, E1, <- !app_assoc. reflexivity. }
  repeat match goal with
         | |- context [match ?x with _ => _ end] => destruct x
         end; intros [= _ <-] || discriminate; exact Q.
Qed.

Lemma nonempty_map_filter {A B} (f : A -> B) (p : A -> bool) (l : list A) :
  nonempty (map f (filter p l)) = existsb p l.
Proof.
  induction l as [|x l IH]; [reflexivity|].
  cbn [existsb]. destruct (p x) eqn:E.
  - rewrite filter_cons_True by (unfold Is_true; now rewrite E).
    reflexivity.
  - rewrite filter_cons_False by (unfold Is_true; now rewrite E).
    exact IH.
Qed.

(** The answers to the four statistics queries. *)
Lemma call_tool_table_stats db t :
  call_tool T db (SelectTableStats t)
  = (match tables db !! t with
     | Some tb =>
         if has_column tb (u "user_id") && has_column tb (u "memory_type")
            && has_column tb (u "importance")
         then ok_rows [stats_row tb] else failed
     | None => failed
     end, record db (SelectTableStats t)).
Proof.
  unfold call_tool, run. cbn [record tables].
  destruct (tables db !! t) as [tb|]; [|reflexivity].
  now destruct (has_column tb (u "user_id") && has_column tb (u "memory_type")
                && has_column tb (u "importance")).
Qed.

Lemma call_tool_type_distribution db t :
  call_tool T db (SelectTypeDistribution t)
  = (match tables db !! t with
     | Some tb =>
         if has_column tb (u "memory_type") && has_column tb (u "importance")
         then ok_rows (type_distribution_rows tb) else failed
     | None => failed
     end, record db (SelectTypeDistribution t)).
Proof.
  unfold call_tool, run. cbn [record tables].
  destruct (tables db !! t) as [tb|]; [|reflexivity].
  now destruct (has_column tb (u "memory_type")
                && has_column tb (u "importance")).
Qed.

Lemma call_tool_user_distribution db t :
  call_tool T db (SelectUserDistribution t)
  = (match tables db !! t with
     | Some tb =>
         if has_column tb (u "user_id")
         then ok_rows (user_distribution_rows tb) else failed
     | None => failed
     end, record db (SelectUserDistribution t)).
Proof.
  unfold call_tool, run. cbn [record tables].
  destruct (tables db !! t) as [tb|]; [|reflexivity].
  now destruct (has_column tb (u "user_id")).
Qed.

Lemma call_tool_embedding_indexes db t :
  call_tool T db (SelectEmbeddingIndexes t)
  = (ok_rows (map index_row
                  (filter (fun i => str_eqb (index_table i) t
                                    && mentions_embedding i) (indexes db))),
     record db (SelectEmbeddingIndexes t)).
Proof. reflexivity. Qed.

(** What the statistics say of the database they were read from: the
    number of rows of the table, its distinct users, and the indexes of
    the table that mention the embedding.  Reading changes neither tables
    nor indexes. *)
Lemma get_table_stats_reads db table_name st db' :
  _get_table_stats T db table_name = (Some st, db') ->
  exists tb,
    tables db !! table_name = Some tb
    /\ row_count st = Z.of_nat (length (table_rows tb))
    /\ unique_users st = count_distinct (map row_user_id (table_rows tb))
    /\ current_indexes st
       = map index_row
             (filter (fun i => str_eqb (index_table i) table_name
                               && mentions_embedding i) (indexes db))
    /\ tables db' = tables db
    /\ indexes db' = indexes db.
Proof.
  unfold _get_table_stats.
  rewrite call_tool_table_stats.
  destruct (tables db !! table_name) as [tb|] eqn:Et; [|discriminate].
  destruct (has_column tb (u "user_id") && has_column tb (u "memory_type")
            && has_column tb (u "importance")); [|discriminate].
  cbn [success rows ok_rows negb orb nonempty].
  rewrite call_tool_type_distribution, call_tool_user_distribution,
    call_tool_embedding_indexes.
  cbn [success rows ok_rows].
  change (row_int (stats_row tb) (u "total_rows"))
    with (Some (Z.of_nat (length (table_rows tb)))).
  change (row_int (stats_row tb) (u "unique_users"))
    with (Some (count_distinct (map row_user_id (table_rows tb)))).
  destruct (row_int (stats_row tb) (u "unique_types")); [|discriminate].
  destruct (row_float_or_0 (stats_row tb) (u "avg_content_size"));
    [|discriminate].
  destruct (row_float_or_0 (stats_row tb) (u "min_importance"));
    [|discriminate].
  destruct (row_float_or_0 (stats_row tb) (u "max_importance"));
    [|discriminate].
  destruct (row_float_or_0 (stats_row tb) (u "avg_importance"));
    [|discriminate].
  intros [= <- <-]. exists tb.
  cbn [row_count unique_users current_indexes record tables indexes].
  repeat split; reflexivity.
Qed.

(** The statistics depend on the tables and the indexes only, not on
    what was sent before. *)
Lemma get_table_stats_ext db0 db table_name :
  tables db0 = tables db -> indexes db0 = indexes db ->
  fst (_get_table_stats T db0 table_name)
  = fst (_get_table_stats T db table_name).
Proof.
  intros Ht Hi. unfold _get_table_stats.
  rewrite !call_tool_table_stats, Ht.
  destruct (tables db !! table_name) as [tb|] eqn:Et; [|reflexivity].
  destruct (has_column tb (u "user_id") && has_column tb (u "memory_type")
            && has_column tb (u "importance")); [|reflexivity].
  cbn [success rows ok_rows negb orb nonempty].
  rewrite !call_tool_type_distribution, !call_tool_user_distribution,
    !call_tool_embedding_indexes.
  cbn [record tables indexes]. rewrite Ht, Hi, Et.
  repeat match goal with
         | |- context [match ?x with _ => _ end] =>
             lazymatch x with
             | row_int _ _ => destruct x
             | row_float_or_0 _ _ => destruct x
             end
         end; reflexivity.
Qed.

Lemma apply_index_strategy_trace db table_name s stats r db' :
  _apply_index_strategy T db table_name s stats = (r, db') ->
  r = {| optimized := true; strategy := Some s |}
  /\ trace db' = trace db ++ applied_statements table_name s stats.
Proof.
  unfold _apply_index_strategy, applied_statements.
  intros [= <- <-]. split; [reflexivity|].
  rewrite send_all_trace.
  destruct (negb (is_none_strategy s) || nonempty (current_indexes stats)).
  - rewrite ?call_tool_trace. cbn [trace]. rewrite <- ?app_assoc.
    reflexivity.
  - reflexivity.
Qed.

Lemma last_app_cons {A} (l1 : list A) (x : A) (l2 : list A) (d : A) :
  List.last (l1 ++ x :: l2) d = List.last (x :: l2) d.
Proof.
  induction l1 as [|y l1 IH]; [reflexivity|].
  cbn [app]. change (List.last (y :: l1 ++ x :: l2) d)
    with (match l1 ++ x :: l2 with
          | [] => y
          | _ :: _ => List.last (l1 ++ x :: l2) d
          end).
  destruct (l1 ++ x :: l2) eqn:E; [destruct l1; discriminate|].
  exact IH.
Qed.

Lemma strategy_statements_last table_name s :
  is_none_strategy s = false ->
  List.last (strategy_statements table_name s) (Analyze table_name)
  = Analyze table_name
  /\ exists m rest,
       strategy_statements table_name s
       = CreateIndex (index_name_of table_name) table_name m :: rest
       /\ is_vector_method m = true.
Proof.
  destruct s as [| | ? ? [|] | |]; try discriminate; intros _;
    (split; [reflexivity|]); eexists; eexists; split; reflexivity.
Qed.

(** The run of [optimize_memory_index] when it reports success. *)
Lemma optimize_memory_index_run self now db table_name force r self' db' :
  optimize_memory_index T self now db table_name force = (r, self', db') ->
  optimized r = true ->
  exists stats db0 db1,
    _get_table_stats T db0 table_name = (Some stats, db1)
    /\ trace db0
       = trace db ++ (if force then [] else stats_queries table_name)
    /\ tables db0 = tables db
    /\ indexes db0 = indexes db
    /\ r = {| optimized := true;
              strategy := Some (_determine_index_strategy stats) |}
    /\ self' = {| _last_optimization :=
                    dict_set (_last_optimization self) table_name now |}
    /\ trace db'
       = trace db1
         ++ applied_statements table_name (_determine_index_strategy stats)
                               stats.
Proof.
  unfold optimize_memory_index, _should_optimize.
  destruct force.
  - destruct (_get_table_stats T db table_name) as [st db1] eqn:E1.
    destruct st as [st|]; [|intros [= <- _ _]; discriminate].
    destruct (_apply_index_strategy T db1 table_name
                (_determine_index_strategy st) st) as [r2 db2] eqn:E2.
    apply apply_index_strategy_trace in E2 as [-> E2].
    intros [= <- <- <-] _. exists st, db, db1.
    rewrite app_nil_r. repeat split; auto.
  - destruct (match dict_get (_last_optimization self) table_name with
              | Some last_opt => Qltb (inject_Z (now - last_opt) / 3600) 24
              | None => false
              end).
    { cbn [negb]. intros [= <- _ _]. discriminate. }
    destruct (_get_table_stats T db table_name) as [st0 db0] eqn:E0.
    destruct (match st0 with Some s => row_count s | None => 0%Z end <? 100)%Z
      eqn:E100; cbn [negb].
    { intros [= <- _ _]. discriminate. }
    destruct st0 as [st0|]; [|discriminate].
    destruct (get_table_stats_reads _ _ _ _ E0) as (_ & _ & _ & _ & _ & Ht0 & Hi0).
    apply get_table_stats_trace in E0.
    destruct (_get_table_stats T db0 table_name) as [st db1] eqn:E1.
    destruct st as [st|]; [|intros [= <- _ _]; discriminate].
    destruct (_apply_index_strategy T db1 table_name
                (_determine_index_strategy st) st) as [r2 db2] eqn:E2.
    apply apply_index_strategy_trace in E2 as [-> E2].
    intros [= <- <- <-] _. exists st, db0, db1. repeat split; auto.
Qed.

(** X11. What a successful [optimize_memory_index] does.  The strategy
    it reports is [_determine_index_strategy] of the statistics
    [_get_table_stats] reads from the database it is given: the row count
    is the number of rows of the table, and the embedding indexes are the
    indexes of the table that mention the embedding.  It sends, in order:
    the four statistics queries (twice when not forced, once for
    [_should_optimize] and once more for itself), then
    DROP INDEX IF EXISTS for the optimized index when a strategy other
    than none is chosen or the table has an embedding index, then the
    statements of the strategy; for a strategy other than none these
    begin with the vector index and the last statement is ANALYZE.  It
    never sends a statement that drops or creates a table. *)
Theorem optimize_memory_index_statements self now db table_name force r
    self' db' :
  optimize_memory_index T self now db table_name force = (r, self', db') ->
  optimized r = true ->
  exists stats s tb,
    fst (_get_table_stats T db table_name) = Some stats
    /\ tables db !! table_name = Some tb
    /\ row_count stats = Z.of_nat (length (table_rows tb))
    /\ nonempty (current_indexes stats)
       = existsb (fun i => str_eqb (index_table i) table_name
                           && mentions_embedding i) (indexes db)
    /\ strategy r = Some s
    /\ s = _determine_index_strategy stats
    /\ trace db'
       = trace db
         ++ (if force then [] else stats_queries table_name)
         ++ stats_queries table_name
         ++ applied_statements table_name s stats
    /\ forallb keeps_tables
         ((if force then [] else stats_queries table_name)
          ++ stats_queries table_name
          ++ applied_statements table_name s stats) = true
    /\ (if is_none_strategy s then True
        else List.last (trace db') (Analyze table_name) = Analyze table_name
             /\ exists m rest,
                  strategy_statements table_name s
                  = CreateIndex (index_name_of table_name) table_name m
                    :: rest
                  /\ is_vector_method m = true).
Proof.
  intros H Hopt.
  destruct (optimize_memory_index_run _ _ _ _ _ _ _ _ H Hopt)
    as (stats & db0 & db1 & Hs & H0 & Ht0 & Hi0 & -> & _ & H1).
  pose proof (get_table_stats_ext db0 db table_name Ht0 Hi0) as Hext.
  rewrite Hs in Hext. cbn [fst] in Hext.
  destruct (get_table_stats_reads _ _ _ _ Hs)
    as (tb & Htb & Hrc & _ & Hci & _ & _).
  apply get_table_stats_trace in Hs.
  exists stats, (_determine_index_strategy stats), tb.
  split; [now rewrite <- Hext|]. split; [now rewrite <- Ht0|].
  split; [exact Hrc|]. split.
  { rewrite Hci, Hi0. apply nonempty_map_filter. }
  split; [reflexivity|]. split; [reflexivity|].
  assert (Htr : trace db'
                = trace db
                  ++ (if force then [] else stats_queries table_name)
                  ++ stats_queries table_name
                  ++ applied_statements table_name
                       (_determine_index_strategy stats) stats).
  { rewrite H1, Hs, H0, <- !app_assoc. reflexivity. }
  split; [exact Htr|]. split.
  - rewrite !forallb_app. unfold applied_statements.
    rewrite forallb_app, strategy_statements_keep.
    destruct force,
      (negb (is_none_strategy (_determine_index_strategy stats))
       || nonempty (current_indexes stats)); reflexivity.
  - destruct (is_none_strategy (_determine_index_strategy stats)) eqn:En;
      [exact I|].
    destruct (strategy_statements_last table_name _ En)
      as [Hl (m & rest & Hm & Hv)].
    split; [|eauto].
    rewrite Htr. unfold applied_statements. rewrite !app_assoc.
    rewrite Hm in Hl |- *. rewrite last_app_cons. exact Hl.
Qed.

Lemma hours_within_day (z : Z) :
  (z < 86400)%Z -> Qltb (inject_Z z / 3600) 24 = true.
Proof.
  intros H. unfold Qltb. apply negb_true_iff.
  destruct (Qle_bool 24 (inject_Z z / 3600)) eqn:E; [|reflexivity].
  apply Qle_bool_iff in E. exfalso.
  rewrite Zlt_Qlt in H. change (inject_Z 86400) with 86400%Q in H.
  unfold Qdiv in E. change (/ 3600)%Q with (1 # 3600)%Q in E. lra.
Qed.

(** X12. At most one optimization a day: after a call of
    [optimize_memory_index] that reported success at time [now], a call
    without [force] for the same table at any time before [now] plus 24
    hours does nothing -- no statement is sent, the optimizer is
    unchanged -- and reports [optimized: False]. *)
Theorem optimize_memory_index_rate_limit self now db table_name force r
    self' db' now2 :
  optimize_memory_index T self now db table_name force = (r, self', db') ->
  optimized r = true ->
  (now2 < now + 86400)%Z ->
  optimize_memory_index T self' now2 db' table_name false
  = ({| optimized := false; strategy := None |}, self', db').
Proof.
  intros H Hopt Hlt.
  destruct (optimize_memory_index_run _ _ _ _ _ _ _ _ H Hopt)
    as (_ & _ & _ & _ & _ & _ & _ & _ & -> & _).
  unfold optimize_memory_index, _should_optimize.
  cbn [_last_optimization]. rewrite dict_get_set_eq.
  rewrite hours_within_day by lia. reflexivity.
Qed.

(** X13. The probes of a search: at least 1, never fewer for [speed]
    and never more for [accuracy] than for the target asked for (any
    name other than these two is [balanced]), and never fewer on a larger
    table. *)
Theorem search_probes_ordered s1 s2 optimize_for :
  (row_count s1 <= row_count s2)%Z ->
  (1 <= _get_search_params (Some s1) (u "speed"))%Z
  /\ (_get_search_params (Some s1) (u "speed")
      <= _get_search_params (Some s1) optimize_for)%Z
  /\ (_get_search_params (Some s1) optimize_for
      <= _get_search_params (Some s1) (u "accuracy"))%Z
  /\ (_get_search_params (Some s1) optimize_for
      <= _get_search_params (Some s2) optimize_for)%Z
  /\ _get_search_params None optimize_for
     = _get_search_params (Some (plain_stats 0 0)) optimize_for.
Proof.
  intros H. unfold _get_search_params.
  change (str_eqb (u "speed") (u "speed")) with true.
  change (str_eqb (u "accuracy") (u "speed")) with false.
  change (str_eqb (u "accuracy") (u "accuracy")) with true.
  cbn [plain_stats row_count].
  destruct (str_eqb optimize_for (u "speed")),
    (str_eqb optimize_for (u "accuracy"));
    destruct (row_count s1 <? 10000)%Z eqn:A1,
      (row_count s1 <? 100000)%Z eqn:B1,
      (row_count s2 <? 10000)%Z eqn:A2,
      (row_count s2 <? 100000)%Z eqn:B2;
    rewrite ?Z.ltb_lt, ?Z.ltb_ge in *; repeat split; try lia.
Qed.

(** X14. Searching for speed or balance never probes more lists than
    the index has: for the same statistics, the probes of
    [_get_search_params] are at most the [lists] of every IVFFlat index
    the statements of [_determine_index_strategy] create. *)
Theorem search_probes_within_lists stats optimize_for table_name l :
  str_eqb optimize_for (u "accuracy") = false ->
  In l (created_vector_lists
          (strategy_statements table_name
                               (_determine_index_strategy stats))) ->
  (_get_search_params (Some stats) optimize_for <= l)%Z.
Proof.
  intros Ha. unfold _get_search_params, _determine_index_strategy.
  rewrite Ha.
  destruct (row_count stats <? 1000)%Z eqn:E1; [intros []|].
  destruct (row_count stats <? 10000)%Z eqn:E2.
  { intros Hin.
    change (In l [Z.max (int_div (row_count stats) 100) 10]) in Hin.
    destruct Hin as [<-|[]].
    destruct (str_eqb optimize_for (u "speed")); lia. }
  destruct (row_count stats <? 100000)%Z eqn:E3.
  { destruct (Qgtb (power_user_ratio stats) 0.2); intros Hin.
    - change (In l [Z.max (int_div (row_count stats) 500) 50]) in Hin.
      destruct Hin as [<-|[]].
      destruct (str_eqb optimize_for (u "speed")); lia.
    - change (In l [Z.max (int_div (row_count stats) 1000) 30]) in Hin.
      destruct Hin as [<-|[]].
      destruct (str_eqb optimize_for (u "speed")); lia. }
  destruct (unique_users stats <? 1000)%Z.
  { intros Hin. change (In l [1000%Z]) in Hin. destruct Hin as [<-|[]].
    destruct (str_eqb optimize_for (u "speed")); lia. }
  destruct (row_count stats <? 500000)%Z; intros [].
Qed.

End OptimizerRuns.

Section OptimizerRunExamples.
Import PyStr Py VectorStore VectorIndexOptimizer EmbeddingUtils
       SearchOptimizer.

Lemma optimize_memory_index_statements_witness :
  exists r self' db',
    optimize_memory_index typmod_plus_4 new_optimizer 0 memories_db
                          (u "user_memories") true = (r, self', db')
    /\ optimized r = true
    /\ exists stats s tb,
         fst (_get_table_stats typmod_plus_4 memories_db (u "user_memories"))
         = Some stats
         /\ tables memories_db !! u "user_memories" = Some tb
         /\ row_count stats = Z.of_nat (length (table_rows tb))
         /\ nonempty (current_indexes stats)
            = existsb (fun i => str_eqb (index_table i) (u "user_memories")
                                && mentions_embedding i)
                      (indexes memories_db)
         /\ strategy r = Some s
         /\ s = _determine_index_strategy stats
         /\ trace db'
            = trace memories_db
              ++ []
              ++ stats_queries (u "user_memories")
              ++ applied_statements (u "user_memories") s stats
         /\ forallb keeps_tables
              ([] ++ stats_queries (u "user_memories")
               ++ applied_statements (u "user_memories") s stats) = true
         /\ (if is_none_strategy s then True
             else List.last (trace db') (Analyze (u "user_memories"))
                  = Analyze (u "user_memories")
                  /\ exists m rest,
                       strategy_statements (u "user_memories") s
                       = CreateIndex (index_name_of (u "user_memories"))
                                     (u "user_memories") m :: rest
                       /\ is_vector_method m = true).
Proof.
  do 3 eexists. split; [vm_compute; reflexivity|].
  split; [reflexivity|].
  eapply (optimize_memory_index_statements typmod_plus_4 new_optimizer 0
            memories_db (u "user_memories") true).
  - vm_compute; reflexivity.
  - reflexivity.
Defined.

Lemma optimize_memory_index_rate_limit_witness :
  exists r self' db',
    optimize_memory_index typmod_plus_4 new_optimizer 0 memories_db
                          (u "user_memories") true = (r, self', db')
    /\ optimized r = true
    /\ optimize_memory_index typmod_plus_4 self' 86399 db'
                             (u "user_memories") false
       = ({| optimized := false; strategy := None |}, self', db').
Proof.
  do 3 eexists. split; [vm_compute; reflexivity|].
  split; [reflexivity|].
  eapply (optimize_memory_index_rate_limit typmod_plus_4 new_optimizer 0
            memories_db (u "user_memories") true).
  - vm_compute; reflexivity.
  - reflexivity.
  - reflexivity.
Defined.

Lemma search_probes_ordered_witness :
  (1 <= _get_search_params (Some (plain_stats 500 3)) (u "speed"))%Z
  /\ (_get_search_params (Some (plain_stats 500 3)) (u "speed")
      <= _get_search_params (Some (plain_stats 500 3)) (u "balanced"))%Z
  /\ (_get_search_params (Some (plain_stats 500 3)) (u "balanced")
      <= _get_search_params (Some (plain_stats 500 3)) (u "accuracy"))%Z
  /\ (_get_search_params (Some (plain_stats 500 3)) (u "balanced")
      <= _get_search_params (Some (plain_stats 20000 3)) (u "balanced"))%Z
  /\ _get_search_params None (u "balanced")
     = _get_search_params (Some (plain_stats 0 0)) (u "balanced").
Proof.
  apply (search_probes_ordered (plain_stats 500 3) (plain_stats 20000 3)
           (u "balanced")).
  vm_compute; discriminate.
Defined.

Lemma search_probes_within_lists_witness :
  (_get_search_params (Some (plain_stats 20000 3)) (u "balanced") <= 30)%Z.
Proof.
  apply (search_probes_within_lists (plain_stats 20000 3) (u "balanced")
           (u "user_memories") 30%Z).
  - reflexivity.
  - vm_compute. left. reflexivity.
Defined.

(** Searching for accuracy can ask for more probes than the index has
    lists: 20000 rows get an index of 30 lists and a search with 50
    probes. *)
Example accuracy_probes_exceed_lists :
  created_vector_lists
    (strategy_statements (u "user_memories")
       (_determine_index_strategy (plain_stats 20000 3))) = [30%Z]
  /\ _get_search_params (Some (plain_stats 20000 3)) (u "accuracy") = 50%Z.
Proof. split; vm_compute; reflexivity. Qed.

End OptimizerRunExamples.

(** ** Retrieval *)

Section SearchFacts.
Import PyStr Py VectorStore VectorIndexOptimizer EmbeddingUtils Retrieval.
Local Open Scope Q_scope.

Lemma Qltb_lt (a b : Q) : Qltb a b = true <-> a < b.
Proof.
  unfold Qltb. rewrite negb_true_iff.
  destruct (Qle_bool b a) eqn:E.
  - apply Qle_bool_iff in E. split; [discriminate|]. intros H. lra.
  - split; [intros _|reflexivity].
    destruct (Qlt_le_dec a b) as [H|H]; [exact H|].
    apply Qle_bool_iff in H. congruence.
Qed.

Lemma Qltb_ge (a b : Q) : Qltb a b = false <-> b <= a.
Proof.
  unfold Qltb. rewrite negb_false_iff. apply Qle_bool_iff.
Qed.

Lemma insert_hit_In x l y : In y (insert_hit x l) <-> y = x \/ In y l.
Proof.
  induction l as [|z l IH]; cbn [insert_hit In].
  - intuition.
  - destruct (Qltb (hit_similarity z) (hit_similarity x)); cbn [In].
    + intuition.
    + rewrite IH. intuition.
Qed.

Lemma insert_hit_descending x l :
  descending l -> descending (insert_hit x l).
Proof.
  induction l as [|z l IH]; cbn [insert_hit descending].
  - intros _. split; [constructor|exact I].
  - intros [Hz Hl].
    destruct (Qltb (hit_similarity z) (hit_similarity x)) eqn:E.
    + apply Qltb_lt in E. cbn [descending]. split; [|split; assumption].
      constructor; [lra|].
      eapply List.Forall_impl; [|exact Hz]. cbn beta. intros a Ha. lra.
    + apply Qltb_ge in E. cbn [descending]. split; [|now apply IH].
      apply List.Forall_forall. intros a Ha.
      apply insert_hit_In in Ha as [->|Ha]; [exact E|].
      rewrite List.Forall_forall in Hz. now apply Hz.
Qed.

Lemma order_hits_acc l acc :
  descending acc ->
  descending (fold_left (fun acc x => insert_hit x acc) l acc)
  /\ forall y, In y (fold_left (fun acc x => insert_hit x acc) l acc)
               <-> In y l \/ In y acc.
Proof.
  revert acc. induction l as [|x l IH]; intros acc Hacc; cbn [fold_left].
  - split; [exact Hacc|]. intros y. cbn [In]. intuition.
  - destruct (IH (insert_hit x acc) (insert_hit_descending x acc Hacc))
      as [Hd Hin].
    split; [exact Hd|]. intros y. rewrite Hin, insert_hit_In. cbn [In].
    intuition.
Qed.

Lemma order_hits_spec l :
  descending (order_hits l) /\ forall y, In y (order_hits l) <-> In y l.
Proof.
  destruct (order_hits_acc l [] I) as [Hd Hin]. split; [exact Hd|].
  intros y. unfold order_hits. rewrite Hin. cbn [In]. intuition.
Qed.

Lemma firstn_In {A} n (l : list A) x : In x (firstn n l) -> In x l.
Proof.
  revert l. induction n as [|n IH]; intros [|y l]; cbn [firstn In];
    try tauto.
  intros [->|H]; [now left|right; now apply IH].
Qed.

Lemma firstn_descending n l : descending l -> descending (firstn n l).
Proof.
  revert l. induction n as [|n IH]; intros [|y l]; cbn [firstn descending];
    try tauto.
  intros [Hy Hl]. split; [|now apply IH].
  apply List.Forall_forall. intros a Ha. apply firstn_In in Ha.
  rewrite List.Forall_forall in Hy. now apply Hy.
Qed.

Variable similarity : list Q -> list Q -> Q.

(** The answer of [db_search_vectors]: hits of stored rows that pass the
    threshold and the filters, in descending order of similarity, no more
    than the limit. *)
Lemma db_search_vectors_sound db table qv limit threshold filters :
  let hits :=
    match results (db_search_vectors similarity db table qv limit threshold
                                     filters) with
    | Some r => r
    | None => []
    end in
  (length hits <= Z.to_nat limit)%nat
  /\ descending hits
  /\ forall h, In h hits ->
       (exists r, In r (rows_of db table) /\ h = hit_of similarity qv r)
       /\ hit_matches filters h = true
       /\ (Qgtb threshold 0 = true -> threshold <= hit_similarity h).
Proof.
  unfold db_search_vectors, rows_of.
  destruct qv as [|x qv];
    [cbn; split; [lia|split; [exact I|intros h []]]|].
  destruct (tables db !! table) as [tb|];
    [|cbn; split; [lia|split; [exact I|intros h []]]].
  destruct (forallb _ (table_rows tb) && (0 <=? limit)%Z);
    [|cbn; split; [lia|split; [exact I|intros h []]]].
  cbn [results]. cbv zeta.
  match goal with
  | |- context [order_hits ?l] =>
      destruct (order_hits_spec l) as [Hd Hin]; set (hs := l) in *
  end.
  split; [apply firstn_le_length|]. split; [now apply firstn_descending|].
  intros h Hh. apply firstn_In in Hh. apply Hin in Hh. subst hs.
  apply in_map_iff in Hh as (r & <- & Hr).
  apply list_elem_of_In, list_elem_of_filter in Hr as [Hk Hr].
  apply list_elem_of_In in Hr.
  apply Is_true_true in Hk. apply andb_true_iff in Hk as [Hth Hf].
  split; [exists r; split; [exact Hr|reflexivity]|].
  split; [exact Hf|].
  intros Hgt. cbn [hit_similarity]. rewrite Hgt in Hth.
  unfold Qgeb in Hth. now apply Qle_bool_iff in Hth.
Qed.

End SearchFacts.

Section RetrievalRuns.
Import PyStr Py VectorStore VectorIndexOptimizer EmbeddingUtils Retrieval.
Local Open Scope Q_scope.

Variable T : Z -> Z.
Hypothesis T_plus_4 : forall d, T d = (d + 4)%Z.
Variable similarity : list Q -> list Q -> Q.
Variable rag_generate_embedding : str -> str -> option (list Q).

Lemma hit_matches_get filters h k v :
  hit_matches filters h = true -> In (k, v) filters ->
  dict_get (hit_metadata h) k = Some v.
Proof.
  unfold hit_matches. rewrite forallb_forall. intros H Hin.
  specialize (H (k, v) Hin). cbn beta iota in H.
  destruct (dict_get (hit_metadata h) k) as [w|]; [|discriminate].
  apply str_eqb_eq in H. now subst w.
Qed.

(** X15. What [search_user_memories] returns, whatever the state of
    the store: [count] is the number of memories, no more than the
    limit; the memories are in descending order of similarity; each is
    the hit of a row the table holds after the call, carries the
    requested user in its metadata (and the session, when one is given),
    and has a similarity of at least 0.5.  No memory of another user is
    ever returned. *)
Theorem search_user_memories_scoped now embedding_model cache db user_id
    query session_id limit r cache' db' :
  search_user_memories T similarity rag_generate_embedding now
                       embedding_model cache db user_id query session_id
                       limit = (r, cache', db') ->
  count r = length (memories r)
  /\ (length (memories r) <= Z.to_nat limit)%nat
  /\ descending (memories r)
  /\ forall h, In h (memories r) ->
       (exists qv row, In row (rows_of db' (u "user_memories"))
                       /\ h = hit_of similarity qv row)
       /\ dict_get (hit_metadata h) (u "user_id") = Some user_id
       /\ match session_id with
          | Some (c :: s) =>
              dict_get (hit_metadata h) (u "session_id") = Some (c :: s)
          | _ => True
          end
       /\ 0.5 <= hit_similarity h.
Proof.
  unfold search_user_memories.
  destruct (get_embedding_dimension rag_generate_embedding cache
              embedding_model) as [dimension cache1].
  destruct (ensure_table_with_dimension T now db (u "user_memories")
              dimension (Some user_memories_columns)) as [created db1].
  destruct (get_embedding_from_rag rag_generate_embedding query
              embedding_model) as [[qv|] actual].
  - intros [= <- _ <-]. cbn [count memories].
    match goal with
    | |- context [db_search_vectors similarity db1 ?t qv limit ?th ?fs] =>
        destruct (db_search_vectors_sound similarity db1 t qv limit th fs)
          as (Hlen & Hd & Hall); set (filters := fs) in *
    end.
    cbv zeta in Hlen, Hd, Hall.
    split; [reflexivity|]. split; [exact Hlen|]. split; [exact Hd|].
    intros h Hh. destruct (Hall h Hh) as ((row & Hrow & ->) & Hm & Hth).
    split; [eauto|].
    split; [apply (hit_matches_get filters _ _ _ Hm); subst filters;
            now left|].
    split.
    + destruct session_id as [[|c s]|]; try exact I.
      apply (hit_matches_get filters _ _ _ Hm). subst filters.
      right. now left.
    + apply Hth. reflexivity.
  - intros [= <- _ <-]. cbn [count memories].
    split; [reflexivity|]. split; [cbn; lia|]. split; [exact I|].
    intros h [].
Qed.

(** X16. Provisioning twice is provisioning once: after
    [ensure_table_with_dimension] has run for a positive dimension, a
    second run for the same dimension finds the table in place, returns
    [True] and sends the two catalog queries only; tables and indexes
    stay as the first run left them. *)
Theorem ensure_table_idempotent now now2 db table_name d cols :
  (0 < d)%Z ->
  exists db1 db2,
    ensure_table_with_dimension T now db table_name d (Some cols)
    = (true, db1)
    /\ declared_dimension db1 table_name = Some d
    /\ ensure_table_with_dimension T now2 db1 table_name d (Some cols)
       = (true, db2)
    /\ tables db2 = tables db1
    /\ indexes db2 = indexes db1
    /\ trace db2 = trace db1 ++ [SelectEmbeddingColumn table_name;
                                 SelectEmbeddingTypmod table_name].
Proof using T_plus_4.
  intros Hd.
  assert (H1 : exists db1,
             ensure_table_with_dimension T now db table_name d (Some cols)
             = (true, db1)
             /\ declared_dimension db1 table_name = Some d).
  { destruct (option_eq_dec (declared_dimension db table_name) (Some d))
      as [E|E].
    - destruct (ensure_table_untouched T T_plus_4 now db table_name d
                  (Some cols) Hd E) as (db1 & H & Ht & _).
      exists db1. split; [exact H|].
      unfold declared_dimension in *. now rewrite Ht.
    - destruct (ensure_table_recreates T T_plus_4 now db table_name d cols
                  Hd E) as (db1 & checks & rest & H & Ht & _).
      exists db1. split; [exact H|].
      unfold declared_dimension. rewrite Ht, lookup_insert_eq. reflexivity. }
  destruct H1 as (db1 & H1 & Hdecl).
  destruct (ensure_table_untouched T T_plus_4 now2 db1 table_name d
              (Some cols) Hd Hdecl) as (db2 & H2 & Ht & Hi & Htr).
  exists db1, db2. repeat split; assumption.
Qed.

(** X18. The dimension cache only grows: [get_embedding_dimension]
    keeps every entry, answers a cached model from the cache, and
    otherwise either caches the length of the service's test embedding
    or returns the default 1024 without caching it, so that the service
    is asked again next time; the dimension is positive when the cached
    ones are. *)
Theorem get_embedding_dimension_cache cache model_name d cache' :
  get_embedding_dimension rag_generate_embedding cache model_name
  = (d, cache') ->
  (forall k v, dict_get cache k = Some v -> dict_get cache' k = Some v)
  /\ match dict_get cache model_name with
     | Some v => d = v /\ cache' = cache
     | None =>
         (dict_get cache' model_name = Some d
          /\ exists e, rag_generate_embedding (u "test") model_name = Some e
                       /\ e <> [] /\ d = Z.of_nat (length e))
         \/ (d = 1024%Z /\ cache' = cache
             /\ (rag_generate_embedding (u "test") model_name = None
                 \/ rag_generate_embedding (u "test") model_name = Some []))
     end
  /\ ((forall k v, dict_get cache k = Some v -> (0 < v)%Z) -> (0 < d)%Z).
Proof.
  unfold get_embedding_dimension.
  destruct (dict_get cache model_name) as [v|] eqn:E.
  - intros [= <- <-]. repeat split; eauto.
  - destruct (rag_generate_embedding (u "test") model_name) as [[|x e]|]
      eqn:Er.
    + intros [= <- <-]. repeat split; auto; try lia.
    + intros [= <- <-]. split; [|split].
      * intros k v Hk. rewrite dict_get_set_ne; [exact Hk|].
        intros ->. congruence.
      * left. split; [apply dict_get_set_eq|].
        exists (x :: e). repeat split. discriminate.
      * intros _. lia.
    + intros [= <- <-]. repeat split; auto; try lia.
Qed.

End RetrievalRuns.

Section RetrievalExamples.
Import PyStr Py VectorStore VectorIndexOptimizer EmbeddingUtils Retrieval.
Local Open Scope Q_scope.

Lemma search_user_memories_scoped_witness :
  exists r cache' db',
    search_user_memories typmod_plus_4 example_similarity unit_embedding 0
                         (u "m2") initial_dimensions_cache example_db
                         (u "u1") (u "hello") None 10 = (r, cache', db')
    /\ memories r <> []
    /\ count r = length (memories r)
    /\ (length (memories r) <= Z.to_nat 10)%nat
    /\ descending (memories r)
    /\ forall h, In h (memories r) ->
         (exists qv row, In row (rows_of db' (u "user_memories"))
                         /\ h = hit_of example_similarity qv row)
         /\ dict_get (hit_metadata h) (u "user_id") = Some (u "u1")
         /\ True
         /\ 0.5 <= hit_similarity h.
Proof.
  do 3 eexists. split; [vm_compute; reflexivity|].
  split; [discriminate|].
  eapply (search_user_memories_scoped typmod_plus_4 example_similarity
            unit_embedding 0%Z (u "m2") initial_dimensions_cache example_db
            (u "u1") (u "hello") None 10%Z).
  vm_compute; reflexivity.
Defined.

Lemma ensure_table_idempotent_witness :
  exists db1 db2,
    ensure_table_with_dimension typmod_plus_4 0 example_db
      (u "user_memories") 3 (Some user_memories_columns) = (true, db1)
    /\ declared_dimension db1 (u "user_memories") = Some 3%Z
    /\ ensure_table_with_dimension typmod_plus_4 5 db1
         (u "user_memories") 3 (Some user_memories_columns) = (true, db2)
    /\ tables db2 = tables db1
    /\ indexes db2 = indexes db1
    /\ trace db2 = trace db1 ++ [SelectEmbeddingColumn (u "user_memories");
                                 SelectEmbeddingTypmod (u "user_memories")].
Proof.
  apply (ensure_table_idempotent typmod_plus_4 (fun d => eq_refl) 0%Z 5%Z
           example_db (u "user_memories") 3%Z user_memories_columns).
  reflexivity.
Defined.

Lemma get_embedding_dimension_cache_witness :
  (forall k v, dict_get initial_dimensions_cache k = Some v ->
               dict_get (dict_set initial_dimensions_cache (u "m2") 2%Z) k
               = Some v)
  /\ match dict_get initial_dimensions_cache (u "m2") with
     | Some v => 2%Z = v
                 /\ dict_set initial_dimensions_cache (u "m2") 2%Z
                    = initial_dimensions_cache
     | None =>
         (dict_get (dict_set initial_dimensions_cache (u "m2") 2%Z) (u "m2")
          = Some 2%Z
          /\ exists e, unit_embedding (u "test") (u "m2") = Some e
                       /\ e <> [] /\ 2%Z = Z.of_nat (length e))
         \/ (2%Z = 1024%Z
             /\ dict_set initial_dimensions_cache (u "m2") 2%Z
                = initial_dimensions_cache
             /\ (unit_embedding (u "test") (u "m2") = None
                 \/ unit_embedding (u "test") (u "m2") = Some []))
     end
  /\ ((forall k v, dict_get initial_dimensions_cache k = Some v
                   -> (0 < v)%Z) -> (0 < 2)%Z).
Proof.
  apply (get_embedding_dimension_cache unit_embedding
           initial_dimensions_cache (u "m2") 2%Z
           (dict_set initial_dimensions_cache (u "m2") 2%Z)).
  vm_compute; reflexivity.
Defined.

End RetrievalExamples.

(** ** Delivery and subscriptions *)

Section DeliveryFacts.
Import PyStr Py MemoryEventStream EventStreamMore.

Lemma deliver_any_warning event w w' qs s ws :
  deliver event w qs s ws = deliver event w' qs s ws.
Proof.
  revert s. induction qs as [|a qs IH]; intros s; cbn [deliver];
    [reflexivity|].
  destruct (queues s !! a) as [q|]; [|apply IH].
  unfold put. destruct (full q); [reflexivity|apply IH].
Qed.

Lemma deliver_app event w qs1 qs2 s ws :
  deliver event w (qs1 ++ qs2) s ws
  = and_then (deliver event w qs1 s ws)
             (fun s' ws' => deliver event w qs2 s' ws').
Proof.
  revert s. induction qs1 as [|a qs1 IH]; intros s; cbn [app deliver];
    [reflexivity|].
  destruct (queues s !! a) as [q|]; [|apply IH].
  unfold put. destruct (full q); [reflexivity|apply IH].
Qed.

Lemma and_then_deliver_ext event w qs s ws k k' :
  (forall s' ws',
      _session_subscriptions s' = _session_subscriptions s ->
      _global_subscriptions s' = _global_subscriptions s ->
      k s' ws' = k' s' ws') ->
  and_then (deliver event w qs s ws) k
  = and_then (deliver event w qs s ws) k'.
Proof.
  intros H. pose proof (deliver_frame event w qs s ws) as Hf.
  destruct (deliver event w qs s ws) as [s' ws'|s' ws' b]; [|reflexivity].
  destruct Hf as (_ & Hs & Hg). cbn [and_then]. now apply H.
Qed.

(** [emit_event] is one loop over the queues that match the event. *)
Lemma emit_event_as_deliver s event :
  emit_event s event = deliver event [] (matching_queues s event) s [].
Proof.
  unfold emit_event, matching_queues. rewrite !deliver_app.
  assert (E1 : match _subscriptions s !! user_id event with
               | Some qs =>
                   deliver event (u "Queue full for user " ++ user_id event)
                           qs s []
               | None => Completed s []
               end
               = deliver event []
                   match _subscriptions s !! user_id event with
                   | Some qs => qs
                   | None => []
                   end s []).
  { destruct (_subscriptions s !! user_id event); [|reflexivity].
    apply deliver_any_warning. }
  rewrite E1. clear E1. apply and_then_deliver_ext. intros s1 w1 Hs1 Hg1.
  cbv beta. rewrite deliver_app.
  set (qs2 := match session_id event with
              | Some (c :: sid) =>
                  match _session_subscriptions s !! (c :: sid) with
                  | Some qs => qs
                  | None => []
                  end
              | _ => []
              end).
  assert (E2 : match session_id event with
               | Some (c :: sid) =>
                   match _session_subscriptions s1 !! (c :: sid) with
                   | Some qs =>
                       deliver event
                               (u "Queue full for session " ++ (c :: sid))
                               qs s1 w1
                   | None => Completed s1 w1
                   end
               | _ => Completed s1 w1
               end
               = deliver event [] qs2 s1 w1).
  { subst qs2. rewrite Hs1. destruct (session_id event) as [[|c sid]|];
      try reflexivity.
    destruct (_session_subscriptions s !! (c :: sid)); [|reflexivity].
    apply deliver_any_warning. }
  rewrite E2. clear E2.
  pose proof (deliver_frame event [] qs2 s1 w1) as Hf.
  destruct (deliver event [] qs2 s1 w1) as [s2 w2|s2 w2 b]; [|reflexivity].
  destruct Hf as (_ & _ & Hg2). cbn [and_then]. rewrite Hg2, Hg1.
  apply deliver_any_warning.
Qed.

Lemma distinct_queues_cons a qs :
  distinct_queues (a :: qs) = true -> ~ In a qs /\ distinct_queues qs = true.
Proof.
  cbn [distinct_queues]. intros H. apply andb_true_iff in H as [H1 H2].
  split; [|exact H2]. intros Hin. apply negb_true_iff in H1.
  assert (existsb (Pos.eqb a) qs = true).
  { apply existsb_exists. exists a. split; [exact Hin|apply Pos.eqb_refl]. }
  congruence.
Qed.

(** A loop over distinct queues with room stores the event in each. *)
Lemma deliver_stores event w qs s ws :
  distinct_queues qs = true ->
  forallb (has_room s) qs = true ->
  exists s',
    deliver event w qs s ws = Completed s' ws
    /\ (forall a q, In a qs -> queues s !! a = Some q ->
                    queues s' !! a = Some (push q event))
    /\ (forall a, ~ In a qs -> queues s' !! a = queues s !! a).
Proof.
  revert s. induction qs as [|b qs IH]; intros s Hd Hr.
  - exists s. cbn [deliver In]. repeat split; tauto.
  - apply distinct_queues_cons in Hd as [Hb Hd].
    cbn [forallb] in Hr. apply andb_true_iff in Hr as [Hrb Hr].
    unfold has_room in Hrb. cbn [deliver].
    destruct (queues s !! b) as [qb|] eqn:Eb; [|discriminate].
    apply negb_true_iff in Hrb. unfold put. rewrite Hrb.
    fold (push qb event).
    assert (Hr' : forallb (has_room (set_queue s b (push qb event))) qs
                  = true).
    { apply forallb_forall. intros a Ha.
      rewrite forallb_forall in Hr. specialize (Hr a Ha).
      unfold has_room, set_queue in *. cbn [queues].
      rewrite lookup_insert_ne; [exact Hr|]. intros ->. contradiction. }
    destruct (IH _ Hd Hr') as (s' & Hrun & Hin & Hout).
    exists s'. split; [exact Hrun|]. split.
    + intros a q [<-|Ha] Hq.
      * rewrite (Hout b Hb). unfold set_queue. cbn [queues].
        rewrite lookup_insert_eq. congruence.
      * apply Hin; [exact Ha|]. unfold set_queue. cbn [queues].
        rewrite lookup_insert_ne; [exact Hq|]. intros ->. contradiction.
    + intros a Ha. cbn [In] in Ha. rewrite Hout by tauto.
      unfold set_queue. cbn [queues].
      apply lookup_insert_ne. intros ->. tauto.
Qed.

(** X19. Delivery: when the queues matching an event -- those of its
    user, of its session and the global ones -- are distinct and none is
    full, [emit_event] completes without a warning, appends the event to
    each matching queue once, and leaves every other queue and all
    subscriptions as they were; subscribers of other users never see the
    event. *)
Theorem emit_event_delivers s event :
  distinct_queues (matching_queues s event) = true ->
  forallb (has_room s) (matching_queues s event) = true ->
  exists s',
    emit_event s event = Completed s' []
    /\ (forall a q, In a (matching_queues s event) ->
                    queues s !! a = Some q ->
                    queues s' !! a = Some (push q event))
    /\ (forall a, ~ In a (matching_queues s event) ->
                  queues s' !! a = queues s !! a)
    /\ _subscriptions s' = _subscriptions s
    /\ _session_subscriptions s' = _session_subscriptions s
    /\ _global_subscriptions s' = _global_subscriptions s.
Proof.
  intros Hd Hr. rewrite emit_event_as_deliver.
  destruct (deliver_stores event [] _ s [] Hd Hr) as (s' & Hrun & Hin & Hout).
  pose proof (deliver_frame event [] (matching_queues s event) s []) as Hf.
  rewrite Hrun in Hf. exists s'. tauto.
Qed.

Lemma discard_fresh a qs : ~ In a qs -> discard a (qs ++ [a]) = qs.
Proof.
  intros H. unfold discard. rewrite List.filter_app. cbn [List.filter].
  rewrite Pos.eqb_refl. cbn [negb]. rewrite app_nil_r.
  induction qs as [|b qs IH]; [reflexivity|]. cbn [List.filter].
  destruct (Pos.eqb_spec b a) as [->|Hne]; [exfalso; apply H; now left|].
  cbn [negb]. f_equal. apply IH. intros Hin. apply H. now right.
Qed.

(** X20. Subscribing and closing the subscription is a round trip: on
    a stream whose user sets are non-empty and hold live queues, the
    [finally] block of [subscribe_user] finds the set of the user,
    removes exactly the queue the subscription added and deletes the set
    if it was created for it, so the subscriptions -- and with them
    [get_stats] -- are what they were before; in between, the new queue
    is among those every event of the user is delivered to. *)
Theorem subscribe_user_round_trip s user queue_size :
  tidy s ->
  exists s2,
    unsubscribe_user (snd (subscribe_user s user queue_size)) user
                     (fst (subscribe_user s user queue_size)) = Ok s2
    /\ _subscriptions s2 = _subscriptions s
    /\ get_stats s2 = get_stats s
    /\ (forall event, user_id event = user ->
          In (fst (subscribe_user s user queue_size))
             (matching_queues (snd (subscribe_user s user queue_size))
                              event))
    /\ queues s !! fst (subscribe_user s user queue_size) = None.
Proof.
  intros Htidy. unfold subscribe_user. cbn [fst snd].
  set (a := fresh (dom (queues s))).
  assert (Hfresh : queues s !! a = None)
    by (apply not_elem_of_dom, is_fresh).
  unfold unsubscribe_user. cbn [_subscriptions _session_subscriptions
                                _global_subscriptions queues].
  rewrite lookup_insert_eq.
  assert (Hsub : match discard a
                         (match _subscriptions s !! user with
                          | Some qs => qs
                          | None => []
                          end ++ [a]) with
                 | [] => delete user
                           (<[user := discard a
                                (match _subscriptions s !! user with
                                 | Some qs => qs
                                 | None => []
                                 end ++ [a])]>
                              (<[user := match _subscriptions s !! user with
                                         | Some qs => qs
                                         | None => []
                                         end ++ [a]]> (_subscriptions s)))
                 | _ => <[user := discard a
                            (match _subscriptions s !! user with
                             | Some qs => qs
                             | None => []
                             end ++ [a])]>
                          (<[user := match _subscriptions s !! user with
                                     | Some qs => qs
                                     | None => []
                                     end ++ [a]]> (_subscriptions s))
                 end = _subscriptions s).
  { destruct (_subscriptions s !! user) as [old|] eqn:Eu.
    - destruct (Htidy user old Eu) as [Hne Hlive].
      rewrite discard_fresh.
      + destruct old as [|b old]; [congruence|].
        rewrite insert_insert_eq. now apply insert_id.
      + intros Hin. destruct (Hlive a Hin) as [q Hq]. congruence.
    - rewrite (discard_fresh a []) by tauto.
      rewrite insert_insert_eq. now apply delete_insert_id. }
  eexists. split; [reflexivity|].
  cbn [_subscriptions]. split; [exact Hsub|]. split.
  - unfold get_stats. cbn [_subscriptions _session_subscriptions
                           _global_subscriptions]. now rewrite Hsub.
  - split; [|exact Hfresh].
    intros event <-. unfold matching_queues. cbn [_subscriptions].
    rewrite lookup_insert_eq. apply in_or_app. left.
    apply in_or_app. right. now left.
Qed.

End DeliveryFacts.

Section DeliveryExamples.
Import PyStr Py MemoryEventStream EventStreamMore.

(** Two subscribers, of u1 and of u2, and an event of u1. *)
Lemma emit_event_delivers_witness :
  let s := snd (subscribe_user
                  (snd (subscribe_user new_stream (u "u1") 1))
                  (u "u2") 1) in
  let event := example_event (u "m1") in
  exists s',
    emit_event s event = Completed s' []
    /\ (forall a q, In a (matching_queues s event) ->
                    queues s !! a = Some q ->
                    queues s' !! a = Some (push q event))
    /\ (forall a, ~ In a (matching_queues s event) ->
                  queues s' !! a = queues s !! a)
    /\ _subscriptions s' = _subscriptions s
    /\ _session_subscriptions s' = _session_subscriptions s
    /\ _global_subscriptions s' = _global_subscriptions s.
Proof.
  intros s event. apply (emit_event_delivers s event).
  - vm_compute; reflexivity.
  - vm_compute; reflexivity.
Defined.

Lemma tidy_new_stream : tidy new_stream.
Proof. intros user qs H. cbn in H. rewrite lookup_empty in H. discriminate. Qed.

Lemma subscribe_user_round_trip_witness :
  exists s2,
    unsubscribe_user (snd (subscribe_user new_stream (u "u1") 100)) (u "u1")
                     (fst (subscribe_user new_stream (u "u1") 100)) = Ok s2
    /\ _subscriptions s2 = _subscriptions new_stream
    /\ get_stats s2 = get_stats new_stream
    /\ (forall event, user_id event = u "u1" ->
          In (fst (subscribe_user new_stream (u "u1") 100))
             (matching_queues (snd (subscribe_user new_stream (u "u1") 100))
                              event))
    /\ queues new_stream !! fst (subscribe_user new_stream (u "u1") 100)
       = None.
Proof.
  apply (subscribe_user_round_trip new_stream (u "u1") 100).
  exact tidy_new_stream.
Defined.

End DeliveryExamples.

(** ** The content processor *)

Section KeywordFacts.
Import PyStr Py EnhancedIntelligence.

Lemma str_in_In (x : str) (l : list str) : str_in x l = true <-> In x l.
Proof.
  unfold str_in. rewrite existsb_exists. split.
  - intros (y & Hy & E). apply str_eqb_eq in E. now subst y.
  - intros H. exists x. split; [exact H|apply str_eqb_refl].
Qed.

Lemma unique_spec seen kws :
  List.NoDup (unique seen kws)
  /\ forall kw, In kw (unique seen kws) ->
                In kw kws /\ str_in kw seen = false.
Proof.
  revert seen. induction kws as [|kw rest IH]; intros seen; cbn [unique].
  - split; [constructor|intros kw []].
  - destruct (str_in kw seen) eqn:E.
    + destruct (IH seen) as [Hn Hin]. split; [exact Hn|].
      intros k Hk. destruct (Hin k Hk). split; [now right|assumption].
    + destruct (IH (kw :: seen)) as [Hn Hin]. split.
      * constructor; [|exact Hn]. intros Hk.
        destruct (Hin kw Hk) as [_ Hs].
        assert (str_in kw (kw :: seen) = true)
          by (apply str_in_In; now left).
        congruence.
      * intros k [<-|Hk]; [split; [now left|exact E]|].
        destruct (Hin k Hk) as [Hr Hs]. split; [now right|].
        destruct (str_in k seen) eqn:Ek; [|reflexivity].
        apply str_in_In in Ek.
        assert (str_in k (kw :: seen) = true)
          by (apply str_in_In; now right).
        congruence.
Qed.

Lemma firstn_NoDup_keep {A} n (l : list A) :
  List.NoDup l -> List.NoDup (firstn n l).
Proof.
  revert l. induction n as [|n IH]; intros [|x l] H; cbn [firstn];
    try constructor.
  - apply List.NoDup_cons_iff in H as [Hx Hl].
    intros Hin. apply Hx. revert Hin. clear.
    revert l. induction n as [|n IH]; intros [|y l]; cbn [firstn In];
      try tauto.
    intros [->|H]; [now left|right; now apply IH].
  - apply List.NoDup_cons_iff in H as [_ Hl]. now apply IH.
Qed.

Lemma firstn_In_keep {A} n (l : list A) x : In x (firstn n l) -> In x l.
Proof.
  revert l. induction n as [|n IH]; intros [|y l]; cbn [firstn In];
    try tauto.
  intros [->|H]; [now left|right; now apply IH].
Qed.

Lemma candidate_keywords_spec words kw :
  In kw (candidate_keywords words) ->
  exists word,
    In word words /\ kw = strip_particle word
    /\ (2 <= length kw)%nat
    /\ str_in kw stop_words = false
    /\ meaningful kw = true.
Proof.
  unfold candidate_keywords. rewrite in_flat_map.
  intros (word & Hw & Hk). exists word. split; [exact Hw|].
  cbv zeta in Hk.
  destruct (length (strip_particle word) <? 2)%nat eqn:El;
    [contradiction|].
  destruct (str_in (strip_particle word) stop_words) eqn:Es;
    [contradiction|].
  cbn [orb] in Hk.
  destruct (meaningful (strip_particle word)) eqn:Em; [|contradiction].
  destruct Hk as [<-|[]]. apply Nat.ltb_ge in El. auto.
Qed.

Lemma extract_keywords_length content :
  (length (_extract_keywords content) <= 10)%nat.
Proof. unfold _extract_keywords. apply firstn_le_length. Qed.

(** X21. The keywords [_extract_keywords] returns: pairwise different,
    at most 10, and each is a word of the content without its final
    particle, at least 2 characters long, not a stop word, and holding 2
    Hangul syllables or 3 Latin letters in a row. *)
Theorem extract_keywords_sound content :
  List.NoDup (_extract_keywords content)
  /\ (length (_extract_keywords content) <= 10)%nat
  /\ List.Forall
       (fun kw =>
          (2 <= length kw)%nat
          /\ str_in kw stop_words = false
          /\ meaningful kw = true
          /\ exists word,
               In word (split_ws content) /\ kw = strip_particle word)
       (_extract_keywords content).
Proof.
  unfold _extract_keywords.
  destruct (unique_spec [] (candidate_keywords (split_ws content)))
    as [Hn Hin].
  split; [now apply firstn_NoDup_keep|].
  split; [apply firstn_le_length|].
  apply List.Forall_forall. intros kw Hk.
  apply firstn_In_keep in Hk. destruct (Hin kw Hk) as [Hc _].
  destruct (candidate_keywords_spec _ _ Hc) as (w & Hw & E & Hl & Hs & Hm).
  eauto 10.
Qed.

End KeywordFacts.

Section ProcessorFacts.
Import PyStr Py EnhancedIntelligence.
Local Open Scope Q_scope.

Lemma py_min_cases (a b : Q) :
  (b < a /\ py_min a b = b) \/ (a <= b /\ py_min a b = a).
Proof. unfold py_min. destruct (Qlt_le_dec b a); auto. Qed.

Lemma len_Q_nonneg {A} (l : list A) : 0 <= inject_Z (Z.of_nat (length l)).
Proof.
  change 0 with (inject_Z 0). rewrite <- Zle_Qle. lia.
Qed.

Lemma len_Q_lt {A} (l : list A) (n : nat) :
  (length l <? n)%nat = true ->
  inject_Z (Z.of_nat (length l)) <= inject_Z (Z.of_nat n) - 1.
Proof.
  intros H. apply Nat.ltb_lt in H.
  change 1 with (inject_Z 1). unfold Qminus.
  rewrite <- inject_Z_opp, <- inject_Z_plus, <- Zle_Qle. lia.
Qed.

Lemma len_Q_ge {A} (l : list A) (n : nat) :
  (length l <? n)%nat = false ->
  inject_Z (Z.of_nat n) <= inject_Z (Z.of_nat (length l)).
Proof.
  intros H. apply Nat.ltb_ge in H. rewrite <- Zle_Qle. lia.
Qed.

(** The fact importance in closed form: each term has its own cap and
    the cap at 9 is never reached from above. *)
Lemma fact_importance_closed_form (entities : list Entity)
    (keywords : list str) :
  _calculate_fact_importance entities keywords
  == 6 + (if (length entities <? 4)%nat
          then inject_Z (Z.of_nat (length entities)) * (1 # 2) else 2)
       + (if (length keywords <? 5)%nat
          then inject_Z (Z.of_nat (length keywords)) * (1 # 5) else 1)
  /\ 6 <= _calculate_fact_importance entities keywords
  /\ _calculate_fact_importance entities keywords <= 9.
Proof.
  unfold _calculate_fact_importance, times_len. cbv zeta.
  pose proof (len_Q_nonneg entities) as He0.
  pose proof (len_Q_nonneg keywords) as Hk0.
  assert (HE : py_min (inject_Z (Z.of_nat (length entities)) * 0.5) 2.0
               == if (length entities <? 4)%nat
                  then inject_Z (Z.of_nat (length entities)) * (1 # 2)
                  else 2).
  { destruct (length entities <? 4)%nat eqn:E;
      [apply len_Q_lt in E|apply len_Q_ge in E];
      change (inject_Z (Z.of_nat 4)) with 4 in E;
      destruct (py_min_cases (inject_Z (Z.of_nat (length entities)) * 0.5)
                             2.0) as [[H ->]|[H ->]]; lra. }
  assert (HK : py_min (inject_Z (Z.of_nat (length keywords)) * 0.2) 1.0
               == if (length keywords <? 5)%nat
                  then inject_Z (Z.of_nat (length keywords)) * (1 # 5)
                  else 1).
  { destruct (length keywords <? 5)%nat eqn:E;
      [apply len_Q_lt in E|apply len_Q_ge in E];
      change (inject_Z (Z.of_nat 5)) with 5 in E;
      destruct (py_min_cases (inject_Z (Z.of_nat (length keywords)) * 0.2)
                             1.0) as [[H ->]|[H ->]]; lra. }
  set (te := py_min (inject_Z (Z.of_nat (length entities)) * 0.5) 2.0) in *.
  set (tk := py_min (inject_Z (Z.of_nat (length keywords)) * 0.2) 1.0) in *.
  assert (Bte : 0 <= te /\ te <= 2).
  { rewrite HE. destruct (length entities <? 4)%nat eqn:E; [|lra].
    apply len_Q_lt in E. change (inject_Z (Z.of_nat 4)) with 4 in E. lra. }
  assert (Btk : 0 <= tk /\ tk <= 1).
  { rewrite HK. destruct (length keywords <? 5)%nat eqn:E; [|lra].
    apply len_Q_lt in E. change (inject_Z (Z.of_nat 5)) with 5 in E. lra. }
  assert (Hcap : py_min (6.0 + te + tk) 9.0 == 6 + te + tk).
  { destruct (py_min_cases (6.0 + te + tk) 9.0) as [[H ->]|[H ->]]; lra. }
  split; [rewrite Hcap, HE, HK; reflexivity|].
  split; rewrite Hcap; lra.
Qed.

(** X22. The importance of a fact: 6, plus half a point for each entity
    up to 2 points, plus a fifth of a point for each keyword up to 1
    point -- each term is capped on its own, so the value lies within
    [6, 9] and the final cap at 9 never changes it.  The fact is stored
    exactly when there is an entity or there are more than 3
    keywords. *)
Theorem process_fact_gate content entities keywords :
  let pc := _process_fact content entities keywords in
  importance pc
  == 6 + (if (length entities <? 4)%nat
          then inject_Z (Z.of_nat (length entities)) * (1 # 2) else 2)
       + (if (length keywords <? 5)%nat
          then inject_Z (Z.of_nat (length keywords)) * (1 # 5) else 1)
  /\ 6 <= importance pc /\ importance pc <= 9
  /\ should_store pc
     = negb ((length entities =? 0)%nat && (length keywords <=? 3)%nat)
  /\ storage_format pc = u "structured"
  /\ summary pc = Some (_create_fact_statement content entities).
Proof.
  cbv zeta. unfold _process_fact.
  cbn [importance should_store storage_format summary].
  destruct (fact_importance_closed_form entities keywords) as (H & H6 & H9).
  split; [exact H|]. split; [exact H6|]. split; [exact H9|].
  split; [|split; reflexivity].
  destruct (length entities) as [|n]; [|reflexivity].
  cbn [Nat.ltb Nat.leb Nat.eqb orb andb].
  destruct (length keywords) as [|[|[|[|m]]]]; reflexivity.
Qed.

Lemma startswith_contains (p s : str) :
  startswith s p = true -> contains p s = true.
Proof. intros H. destruct s; cbn [contains]; now rewrite H. Qed.

Lemma contains_tail (x : cp) (p s : str) :
  contains (x :: p) s = true -> contains p s = true.
Proof.
  induction s as [|c s IH].
  - cbn. discriminate.
  - cbn [contains]. intros H. apply orb_true_iff in H as [H|H].
    + cbn [startswith] in H. apply andb_true_iff in H as [_ H].
      apply startswith_contains in H. rewrite H. apply orb_true_r.
    + rewrite (IH H). apply orb_true_r.
Qed.

Lemma split_sentences_nonempty s cur in_run :
  split_sentences s cur in_run <> [].
Proof.
  revert cur in_run. induction s as [|c s IH]; intros cur in_run;
    cbn [split_sentences]; [discriminate|].
  destruct (is_sentence_end c); [destruct in_run|]; try apply IH.
  discriminate.
Qed.

(** X25. A summary is never longer than asked for: the content itself
    when it is short enough, otherwise the beginning of one of its
    sentences; the branch that would append an ellipsis is never
    taken. *)
Theorem generate_summary_length content max_length :
  (length (_generate_summary content max_length) <= max_length)%nat
  /\ (_generate_summary content max_length = content
      \/ exists sentence,
           In sentence (split_sentences content [] false)
           /\ _generate_summary content max_length
              = firstn max_length (strip sentence)).
Proof.
  unfold _generate_summary.
  destruct (length content <=? max_length)%nat eqn:E.
  { apply Nat.leb_le in E. split; [exact E|now left]. }
  pose proof (split_sentences_nonempty content [] false) as Hne.
  destruct (split_sentences content [] false) as [|first rest] eqn:Es;
    [congruence|].
  destruct (find (any_in priority_markers) (first :: rest)) as [s|] eqn:Ef.
  - split; [apply firstn_le_length|]. right. exists s.
    split; [|reflexivity]. apply find_some in Ef. tauto.
  - split; [apply firstn_le_length|]. right. exists first.
    split; [now left|reflexivity].
Qed.

Lemma experience_importance_range content time_refs :
  7 <= _calculate_experience_importance content time_refs
  /\ _calculate_experience_importance content time_refs <= 8.5.
Proof.
  unfold _calculate_experience_importance. cbv zeta.
  destruct (existsb _ _), (50 <? length (split_ws content))%nat;
    match goal with
    | |- context [py_min ?a ?b] =>
        destruct (py_min_cases a b) as [[H ->]|[H ->]]
    end; lra.
Qed.

End ProcessorFacts.

Section ProcessorRuns.
Import PyStr Py EnhancedIntelligence.
Local Open Scope Q_scope.

Variable lower : str -> str.
Variable _extract_entities : str -> list Entity.
Variable search_subject : str -> option str.
Variable _extract_time_references : str -> list str.

(** X23. A preference is processed only when the content holds one of
    the seven preference words, and then it is always stored: with a word
    of liking the level is 8 and the importance 6.8, otherwise the level
    is 3 and the importance 6.3.  Without such a word the function
    raises [TypeError]; [should_store] is never false. *)
Theorem process_preference_outcome content entities keywords :
  match _process_preference search_subject content entities keywords with
  | Ok pc =>
      should_store pc = true
      /\ storage_format pc = u "json"
      /\ ((any_in [u "좋아"; u "선호"; u "즐겨"; u "최고"] content = true
           /\ importance pc == 6.8
           /\ metadata pc
              = PreferenceMetadata
                  {| subject := search_subject content;
                     preference_type := Some (u "like");
                     preference_level := Some 8%Z; reason := None |})
          \/ (any_in [u "좋아"; u "선호"; u "즐겨"; u "최고"] content = false
              /\ any_in [u "싫어"; u "안좋아"; u "별로"] content = true
              /\ importance pc == 6.3
              /\ metadata pc
                 = PreferenceMetadata
                     {| subject := search_subject content;
                        preference_type := Some (u "dislike");
                        preference_level := Some 3%Z; reason := None |}))
  | Raise e =>
      e = TypeError
      /\ any_in [u "좋아"; u "선호"; u "즐겨"; u "최고"] content = false
      /\ any_in [u "싫어"; u "안좋아"; u "별로"] content = false
  end.
Proof.
  unfold _process_preference, _extract_preference_structure.
  destruct (any_in [u "좋아"; u "선호"; u "즐겨"; u "최고"] content) eqn:E1.
  - cbn [preference_level should_store storage_format importance metadata
         subject preference_type].
    split; [reflexivity|]. split; [reflexivity|]. left.
    split; [reflexivity|]. split; reflexivity.
  - destruct (any_in [u "싫어"; u "안좋아"; u "별로"] content) eqn:E2.
    + cbn [preference_level should_store storage_format importance metadata
           subject preference_type].
      split; [reflexivity|]. split; [reflexivity|]. right.
      split; [reflexivity|]. split; [reflexivity|]. split; reflexivity.
    + cbn [preference_level]. auto.
Qed.

(** X24. A dislike worded with the negated verb is stored as a liking:
    content that holds the dislike word "안좋아" also holds the like word
    "좋아", which is tested first, so the preference is of type like,
    level 8, importance 6.8. *)
Theorem negated_like_is_like content entities keywords :
  contains (u "안좋아") content = true ->
  exists pc,
    _process_preference search_subject content entities keywords = Ok pc
    /\ metadata pc
       = PreferenceMetadata
           {| subject := search_subject content;
              preference_type := Some (u "like");
              preference_level := Some 8%Z; reason := None |}
    /\ importance pc == 6.8.
Proof.
  intros H.
  assert (Hl : any_in [u "좋아"; u "선호"; u "즐겨"; u "최고"] content
               = true).
  { unfold any_in. cbn [existsb].
    assert (E : contains (u "좋아") content = true).
    { revert H. change (u "안좋아") with (50504%N :: u "좋아").
      apply contains_tail. }
    rewrite E. reflexivity. }
  unfold _process_preference, _extract_preference_structure.
  rewrite Hl. cbn [preference_level]. eexists. split; [reflexivity|].
  cbn [metadata importance]. split; reflexivity.
Qed.

(** X26. What [process_content_for_storage] returns: it raises only
    for a preference, and then [TypeError]; otherwise the importance lies
    within [5, 9], the storage format is the one of the memory type
    (structured for facts, json for preferences, identities and skills,
    full for the rest), the entities are those extracted from the
    normalized content, and at most 10 keywords are kept (skills add the
    skill names found, at most 13 more). *)
Theorem process_content_outcome content memory_type :
  match process_content_for_storage lower _extract_entities search_subject
          _extract_time_references content memory_type with
  | Ok pc =>
      5 <= importance pc /\ importance pc <= 9
      /\ storage_format pc = format_of memory_type
      /\ extracted_entities pc
         = _extract_entities (_normalize_content content)
      /\ (length (keywords pc) <= 23)%nat
      /\ (memory_type <> SKILL -> (length (keywords pc) <= 10)%nat)
  | Raise e => e = TypeError /\ memory_type = PREFERENCE
  end.
Proof.
  unfold process_content_for_storage.
  set (normalized := _normalize_content content).
  set (entities := _extract_entities normalized).
  pose proof (extract_keywords_length normalized) as Hlen.
  set (kws := _extract_keywords normalized) in *.
  assert (Hskills : (length (skills (_extract_skill_structure lower
                                       normalized)) <= 13)%nat).
  { unfold _extract_skill_structure. cbn [skills].
    etransitivity; [apply List.filter_length_le|]. reflexivity. }
  destruct memory_type; cbn [format_of];
    try (cbn [importance storage_format extracted_entities keywords];
         repeat split; try reflexivity; try lra; try lia; fail).
  - (* FACT *)
    unfold _process_fact.
    cbn [importance storage_format extracted_entities keywords].
    destruct (fact_importance_closed_form entities kws) as (_ & H6 & H9).
    repeat split; try reflexivity; try lra; lia.
  - (* PREFERENCE *)
    unfold _process_preference, _extract_preference_structure.
    destruct (any_in [u "좋아"; u "선호"; u "즐겨"; u "최고"] normalized);
      [|destruct (any_in [u "싫어"; u "안좋아"; u "별로"] normalized)];
      cbn [preference_level importance storage_format extracted_entities
           keywords];
      repeat split; try reflexivity; try lra; try lia; discriminate.
  - (* IDENTITY *)
    unfold _process_identity.
    cbn [importance storage_format extracted_entities keywords].
    repeat split; try reflexivity; try lra; lia.
  - (* SKILL *)
    unfold _process_skill.
    cbn [importance storage_format extracted_entities keywords].
    repeat split; try reflexivity; try lra.
    + rewrite length_app. lia.
    + intros H. congruence.
  - (* EXPERIENCE *)
    unfold _process_experience.
    cbn [importance storage_format extracted_entities keywords].
    destruct (experience_importance_range normalized
                (_extract_time_references normalized)) as [H7 H8].
    repeat split; try reflexivity; try lra; lia.
  - (* CONVERSATION *)
    unfold _process_conversation.
    cbn [importance storage_format extracted_entities keywords].
    destruct (contains (u "?") normalized
              || any_in [u "뭐"; u "어떻게"; u "왜"; u "언제"] normalized);
      repeat split; try reflexivity; try lra; lia.
Qed.

End ProcessorRuns.

Section ProcessorExamples.
Import PyStr Py EnhancedIntelligence.
Local Open Scope Q_scope.

Lemma negated_like_is_like_witness :
  exists pc,
    _process_preference no_subject (u "커피 안좋아해요") [] [] = Ok pc
    /\ metadata pc
       = PreferenceMetadata
           {| subject := no_subject (u "커피 안좋아해요");
              preference_type := Some (u "like");
              preference_level := Some 8%Z; reason := None |}
    /\ importance pc == 6.8.
Proof.
  apply (negated_like_is_like no_subject (u "커피 안좋아해요") [] []).
  vm_compute; reflexivity.
Defined.

(** A preference without one of the seven words cannot be processed. *)
Example preference_without_word :
  process_content_for_storage lower_ascii no_entities no_subject
    no_time_references (u "coffee, please") PREFERENCE = Raise TypeError.
Proof. vm_compute. reflexivity. Qed.

(** Three keywords and no entity: the fact is not stored. *)
Example fact_with_three_keywords :
  _extract_keywords (u "alpha beta gamma") = [u "alpha"; u "beta"; u "gamma"]
  /\ should_store (_process_fact (u "alpha beta gamma") []
                                 (_extract_keywords (u "alpha beta gamma")))
     = false.
Proof. split; vm_compute; reflexivity. Qed.

(** Particles go, stop words and short words are left out, duplicates
    are kept once. *)
Example keywords_of_a_sentence :
  _extract_keywords (u "서울에서 개발을 하는 개발 팀 Python 은")
  = [u "서울에"; u "개발"; u "Python"].
Proof. vm_compute. reflexivity. Qed.

End ProcessorExamples.

(** ** Table provisioning *)

Section ProvisioningRuns.
Import PyStr Py VectorStore VectorIndexOptimizer EmbeddingUtils
       SearchOptimizer Provisioning.

Variable T : Z -> Z.

Lemma needs_recreation_reads db table_name d :
  needs_recreation T db table_name d
  = (negb (found_in_place T db table_name d),
     {| tables := tables db; indexes := indexes db;
        trace := trace db ++ catalog_checks db table_name |}).
Proof.
  unfold needs_recreation, found_in_place, catalog_checks,
    declared_dimension, call_tool, run, record.
  cbn [tables indexes trace].
  destruct (tables db !! table_name) as [tb|] eqn:Et; [|reflexivity].
  destruct (embedding_dimension tb) as [d0|] eqn:Ed; [|reflexivity].
  cbn [success rows ok_rows nonempty andb tables indexes trace].
  rewrite Et, Ed.
  cbn [success rows ok_rows nonempty andb current_dim_of].
  rewrite <- app_assoc. cbn [app].
  destruct (T d0 =? 0)%Z; cbn [negb andb dim_differs]; reflexivity.
Qed.

Lemma basic_indexes_words table_name cols :
  basic_indexes table_name cols = non_vector_indexes table_name cols.
Proof.
  unfold basic_indexes, non_vector_indexes. do 2 f_equal.
  unfold dict_mem. induction cols as [|[k v] cols IH]; [reflexivity|].
  cbn [dict_get existsb fst]. destruct (str_eqb k (u "user_id")); [reflexivity|].
  exact IH.
Qed.

(** The table is found in place: the two catalog queries, nothing
    else. *)
Lemma ensure_table_in_place now db table_name d additional_columns :
  found_in_place T db table_name d = true ->
  ensure_table_with_dimension T now db table_name d additional_columns
  = (true, {| tables := tables db; indexes := indexes db;
              trace := trace db ++ catalog_checks db table_name |}).
Proof.
  intros H. unfold ensure_table_with_dimension.
  rewrite needs_recreation_reads, H. reflexivity.
Qed.

Lemma statistics_columns_fresh d cols :
  has_column (fresh_table d cols) (u "user_id")
  && has_column (fresh_table d cols) (u "memory_type")
  && has_column (fresh_table d cols) (u "importance")
  = statistics_columns cols.
Proof.
  unfold statistics_columns, has_column, fresh_table.
  cbn [table_columns forallb]. now rewrite andb_true_r, andb_assoc.
Qed.

(** The statistics of a new table without the columns the queries read:
    the first query fails. *)
Lemma get_table_stats_fails db table_name d cols :
  tables db !! table_name = Some (fresh_table d cols) ->
  statistics_columns cols = false ->
  _get_table_stats T db table_name
  = (None, record db (SelectTableStats table_name)).
Proof.
  intros Ht Hc. unfold _get_table_stats.
  rewrite call_tool_table_stats, Ht, statistics_columns_fresh, Hc.
  reflexivity.
Qed.

(** The statistics of a new table with those columns: no rows. *)
Lemma get_table_stats_fresh db table_name d cols :
  tables db !! table_name = Some (fresh_table d cols) ->
  statistics_columns cols = true ->
  exists st db',
    _get_table_stats T db table_name = (Some st, db')
    /\ row_count st = 0%Z.
Proof.
  intros Ht Hc.
  assert (H : exists st db',
             _get_table_stats T db table_name = (Some st, db')).
  { unfold _get_table_stats.
    rewrite call_tool_table_stats, Ht, statistics_columns_fresh, Hc.
    cbn [success rows ok_rows negb orb nonempty].
    rewrite call_tool_type_distribution, call_tool_user_distribution,
      call_tool_embedding_indexes.
    eexists. eexists. reflexivity. }
  destruct H as (st & db' & H). exists st, db'. split; [exact H|].
  destruct (get_table_stats_reads T _ _ _ _ H) as (tb & Htb & Hrc & _).
  rewrite Ht in Htb. injection Htb as <-. exact Hrc.
Qed.

(** Re-creation, statement by statement. *)
Lemma ensure_table_recreated now db table_name d cols :
  (0 < d)%Z ->
  found_in_place T db table_name d = false ->
  exists db' dropped,
    ensure_table_with_dimension T now db table_name d (Some cols)
    = (true, db')
    /\ tables db' = <[table_name := fresh_table d cols]> (tables db)
    /\ trace db'
       = trace db
         ++ catalog_checks db table_name
         ++ [ DropTableIfExistsCascade table_name;
              CreateTable table_name d cols ]
         ++ non_vector_indexes table_name cols
         ++ vector_index_steps table_name cols dropped.
Proof.
  intros Hd Hf. unfold ensure_table_with_dimension.
  rewrite needs_recreation_reads, Hf. cbn [negb].
  unfold call_tool at 1 2, run, record. cbn [tables indexes trace].
  rewrite lookup_delete_eq.
  assert (H1 : (1 <=? d)%Z = true) by (apply Z.leb_le; lia).
  rewrite H1. cbn [success ok_rows].
  set (db3 := {| tables := <[table_name := _]> (delete table_name (tables db));
                 indexes := _; trace := _ |}).
  pose proof (send_all_quiet T db3 (basic_indexes table_name cols)
                (basic_indexes_keep table_name cols)) as [Ht4 _].
  pose proof (send_all_trace T db3 (basic_indexes table_name cols)) as Htr4.
  set (db4 := send_all T db3 (basic_indexes table_name cols)) in *.
  assert (Ht3 : tables db3 = <[table_name := fresh_table d cols]> (tables db))
    by (subst db3; cbn [tables]; apply insert_delete_eq).
  assert (Hl4 : tables db4 !! table_name = Some (fresh_table d cols))
    by (rewrite Ht4, Ht3; apply lookup_insert_eq).
  assert (Htr3 : trace db3
                 = trace db ++ catalog_checks db table_name
                   ++ [ DropTableIfExistsCascade table_name;
                        CreateTable table_name d cols ])
    by (subst db3; cbn [trace]; rewrite <- !app_assoc; reflexivity).
  unfold optimize_memory_index, vector_index_steps.
  destruct (statistics_columns cols) eqn:Hc.
  - destruct (get_table_stats_fresh db4 table_name d cols Hl4 Hc)
      as (st & db5 & Hs & Hrc).
    rewrite Hs.
    assert (Hnone : _determine_index_strategy st = StrategyNone).
    { unfold _determine_index_strategy. rewrite Hrc. reflexivity. }
    rewrite Hnone.
    destruct (_apply_index_strategy T db5 table_name StrategyNone st)
      as [r db6] eqn:Ea.
    pose proof (apply_index_strategy_quiet T _ _ _ _ _ _ Ea) as [Ht6 _].
    apply apply_index_strategy_trace in Ea as [-> Htr6].
    cbn [optimized].
    destruct (get_table_stats_reads T _ _ _ _ Hs)
      as (_ & _ & _ & _ & _ & Ht5 & _).
    apply get_table_stats_trace in Hs.
    exists db6, (nonempty (current_indexes st)).
    split; [reflexivity|]. split; [congruence|].
    rewrite Htr6, Hs, Htr4, Htr3, basic_indexes_words.
    unfold applied_statements. cbn [is_none_strategy negb orb
                                    strategy_statements].
    rewrite app_nil_r, <- !app_assoc. reflexivity.
  - rewrite (get_table_stats_fails db4 table_name d cols Hl4 Hc).
    cbn [optimized]. eexists. exists false.
    split; [reflexivity|]. split.
    + rewrite (call_tool_tables T) by reflexivity.
      cbn [record tables]. congruence.
    + rewrite call_tool_trace. cbn [record trace].
      rewrite Htr4, Htr3, basic_indexes_words, <- !app_assoc. reflexivity.
Qed.

Variable similarity : list Q -> list Q -> Q.
Variable rag_generate_embedding : str -> str -> option (list Q).

(** C1.  [ensure_table_with_dimension], for a positive dimension [d],
    a dictionary of additional columns and whatever type modifier the
    catalog reports for a vector column.
    - It leaves the table untouched exactly when it finds it in place:
      the table has an embedding column whose type modifier, less 4, is
      [d].  A store that reports the dimension plus 4 makes this "the
      declared dimension is [d]"; pgvector reports the dimension itself,
      and then a table of the required dimension is not found in place.
    - Otherwise it sends DROP TABLE and CREATE TABLE, which leave the
      table with an embedding column of dimension [d] and no rows, and
      every other table as it was; then the non-vector indexes -- GIN on
      metadata, B-tree on created_at DESC, B-tree on user_id when that
      column is among the additional ones; and only then the optimizer's
      statistics queries and, when the table lacks the columns these
      read, the IVFFlat index with 100 lists as the last statement (with
      those columns no vector index is created for the empty table).
    - A retrieval whose model dimension is not found in place re-creates
      the table and returns success with no memories. *)
Theorem C1_table_provisioning now db table_name d cols :
  (0 < d)%Z ->
  (exists db',
     ensure_table_with_dimension T now db table_name d (Some cols)
     = (true, db')
     /\ if found_in_place T db table_name d
        then tables db' = tables db
             /\ indexes db' = indexes db
             /\ trace db' = trace db ++ catalog_checks db table_name
        else tables db' = <[table_name := fresh_table d cols]> (tables db)
             /\ exists dropped,
                  trace db'
                  = trace db
                    ++ catalog_checks db table_name
                    ++ [ DropTableIfExistsCascade table_name;
                         CreateTable table_name d cols ]
                    ++ non_vector_indexes table_name cols
                    ++ vector_index_steps table_name cols dropped)
  /\ (forall model cache user_id query session_id limit x e,
        fst (get_embedding_dimension rag_generate_embedding cache model) = d ->
        found_in_place T db (u "user_memories") d = false ->
        rag_generate_embedding query model = Some (x :: e) ->
        exists cache' db',
          search_user_memories T similarity rag_generate_embedding now model
                               cache db user_id query session_id limit
          = ({| memories_success := true; memories := []; count := 0;
                memories_error := None |}, cache', db')
          /\ tables db' !! u "user_memories"
             = Some (fresh_table d user_memories_columns)).
Proof.
  intros Hd. split.
  - destruct (found_in_place T db table_name d) eqn:Hf.
    + rewrite (ensure_table_in_place now db table_name d (Some cols) Hf).
      eexists. split; [reflexivity|]. cbn [tables indexes trace]. auto.
    + destruct (ensure_table_recreated now db table_name d cols Hd Hf)
        as (db' & dropped & E & Ht & Htr).
      exists db'. split; [exact E|]. split; [exact Ht|]. eauto.
  - intros model cache user_id query session_id limit x e Hdim Hf Hrag.
    unfold search_user_memories.
    destruct (get_embedding_dimension rag_generate_embedding cache model)
      as [d0 cache'] eqn:Edim.
    cbn [fst] in Hdim. subst d0.
    destruct (ensure_table_recreated now db (u "user_memories") d
                user_memories_columns Hd Hf)
      as (db' & dropped & E & Ht & _).
    rewrite E. unfold get_embedding_from_rag. rewrite Hrag.
    assert (Hlook : tables db' !! u "user_memories"
                    = Some (fresh_table d user_memories_columns))
      by (rewrite Ht; apply lookup_insert_eq).
    rewrite (search_fresh_table similarity db' _ d user_memories_columns
               _ _ _ _ Hlook).
    exists cache', db'. split; [reflexivity | exact Hlook].
Qed.

(** X17. An outage of the embedding service costs the stored memories:
    when the model is not in the dimension cache and the service answers
    no request, [search_user_memories] takes the default dimension 1024,
    re-creates the table unless it finds it in place for 1024 (an
    embedding column whose type modifier, less 4, is 1024), and only
    then fails with "Failed to generate embedding"; the table is left
    empty. *)
Theorem search_during_outage now embedding_model cache db user_id query
    session_id limit :
  dict_get cache embedding_model = None ->
  (forall text, rag_generate_embedding text embedding_model = None) ->
  found_in_place T db (u "user_memories") 1024 = false ->
  exists db',
    search_user_memories T similarity rag_generate_embedding now
                         embedding_model cache db user_id query session_id
                         limit
    = ({| memories_success := false; memories := []; count := 0;
          memories_error := Some (u "Failed to generate embedding") |},
       cache, db')
    /\ tables db'
       = <[u "user_memories" := fresh_table 1024 user_memories_columns]>
           (tables db)
    /\ Retrieval.rows_of db' (u "user_memories") = [].
Proof.
  intros Hc Hrag Hf. unfold search_user_memories, get_embedding_dimension,
    get_embedding_from_rag.
  rewrite Hc, !Hrag.
  destruct (ensure_table_recreated now db (u "user_memories") 1024
              user_memories_columns ltac:(lia) Hf)
    as (db' & dropped & H & Ht & _).
  rewrite H. exists db'. split; [reflexivity|]. split; [exact Ht|].
  unfold Retrieval.rows_of. rewrite Ht, lookup_insert_eq. reflexivity.
Qed.

End ProvisioningRuns.

Section ProvisioningRunExamples.
Import PyStr Py VectorStore VectorIndexOptimizer EmbeddingUtils
       SearchOptimizer Provisioning.

(** The store reports the dimension itself; the table is declared with
    dimension 2 and holds a memory; dimension 2 is asked for.  The code
    reads 2 - 4, does not find the table in place, and drops it. *)
Lemma C1_witness :
  exists db',
    ensure_table_with_dimension typmod_pgvector 0 example_db
      (u "user_memories") 2 (Some user_memories_columns) = (true, db')
    /\ tables db'
       = <[u "user_memories" := fresh_table 2 user_memories_columns]>
           (tables example_db)
    /\ exists dropped,
         trace db'
         = trace example_db
           ++ catalog_checks example_db (u "user_memories")
           ++ [ DropTableIfExistsCascade (u "user_memories");
                CreateTable (u "user_memories") 2 user_memories_columns ]
           ++ non_vector_indexes (u "user_memories") user_memories_columns
           ++ vector_index_steps (u "user_memories") user_memories_columns
                                 dropped.
Proof.
  exact (proj1 (C1_table_provisioning typmod_pgvector example_similarity
                  example_embedding 0%Z example_db (u "user_memories") 2%Z
                  user_memories_columns ltac:(lia))).
Defined.

(** The same call in full: the declared dimension is the required one,
    the row is lost, and the statements are those of a re-creation.  A
    table declared with dimension 6 is the one found in place for 2. *)
Example matching_table_dropped :
  declared_dimension example_db (u "user_memories") = Some 2%Z
  /\ Retrieval.rows_of example_db (u "user_memories") = [example_row]
  /\ found_in_place typmod_pgvector example_db (u "user_memories") 2 = false
  /\ found_in_place typmod_pgvector example_db (u "user_memories") (-2)
     = true
  /\ Retrieval.rows_of
       (snd (ensure_table_with_dimension typmod_pgvector 0 example_db
               (u "user_memories") 2 (Some user_memories_columns)))
       (u "user_memories") = []
  /\ trace (snd (ensure_table_with_dimension typmod_pgvector 0 example_db
                   (u "user_memories") 2 (Some user_memories_columns)))
     = [ SelectEmbeddingColumn (u "user_memories");
         SelectEmbeddingTypmod (u "user_memories");
         DropTableIfExistsCascade (u "user_memories");
         CreateTable (u "user_memories") 2 user_memories_columns;
         CreateIndex (u "idx_user_memories_metadata") (u "user_memories")
                     (Gin (u "metadata"));
         CreateIndex (u "idx_user_memories_created_at") (u "user_memories")
                     (Btree [ (u "created_at", true) ]);
         CreateIndex (u "idx_user_memories_user_id") (u "user_memories")
                     (Btree [ (u "user_id", false) ]);
         SelectTableStats (u "user_memories");
         CreateIndex (u "idx_user_memories_embedding") (u "user_memories")
                     (Ivfflat 100) ].
Proof. repeat split; vm_compute; reflexivity. Qed.

Lemma search_during_outage_witness :
  exists db',
    search_user_memories typmod_pgvector example_similarity
                         Retrieval.no_embedding 0
                         (u "m2") initial_dimensions_cache example_db
                         (u "u1") (u "hello") None 10
    = ({| memories_success := false; memories := []; count := 0;
          memories_error := Some (u "Failed to generate embedding") |},
       initial_dimensions_cache, db')
    /\ tables db'
       = <[u "user_memories" := fresh_table 1024 user_memories_columns]>
           (tables example_db)
    /\ Retrieval.rows_of db' (u "user_memories") = [].
Proof.
  apply (search_during_outage typmod_pgvector example_similarity
           Retrieval.no_embedding 0%Z (u "m2")
           initial_dimensions_cache example_db (u "u1") (u "hello") None
           10%Z).
  - reflexivity.
  - reflexivity.
  - vm_compute. reflexivity.
Defined.

End ProvisioningRunExamples.

(** * Facts: the processor against the specification's rule *)

Section FactFacts.
Import PyStr Py EnhancedIntelligence FactWords.
Local Open Scope Q_scope.

Lemma len_Q_tri (n a : nat) :
  ((n <? S a)%nat = true /\ (n <= a)%nat
   /\ inject_Z (Z.of_nat n) <= inject_Z (Z.of_nat a))
  \/ ((n <? S a)%nat = false /\ n = S a
      /\ inject_Z (Z.of_nat n) == inject_Z (Z.of_nat (S a)))
  \/ ((n <? S a)%nat = false /\ (S (S a) <= n)%nat
      /\ inject_Z (Z.of_nat (S (S a))) <= inject_Z (Z.of_nat n)).
Proof.
  destruct (le_lt_dec n a) as [H|H].
  - left. split; [apply Nat.ltb_lt; lia|]. split; [exact H|].
    rewrite <- Zle_Qle. lia.
  - right. destruct (Nat.eq_dec n (S a)) as [->|Hne].
    + left. split; [apply Nat.ltb_ge; lia|]. split; reflexivity.
    + right. split; [apply Nat.ltb_ge; lia|]. split; [lia|].
      rewrite <- Zle_Qle. lia.
Qed.

(** The stored flag of the code and of the specification differ exactly
    for no entity and three keywords. *)
Lemma fact_should_store_agreement (entities : list Entity)
    (keywords : list str) :
  (0 <? length entities)%nat || (3 <? length keywords)%nat
  = spec_fact_should_store entities keywords
  <-> ~ (length entities = 0 /\ length keywords = 3)%nat.
Proof.
  unfold spec_fact_should_store.
  destruct (length entities) as [|e].
  - destruct (length keywords) as [|[|[|[|k]]]]; cbn; split;
      try discriminate; try reflexivity; try lia.
  - cbn. split; [lia | reflexivity].
Qed.

(** The importance of the code and of the specification agree exactly
    when neither cap of the code cuts a term (at most 4 entities and at
    most 5 keywords) or both do (at least 4 and at least 5). *)
Lemma fact_importance_agreement (entities : list Entity)
    (keywords : list str) :
  _calculate_fact_importance entities keywords
  == spec_fact_importance entities keywords
  <-> ((length entities <= 4 /\ length keywords <= 5)
       \/ (4 <= length entities /\ 5 <= length keywords))%nat.
Proof.
  destruct (fact_importance_closed_form entities keywords) as (Hc & _ & _).
  rewrite Hc. clear Hc. unfold spec_fact_importance.
  destruct (len_Q_tri (length entities) 3) as [He|[He|He]];
    destruct He as (-> & He & HE);
    destruct (len_Q_tri (length keywords) 4) as [Hk|[Hk|Hk]];
    destruct Hk as (-> & Hk & HK);
    change (inject_Z (Z.of_nat 3)) with 3 in HE;
    change (inject_Z (Z.of_nat 4)) with 4 in HE, HK;
    change (inject_Z (Z.of_nat 5)) with 5 in HE, HK;
    change (inject_Z (Z.of_nat 6)) with 6 in HK;
    set (E := inject_Z (Z.of_nat (length entities))) in *;
    set (K := inject_Z (Z.of_nat (length keywords))) in *;
    destruct (py_min_cases (6 + 0.5 * E + 0.2 * K) 9) as [[Hm ->]|[Hm ->]];
    (split;
     [ intros Heq;
       first [ left; split; lia | right; split; lia | exfalso; lra ]
     | intros [[H1 H2]|[H1 H2]]; first [lia | lra] ]).
Qed.

End FactFacts.

Section FactRuns.
Import PyStr Py EnhancedIntelligence FactWords.
Local Open Scope Q_scope.

Variable lower : str -> str.
Variable _extract_entities : str -> list Entity.
Variable search_subject : str -> option str.
Variable _extract_time_references : str -> list str.

(** C6.  For every content, [process_content_for_storage] with the
    memory type FACT returns (it never raises) the result of
    [_process_fact] on the normalized content, its entities and its
    keywords: the storage format is "structured"; the content is stored
    exactly when there is an entity or there are more than 3 keywords (at
    least 4), which is the specification's "at least 3" except for no
    entity and exactly 3 keywords; the importance is 6, plus 0.5 for each
    entity up to 2 points, plus 0.2 for each keyword up to 1 point, which
    is at most 9 without the final cap, and which is the specification's
    6 + 0.5 e + 0.2 k capped at 9 exactly when e <= 4 and k <= 5, or
    e >= 4 and k >= 5. *)
Theorem C6_fact_processing content :
  let normalized := _normalize_content content in
  let entities := _extract_entities normalized in
  let kws := _extract_keywords normalized in
  exists pc,
    process_content_for_storage lower _extract_entities search_subject
      _extract_time_references content FACT = Ok pc
    /\ pc = _process_fact normalized entities kws
    /\ storage_format pc = u "structured"
    /\ extracted_entities pc = entities
    /\ keywords pc = kws
    /\ should_store pc
       = (1 <=? length entities)%nat || (4 <=? length kws)%nat
    /\ (should_store pc = spec_fact_should_store entities kws
        <-> ~ (length entities = 0 /\ length kws = 3)%nat)
    /\ importance pc
       == 6 + (if (length entities <? 4)%nat
               then inject_Z (Z.of_nat (length entities)) * (1 # 2) else 2)
            + (if (length kws <? 5)%nat
               then inject_Z (Z.of_nat (length kws)) * (1 # 5) else 1)
    /\ importance pc <= 9
    /\ (importance pc == spec_fact_importance entities kws
        <-> ((length entities <= 4 /\ length kws <= 5)
             \/ (4 <= length entities /\ 5 <= length kws))%nat).
Proof.
  cbv zeta. eexists. split; [reflexivity|].
  split; [reflexivity|].
  unfold _process_fact.
  cbn [storage_format extracted_entities keywords should_store importance].
  split; [reflexivity|]. split; [reflexivity|]. split; [reflexivity|].
  split; [reflexivity|].
  split; [apply fact_should_store_agreement|].
  destruct (fact_importance_closed_form
              (_extract_entities (_normalize_content content))
              (_extract_keywords (_normalize_content content)))
    as (H & _ & H9).
  split; [exact H|]. split; [exact H9|].
  apply fact_importance_agreement.
Qed.

End FactRuns.

Section FactExamples.
Import PyStr Py EnhancedIntelligence FactWords.
Local Open Scope Q_scope.

(** C6 as the claim states it fails twice.  "alpha beta gamma" has no
    entity and three keywords: the claim stores it, the code does not.
    "alpha beta gamma delta epsilon zeta" has no entity and six
    keywords: the claim's importance is 6 + 0.2 * 6 = 7.2, the code
    returns 7.0, the keyword term being cut at 1. *)
Lemma C6_counterexample :
  (exists pc,
     process_content_for_storage lower_ascii no_entities no_subject
       no_time_references (u "alpha beta gamma") FACT = Ok pc
     /\ extracted_entities pc = []
     /\ keywords pc = [u "alpha"; u "beta"; u "gamma"]
     /\ should_store pc = false
     /\ spec_fact_should_store (extracted_entities pc) (keywords pc) = true)
  /\ (exists pc,
        process_content_for_storage lower_ascii no_entities no_subject
          no_time_references (u "alpha beta gamma delta epsilon zeta") FACT
        = Ok pc
        /\ extracted_entities pc = []
        /\ length (keywords pc) = 6%nat
        /\ importance pc == 7
        /\ spec_fact_importance (extracted_entities pc) (keywords pc)
           == 7.2
        /\ ~ importance pc
             == spec_fact_importance (extracted_entities pc) (keywords pc)).
Proof.
  split.
  - eexists. split; [vm_compute; reflexivity|].
    repeat split; vm_compute; reflexivity.
  - eexists. split; [vm_compute; reflexivity|].
    split; [vm_compute; reflexivity|].
    split; [vm_compute; reflexivity|].
    split; [vm_compute; reflexivity|].
    split; [vm_compute; reflexivity|].
    vm_compute. discriminate.
Qed.

End FactExamples.
